(** * sim-util worker: a shallow embedding of the two worker scripts

    The repository holds two versions of one script:
    - [src/worker.py], version 0.1: base paths listed with [os.listdir] and
      filtered with [re.search] (module [V1] below);
    - [src/src/worker.py], version 0.3.0: patterns expanded with [glob.glob]
      (module [V3] below).

    Both are top-level Python scripts.  They are embedded as functions over
    an explicit world (file system, working directory, output trace, clock)
    in a state-and-exception monad.  What the scripts take from Python's
    library and from the operating system without defining it (regular
    expressions, [fnmatch], [int], [float], the clock, the job command) is a
    field of [Platform]; theorems quantify over every platform, closed
    examples use [Ref.platform]. *)

From Stdlib Require Import String Ascii List ZArith Bool Lia QArith.
Import ListNotations.
Open Scope string_scope.
Open Scope Z_scope.

(* ================================================================== *)
(** ** Python string primitives used by the scripts *)

Module Py.

(** [s.startswith(pre)] *)
Definition startswith (s pre : string) : bool := String.prefix pre s.

(** [sub in s] for two strings: substring test. *)
Fixpoint contains (s sub : string) : bool :=
  String.prefix sub s ||
  match s with
  | EmptyString => false
  | String _ s' => contains s' sub
  end.

(** [x in (a, b, ...)] for a tuple of strings: equality with a member. *)
Definition in_tuple (x : string) (t : list string) : bool :=
  existsb (String.eqb x) t.

(** [s.endswith(c)] for a one-character [c]. *)
Fixpoint endswith_char (s : string) (c : ascii) : bool :=
  match s with
  | EmptyString => false
  | String a EmptyString => Ascii.eqb a c
  | String _ s' => endswith_char s' c
  end.

(** [s[:-1]] *)
Fixpoint drop_last (s : string) : string :=
  match s with
  | EmptyString => EmptyString
  | String _ EmptyString => EmptyString
  | String a s' => String a (drop_last s')
  end.

(** [s.split(sep)] for a one-character separator: the string is cut at
    every occurrence of [sep]; empty pieces are kept. *)
Fixpoint split (sep : ascii) (s : string) : list string :=
  match s with
  | EmptyString => [EmptyString]
  | String c s' =>
      if Ascii.eqb c sep then EmptyString :: split sep s'
      else match split sep s' with
           | [] => [String c EmptyString]
           | t :: ts => String c t :: ts
           end
  end.

(** [sep.join(l)] *)
Fixpoint join (sep : string) (l : list string) : string :=
  match l with
  | [] => EmptyString
  | [x] => x
  | x :: l' => x ++ sep ++ join sep l'
  end.

(** [s.index(c)] cut: [Some (s[:i], s[i+1:])] at the first [c], [None] when
    [c] does not occur ([ValueError] in Python). *)
Fixpoint cut_at (c : ascii) (s : string) : option (string * string) :=
  match s with
  | EmptyString => None
  | String a s' =>
      if Ascii.eqb a c then Some (EmptyString, s')
      else match cut_at c s' with
           | Some (l, r) => Some (String a l, r)
           | None => None
           end
  end.

(** Number of occurrences of a character. *)
Fixpoint count (c : ascii) (s : string) : nat :=
  match s with
  | EmptyString => O
  | String a s' => ((if Ascii.eqb a c then 1 else 0) + count c s')%nat
  end.

(** The character does not occur in the string. *)
Fixpoint free_of (c : ascii) (s : string) : bool :=
  match s with
  | EmptyString => true
  | String a s' => negb (Ascii.eqb a c) && free_of c s'
  end.

(** Python floats as far as the scripts use them: a limit read by
    [float(a)], compared with an elapsed time.  Rounding is not modelled. *)
Inductive pyfloat := Fin (q : Q) | PosInf | NegInf | NaN.

(** [x >= y] for a finite [x]. *)
Definition ge_float (x : Q) (y : pyfloat) : bool :=
  match y with
  | Fin q => Qle_bool q x
  | PosInf => false
  | NegInf => true
  | NaN => false
  end.

(** [sys.maxsize] on a 64-bit build. *)
Definition maxsize : Z := 9223372036854775807.

End Py.

(* ================================================================== *)
(** ** Exceptions and results *)

(** The texts the scripts print: their two constants and plain lines. *)
Inductive text :=
| VERSION
| USAGE
| Line (s : string).

(** The argument of [SystemExit]: [sys.exit()], [exit(n)],
    [raise SystemExit(text)]. *)
Inductive exit_arg :=
| ExitNone
| ExitCode (n : Z)
| ExitText (t : text).

Inductive exn :=
| SystemExit (a : exit_arg)
| GetoptError (msg opt : string)
| ValueError
| RuntimeError (msg : string)
| ReError
| FileExistsError
| FileNotFoundError
| NotADirectoryError
| IsADirectoryError
| PermissionError.

Definition is_FileExistsError (e : exn) : bool :=
  match e with FileExistsError => true | _ => false end.

Inductive result (A : Type) :=
| Ok (a : A)
| Raise (e : exn).
Arguments Ok {A} a.
Arguments Raise {A} e.

(** Exit status of the interpreter for a script that ended normally or with
    an exception nobody caught: [SystemExit] carries its status (none is 0,
    a text is printed and gives 1), every other exception prints a traceback
    and gives 1. *)
Definition exit_status {A} (r : result A) : Z :=
  match r with
  | Ok _ => 0
  | Raise (SystemExit ExitNone) => 0
  | Raise (SystemExit (ExitCode n)) => n
  | Raise (SystemExit (ExitText _)) => 1
  | Raise _ => 1
  end.

(* ================================================================== *)
(** ** [getopt.getopt], after CPython's [Lib/getopt.py] *)

Module Getopt.

Definition opts := list (string * string).

Local Definition str1 (c : ascii) : string := String c EmptyString.

(** [short_has_arg(opt, shortopts)] *)
Fixpoint short_has_arg (opt : ascii) (shortopts : string) : result bool :=
  match shortopts with
  | EmptyString =>
      Raise (GetoptError "option not recognized" (str1 opt))
  | String c rest =>
      if Ascii.eqb opt c && negb (Ascii.eqb c ":")
      then Ok (Py.startswith rest ":")
      else short_has_arg opt rest
  end.

(** [do_shorts(opts, optstring, shortopts, args)]; returns the options to
    append and the remaining arguments. *)
Fixpoint do_shorts (optstring shortopts : string) (args : list string)
  : result (opts * list string) :=
  match optstring with
  | EmptyString => Ok ([], args)
  | String opt rest =>
      match short_has_arg opt shortopts with
      | Raise e => Raise e
      | Ok true =>
          match rest with
          | EmptyString =>
              match args with
              | [] => Raise (GetoptError "option requires argument" (str1 opt))
              | a :: args' => Ok ([("-" ++ str1 opt, a)], args')
              end
          | _ => Ok ([("-" ++ str1 opt, rest)], args)
          end
      | Ok false =>
          match do_shorts rest shortopts args with
          | Raise e => Raise e
          | Ok (os, args') => Ok (("-" ++ str1 opt, EmptyString) :: os, args')
          end
      end
  end.

(** [long_has_args(opt, longopts)] *)
Definition long_has_args (opt : string) (longopts : list string)
  : result (bool * string) :=
  let possibilities := filter (fun o => Py.startswith o opt) longopts in
  match possibilities with
  | [] => Raise (GetoptError "option not recognized" opt)
  | first :: others =>
      if Py.in_tuple opt possibilities then Ok (false, opt)
      else if Py.in_tuple (opt ++ "=") possibilities then Ok (true, opt)
      else match others with
           | _ :: _ => Raise (GetoptError "option not a unique prefix" opt)
           | [] =>
               if Py.endswith_char first "="
               then Ok (true, Py.drop_last first)
               else Ok (false, first)
           end
  end.

(** [do_longs(opts, opt, longopts, args)] *)
Definition do_longs (opt : string) (longopts args : list string)
  : result (opts * list string) :=
  let '(opt, optarg) :=
    match Py.cut_at "=" opt with
    | Some (l, r) => (l, Some r)
    | None => (opt, None)
    end in
  match long_has_args opt longopts with
  | Raise e => Raise e
  | Ok (true, opt) =>
      match optarg with
      | Some a => Ok ([("--" ++ opt, a)], args)
      | None =>
          match args with
          | [] => Raise (GetoptError "option requires argument" opt)
          | a :: args' => Ok ([("--" ++ opt, a)], args')
          end
      end
  | Ok (false, opt) =>
      match optarg with
      | Some _ => Raise (GetoptError "option must not have an argument" opt)
      | None => Ok ([("--" ++ opt, EmptyString)], args)
      end
  end.

(** The [while] loop of [getopt]; every turn removes at least one argument,
    so the number of arguments bounds the number of turns. *)
Fixpoint getopt_loop (turns : nat) (args : list string)
         (shortopts : string) (longopts : list string)
  : result (opts * list string) :=
  match args with
  | [] => Ok ([], [])
  | a0 :: rest =>
      if Py.startswith a0 "-" && negb (String.eqb a0 "-") then
        if String.eqb a0 "--" then Ok ([], rest)
        else
          match turns with
          | O => Ok ([], args)
          | S turns' =>
              let r := if Py.startswith a0 "--"
                       then do_longs (String.substring 2 (String.length a0) a0)
                                     longopts rest
                       else do_shorts (String.substring 1 (String.length a0) a0)
                                      shortopts rest in
              match r with
              | Raise e => Raise e
              | Ok (os, args') =>
                  match getopt_loop turns' args' shortopts longopts with
                  | Raise e => Raise e
                  | Ok (os', args'') => Ok ((os ++ os')%list, args'')
                  end
              end
          end
      else Ok ([], args)
  end.

Definition getopt (args : list string) (shortopts : string)
           (longopts : list string) : result (opts * list string) :=
  getopt_loop (List.length args) args shortopts longopts.

End Getopt.

(* ================================================================== *)
(** ** The operating system as the scripts see it *)

(** What the scripts write on their output: [print] and [logging]. *)
Inductive msg :=
| MsgWorkerId (id : string)
| MsgWorkingDir (p : string)
| MsgSearching (L : nat)
| MsgPattern (i : nat) (basepath pattern : string)
| MsgNotFolder (entry : string)
| MsgLockExists (subdir : string)
| MsgAcquired (subdir : string)
| MsgCouldNotLock (lockfile : string)
| MsgProgress (jobs : Z) (hours : Q)
| MsgProcessed (jobs : Z)
| MsgRanFor (hours : Q)
| MsgJobLimit (n : Z)
| MsgHourLimit (h : Py.pyfloat)
| MsgDone.

Inductive event :=
| Print (t : text)
| LogInfo (m : msg)
| LogWarn (m : msg).

Module OS.

(** An absolute path, as its components from the root. *)
Definition apath := list string.

Inductive node :=
| Dir
| File (content : string).

(** The file system: the entries in listing order.  Symbolic links and
    permissions are outside the model. *)
Definition FS := list (apath * node).

Fixpoint path_eqb (p q : apath) : bool :=
  match p, q with
  | [], [] => true
  | a :: p', b :: q' => String.eqb a b && path_eqb p' q'
  | _, _ => false
  end.

Fixpoint lookup (fs : FS) (p : apath) : option node :=
  match fs with
  | [] => None
  | (q, n) :: fs' => if path_eqb q p then Some n else lookup fs' p
  end.

(** The entry at [p], the root being a directory. *)
Definition kind (fs : FS) (p : apath) : option node :=
  match p with
  | [] => Some Dir
  | _ => lookup fs p
  end.

(** Bind [p] to [n]: in place when [p] is bound, at the end otherwise. *)
Fixpoint set (fs : FS) (p : apath) (n : node) : FS :=
  match fs with
  | [] => [(p, n)]
  | (q, m) :: fs' =>
      if path_eqb q p then (q, n) :: fs' else (q, m) :: set fs' p n
  end.

Definition parent (p : apath) : apath := removelast p.

(** Names of the entries right below [p]. *)
Fixpoint children (fs : FS) (p : apath) : list string :=
  match fs with
  | [] => []
  | (q, _) :: fs' =>
      match q with
      | [] => children fs' p
      | _ => if path_eqb (parent q) p
             then last q EmptyString :: children fs' p
             else children fs' p
      end
  end.

(** One component of a path string applied to the path reached so far. *)
Definition walk (acc : apath) (c : string) : apath :=
  if String.eqb c "" || String.eqb c "." then acc
  else if String.eqb c ".." then removelast acc
  else (acc ++ [c])%list.

(** The absolute path a path string names, read from [cwd] unless it starts
    with a slash ([.] and [..] are resolved on the string). *)
Definition resolve (cwd : apath) (s : string) : apath :=
  fold_left walk (Py.split "/" s)
            (if Py.startswith s "/" then [] else cwd).

(** [os.getcwd()] *)
Definition render (p : apath) : string := "/" ++ Py.join "/" p.

(** [os.path.join(a, b)] (posixpath) *)
Definition path_join (a b : string) : string :=
  if Py.startswith b "/" then b
  else if String.eqb a "" || Py.endswith_char a "/" then a ++ b
  else a ++ "/" ++ b.

(** The entry a path string names; the empty string names nothing. *)
Definition stat (fs : FS) (cwd : apath) (s : string) : option node :=
  if String.eqb s "" then None else kind fs (resolve cwd s).

Definition isdir (fs : FS) (cwd : apath) (s : string) : bool :=
  match stat fs cwd s with Some Dir => true | _ => false end.

Definition isfile (fs : FS) (cwd : apath) (s : string) : bool :=
  match stat fs cwd s with Some (File _) => true | _ => false end.

Definition lexists (fs : FS) (cwd : apath) (s : string) : bool :=
  match stat fs cwd s with Some _ => true | None => false end.

(** [os.listdir(s)] *)
Definition listdir (fs : FS) (cwd : apath) (s : string)
  : result (list string) :=
  match stat fs cwd s with
  | Some Dir => Ok (children fs (resolve cwd s))
  | Some (File _) => Raise NotADirectoryError
  | None => Raise FileNotFoundError
  end.

(** Why a file cannot be created at [p], if so: its parent must be a
    directory. *)
Definition parent_error (fs : FS) (p : apath) : option exn :=
  match kind fs (parent p) with
  | Some Dir => None
  | Some (File _) => Some NotADirectoryError
  | None => Some FileNotFoundError
  end.

(** [open(s, 'x')]: exclusive creation.  Fails when anything exists at the
    path; creates an empty file otherwise.  Returns the file opened. *)
Definition open_x (fs : FS) (cwd : apath) (s : string)
  : result (apath * FS) :=
  if String.eqb s "" then Raise FileNotFoundError
  else
    let p := resolve cwd s in
    match kind fs p with
    | Some _ => Raise FileExistsError
    | None =>
        match parent_error fs p with
        | Some e => Raise e
        | None => Ok (p, set fs p (File ""))
        end
    end.

(** [open(s, 'w')]: creation or truncation. *)
Definition open_w (fs : FS) (cwd : apath) (s : string)
  : result (apath * FS) :=
  if String.eqb s "" then Raise FileNotFoundError
  else
    let p := resolve cwd s in
    match kind fs p with
    | Some Dir => Raise IsADirectoryError
    | Some (File _) => Ok (p, set fs p (File ""))
    | None =>
        match parent_error fs p with
        | Some e => Raise e
        | None => Ok (p, set fs p (File ""))
        end
    end.

(** What an open file receives before it is closed. *)
Definition write (fs : FS) (p : apath) (content : string) : FS :=
  match lookup fs p with
  | Some (File old) => set fs p (File (old ++ content))
  | _ => fs
  end.

(** [os.chdir(s)]: the new working directory. *)
Definition chdir (fs : FS) (cwd : apath) (s : string) : result apath :=
  match stat fs cwd s with
  | Some Dir => Ok (resolve cwd s)
  | Some (File _) => Raise NotADirectoryError
  | None => Raise FileNotFoundError
  end.

End OS.

(** What [subprocess.call] does with a command: it cannot be launched (the
    exception [Popen] raises), or the child runs to its end and leaves an
    exit code and what it wrote on its two streams.  The job is opaque:
    nothing else it may do to the file system is modelled. *)
Inductive job_outcome :=
| LaunchError (e : exn)
| Exited (code : Z) (stdout stderr : string).

(** What the scripts use without defining it. *)
Record Platform := {
  (** [re.search(pattern, s)]: [None] for a pattern [re] rejects *)
  re_search : string -> string -> option bool;
  (** [fnmatch.fnmatch(name, pattern)] *)
  fnmatch : string -> string -> bool;
  (** [int(s)], [None] for [ValueError] *)
  py_int : string -> option Z;
  (** [float(s)], [None] for [ValueError] *)
  py_float : string -> option Py.pyfloat;
  (** the k-th reading of [datetime.now()], in microseconds *)
  clock : nat -> Z;
  (** the child process of [subprocess.call(cmd)] started in a directory *)
  run_job : list string -> OS.apath -> OS.FS -> job_outcome;
  (** the digest the script computes as its identity *)
  worker_id : string
}.

(** The state of a running script: the operating system's part and the
    script's own global variables of the main loop. *)
Record State := {
  fs : OS.FS;
  cwd : OS.apath;
  out : list event;
  reads : nat;
  keep_looping : bool;
  processed_jobs : Z;
  elapsed_hours : Q
}.

Definition with_fs (f : OS.FS) (s : State) : State :=
  {| fs := f; cwd := cwd s; out := out s; reads := reads s;
     keep_looping := keep_looping s; processed_jobs := processed_jobs s;
     elapsed_hours := elapsed_hours s |}.
Definition with_cwd (c : OS.apath) (s : State) : State :=
  {| fs := fs s; cwd := c; out := out s; reads := reads s;
     keep_looping := keep_looping s; processed_jobs := processed_jobs s;
     elapsed_hours := elapsed_hours s |}.
Definition with_out (o : list event) (s : State) : State :=
  {| fs := fs s; cwd := cwd s; out := o; reads := reads s;
     keep_looping := keep_looping s; processed_jobs := processed_jobs s;
     elapsed_hours := elapsed_hours s |}.
Definition with_reads (n : nat) (s : State) : State :=
  {| fs := fs s; cwd := cwd s; out := out s; reads := n;
     keep_looping := keep_looping s; processed_jobs := processed_jobs s;
     elapsed_hours := elapsed_hours s |}.
Definition with_keep_looping (b : bool) (s : State) : State :=
  {| fs := fs s; cwd := cwd s; out := out s; reads := reads s;
     keep_looping := b; processed_jobs := processed_jobs s;
     elapsed_hours := elapsed_hours s |}.
Definition with_processed_jobs (n : Z) (s : State) : State :=
  {| fs := fs s; cwd := cwd s; out := out s; reads := reads s;
     keep_looping := keep_looping s; processed_jobs := n;
     elapsed_hours := elapsed_hours s |}.
Definition with_elapsed_hours (h : Q) (s : State) : State :=
  {| fs := fs s; cwd := cwd s; out := out s; reads := reads s;
     keep_looping := keep_looping s; processed_jobs := processed_jobs s;
     elapsed_hours := h |}.

(** The world a script starts in. *)
Definition boot (f : OS.FS) (c : OS.apath) : State :=
  {| fs := f; cwd := c; out := []; reads := O;
     keep_looping := false; processed_jobs := 0; elapsed_hours := 0%Q |}.

(* ================================================================== *)
(** ** The script monad: state and exceptions *)

Definition M (A : Type) : Type := State -> result A * State.

Definition ret {A} (a : A) : M A := fun s => (Ok a, s).

Definition bind {A B} (c : M A) (k : A -> M B) : M B :=
  fun s => match c s with
           | (Ok a, s') => k a s'
           | (Raise e, s') => (Raise e, s')
           end.

Definition raise {A} (e : exn) : M A := fun s => (Raise e, s).
Definition get : M State := fun s => (Ok s, s).
Definition modify (f : State -> State) : M unit := fun s => (Ok tt, f s).

Notation "x <- c ;; k" := (bind c (fun x => k))
  (at level 61, c at next level, right associativity).
Notation "c ;; k" := (bind c (fun _ => k))
  (at level 61, right associativity).

(** [try: body / except FileExistsError: handler] *)
Definition except_FileExistsError {A} (body handler : M A) : M A :=
  fun s => match body s with
           | (Raise FileExistsError, s') => handler s'
           | r => r
           end.

(** [try: body / finally: fin] *)
Definition finally {A} (body : M A) (fin : M unit) : M A :=
  fun s => let (r, s') := body s in
           match fin s' with
           | (Ok _, s'') => (r, s'')
           | (Raise e, s'') => (Raise e, s'')
           end.

(** [for x in l: body], with [break]; [continue] is [ret Next]. *)
Inductive flow := Next | Break.

Fixpoint for_each {A} (l : list A) (body : A -> M flow) : M unit :=
  match l with
  | [] => ret tt
  | x :: l' =>
      f <- body x ;;
      match f with
      | Next => for_each l' body
      | Break => ret tt
      end
  end.

Definition emit (e : event) : M unit :=
  modify (fun s => with_out (out s ++ [e]) s).
Definition print (t : text) : M unit := emit (Print t).
Definition info (m : msg) : M unit := emit (LogInfo m).
Definition warn (m : msg) : M unit := emit (LogWarn m).

(** [sys.exit()], [exit(n)] *)
Definition sys_exit {A} : M A := raise (SystemExit ExitNone).
Definition exit {A} (n : Z) : M A := raise (SystemExit (ExitCode n)).

(** [datetime.now()] *)
Definition now (P : Platform) : M Z :=
  fun s => (Ok (clock P (reads s)), with_reads (S (reads s)) s).

(** [(t - start).total_seconds() / 60**2] *)
Definition hours_between (start t : Z) : Q := Qmake (t - start) 3600000000.

Definition getcwd : M string := fun s => (Ok (OS.render (cwd s)), s).

Definition chdir (path : string) : M unit :=
  fun s => match OS.chdir (fs s) (cwd s) path with
           | Ok c => (Ok tt, with_cwd c s)
           | Raise e => (Raise e, s)
           end.

Definition open_x (path : string) : M OS.apath :=
  fun s => match OS.open_x (fs s) (cwd s) path with
           | Ok (p, f) => (Ok p, with_fs f s)
           | Raise e => (Raise e, s)
           end.

Definition open_w (path : string) : M OS.apath :=
  fun s => match OS.open_w (fs s) (cwd s) path with
           | Ok (p, f) => (Ok p, with_fs f s)
           | Raise e => (Raise e, s)
           end.

Definition write (f : OS.apath) (content : string) : M unit :=
  modify (fun s => with_fs (OS.write (fs s) f content) s).

Definition listdir (path : string) : M (list string) :=
  fun s => (OS.listdir (fs s) (cwd s) path, s).

Definition isdir (path : string) : M bool :=
  fun s => (Ok (OS.isdir (fs s) (cwd s) path), s).

Definition isfile (path : string) : M bool :=
  fun s => (Ok (OS.isfile (fs s) (cwd s) path), s).

(** [subprocess.call(cmd, stdout = g, stderr = h)] *)
Definition subprocess_call (P : Platform) (cmd : list string)
           (g h : OS.apath) : M Z :=
  fun s => match run_job P cmd (cwd s) (fs s) with
           | LaunchError e => (Raise e, s)
           | Exited code o e =>
               (Ok code, with_fs (OS.write (OS.write (fs s) g o) h e) s)
           end.

(* ================================================================== *)
(** ** [glob.glob], after CPython's [Lib/glob.py] (not recursive) *)

Module Glob.

Definition has_magic (s : string) : bool :=
  negb (Py.free_of "*" s && Py.free_of "?" s && Py.free_of "[" s).

Definition ishidden (s : string) : bool := Py.startswith s ".".

Fixpoint split_raw (s : string) : string * string :=
  match s with
  | EmptyString => (EmptyString, EmptyString)
  | String c s' =>
      if Py.free_of "/" s' then
        if Ascii.eqb c "/" then (String c EmptyString, s')
        else (EmptyString, s)
      else let (h, t) := split_raw s' in (String c h, t)
  end.

Fixpoint rstrip_slash (s : string) : string :=
  match s with
  | EmptyString => EmptyString
  | String c s' =>
      match rstrip_slash s' with
      | EmptyString =>
          if Ascii.eqb c "/" then EmptyString else String c EmptyString
      | r => String c r
      end
  end.

(** [os.path.split(s)] *)
Definition path_split (s : string) : string * string :=
  let (h, t) := split_raw s in
  if String.eqb (rstrip_slash h) "" then (h, t) else (rstrip_slash h, t).

Section Walk.
Variable P : Platform.
Variable f : OS.FS.
Variable c : OS.apath.

(** [_iterdir(dirname, dironly)]: an [OSError] gives no names. *)
Definition iterdir (dirname : string) (dironly : bool) : list string :=
  let d := if String.eqb dirname "" then "." else dirname in
  match OS.listdir f c d with
  | Ok names =>
      if dironly
      then filter (fun n => OS.isdir f c (OS.path_join d n)) names
      else names
  | Raise _ => []
  end.

(** [_glob1(dirname, pattern, dironly)] *)
Definition glob1 (dirname pattern : string) (dironly : bool) : list string :=
  let names := iterdir dirname dironly in
  let names := if ishidden pattern then names
               else filter (fun x => negb (ishidden x)) names in
  filter (fun n => fnmatch P n pattern) names.

(** [_glob0(dirname, basename, dironly)] *)
Definition glob0 (dirname basename : string) (dironly : bool) : list string :=
  if String.eqb basename "" then
    if OS.isdir f c dirname then [basename] else []
  else
    if OS.lexists f c (OS.path_join dirname basename) then [basename] else [].

(** [_iglob(pathname, recursive = False, dironly)]; the recursion is on the
    directory part, which is shorter than the path. *)
Fixpoint iglob (depth : nat) (pathname : string) (dironly : bool)
  : list string :=
  let (dirname, basename) := path_split pathname in
  if negb (has_magic pathname) then
    if negb (String.eqb basename "") then
      if OS.lexists f c pathname then [pathname] else []
    else
      if OS.isdir f c dirname then [pathname] else []
  else if String.eqb dirname "" then glob1 dirname basename dironly
  else
    let dirs :=
      if negb (String.eqb dirname pathname) && has_magic dirname then
        match depth with
        | O => []
        | S depth' => iglob depth' dirname true
        end
      else [dirname] in
    let glob_in_dir := if has_magic basename then glob1 else glob0 in
    flat_map (fun d => map (OS.path_join d) (glob_in_dir d basename dironly))
             dirs.

Definition glob (pathname : string) : list string :=
  iglob (String.length pathname) pathname false.

End Walk.
End Glob.

(** [glob.glob(pattern)] on the current file system *)
Definition glob (P : Platform) (pattern : string) : M (list string) :=
  fun s => (Ok (Glob.glob P (fs s) (cwd s) pattern), s).

Fixpoint fold_m {A B} (f : B -> A -> M B) (l : list A) (b : B) : M B :=
  match l with
  | [] => ret b
  | x :: l' => b' <- f b x ;; fold_m f l' b'
  end.

(** [if c: body] for a body that only has effects *)
Definition when (c : bool) (body : M unit) : M unit :=
  if c then body else ret tt.

Definition newline : string := String (ascii_of_nat 10) EmptyString.

(* ================================================================== *)
(** ** [src/src/worker.py], version 0.3.0 *)

Module V3.

(** The variables set while the command line is read (lines 64-68). *)
Record Config := {
  patterns : list string;
  cmd : list string;
  max_jobs : Z;
  max_hours : Py.pyfloat;
  label : string
}.

Definition defaults : Config :=
  {| patterns := []; cmd := []; max_jobs := Py.maxsize;
     max_hours := Py.PosInf; label := "worker" |}.

Definition longopts : list string :=
  ["version"; "help"; "pattern="; "cmd="; "maxjobs="; "maxhours="; "label="].

Definition shortopts : string := "vh:p:c:".

(** The body of [for o, a in options] (lines 76-97): a sequence of [if]s. *)
Definition handle_option (P : Platform) (cfg : Config) (oa : string * string)
  : M Config :=
  let (o, a) := oa in
  when (Py.in_tuple o ["-v"; "--version"]) (print VERSION ;; sys_exit) ;;
  when (Py.in_tuple o ["-h"; "--help"])
       (print VERSION ;; print USAGE ;; sys_exit) ;;
  let cfg :=
    if Py.in_tuple o ["-p"; "--pattern"]
    then {| patterns := patterns cfg ++ [a]; cmd := cmd cfg;
            max_jobs := max_jobs cfg; max_hours := max_hours cfg;
            label := label cfg |}
    else cfg in
  let cfg :=
    if Py.in_tuple o ["-c"; "--cmd"]
    then {| patterns := patterns cfg;
            cmd := fold_left (fun c tok => (c ++ [tok])%list) (Py.split " " a)
                             (cmd cfg);
            max_jobs := max_jobs cfg; max_hours := max_hours cfg;
            label := label cfg |}
    else cfg in
  cfg <- (if Py.contains "--maxjobs" o then
            match py_int P a with
            | Some n => ret {| patterns := patterns cfg; cmd := cmd cfg;
                               max_jobs := n; max_hours := max_hours cfg;
                               label := label cfg |}
            | None => raise ValueError
            end
          else ret cfg) ;;
  cfg <- (if Py.contains "--maxhours" o then
            match py_float P a with
            | Some h => ret {| patterns := patterns cfg; cmd := cmd cfg;
                               max_jobs := max_jobs cfg; max_hours := h;
                               label := label cfg |}
            | None => raise ValueError
            end
          else ret cfg) ;;
  ret (if Py.contains "--label" o
       then {| patterns := patterns cfg; cmd := cmd cfg;
               max_jobs := max_jobs cfg; max_hours := max_hours cfg;
               label := a |}
       else cfg).

(** Lines 70-107: the command line is read before anything else happens. *)
Definition parse (P : Platform) (argv : list string) : M Config :=
  match Getopt.getopt argv shortopts longopts with
  | Raise e => raise e
  | Ok (options, arguments) =>
      cfg <- fold_m (handle_option P) options defaults ;;
      when (negb (forallb (fun arg => match py_int P arg with
                                      | Some _ => true
                                      | None => false
                                      end) arguments))
           (raise (SystemExit (ExitText USAGE))) ;;
      when (Nat.eqb (List.length (patterns cfg)) 0)
           (print (Line "Must provide at least one pattern. Use -h for help") ;;
            exit 1) ;;
      when (Nat.eqb (List.length (cmd cfg)) 0)
           (print (Line "Must provide a command. Use -h for help") ;;
            exit 1) ;;
      ret cfg
  end.

Section Loop.
Variable P : Platform.
Variable cfg : Config.
(** [start_time] (line 111) and [cwd] (line 129) *)
Variable start_time : Z.
Variable home : string.

(** Lines 172-178: the claim, by exclusive creation of the lock file. *)
Definition acquire (lockfile : string) : M bool :=
  except_FileExistsError
    (f <- open_x lockfile ;;
     write f ("Reserved by worker: " ++ worker_id P ++ newline) ;;
     ret true)
    (warn (MsgCouldNotLock lockfile) ;; ret false).

(** Lines 181-194: the job, run by the worker that holds the lock. *)
Definition run_claimed (subdir : string) : M unit :=
  info (MsgAcquired subdir) ;;
  chdir subdir ;;
  g <- open_w (label cfg ++ ".out") ;;
  h <- open_w (label cfg ++ ".err") ;;
  subprocess_call P (cmd cfg) g h ;;
  modify (fun s => with_processed_jobs (processed_jobs s + 1) s) ;;
  chdir home.

(** Lines 196-206: the limits, checked after a claim was attempted. *)
Definition evaluate : M flow :=
  t <- now P ;;
  modify (with_elapsed_hours (hours_between start_time t)) ;;
  s <- get ;;
  info (MsgProgress (processed_jobs s) (elapsed_hours s)) ;;
  if processed_jobs s >=? max_jobs cfg then
    info (MsgJobLimit (max_jobs cfg)) ;; exit 0
  else if Py.ge_float (elapsed_hours s) (max_hours cfg) then
    info (MsgHourLimit (max_hours cfg)) ;; exit 0
  else ret Next.

(** The body of [for entry in glob.glob(pattern)] (lines 151-206). *)
Definition candidate (entry : string) : M flow :=
  d <- isdir entry ;;
  if negb d then info (MsgNotFolder entry) ;; ret Next
  else
    let subdir := entry in
    let lockfile := subdir ++ "/" ++ label cfg ++ ".lock" in
    l <- isfile lockfile ;;
    if l then info (MsgLockExists subdir) ;; ret Next
    else
      modify (with_keep_looping true) ;;
      acquired_lock <- acquire lockfile ;;
      when acquired_lock (run_claimed subdir) ;;
      evaluate.

(** Lines 146-150: the entries of one pattern, found afresh. *)
Definition scan (i : nat) : M (list string) :=
  let pattern := nth i (patterns cfg) EmptyString in
  info (MsgPattern i EmptyString pattern) ;;
  glob P pattern.

(** The body of [for i in range(L)] (lines 146-206). *)
Definition search (i : nat) : M flow :=
  entries <- scan i ;;
  for_each entries candidate ;;
  ret Next.

(** Lines 142-143: how a pass starts. *)
Definition begin_pass : M unit :=
  modify (with_keep_looping false) ;;
  info (MsgSearching (List.length (patterns cfg))).

(** One turn of [while keep_looping] (lines 142-206). *)
Definition pass : M unit :=
  begin_pass ;;
  for_each (seq 0 (List.length (patterns cfg))) search.

(** What the script does with a lock file it has just created, to the end
    of the claim and of the job (lines 175-194). *)
Definition held (subdir : string) (f : OS.apath) : M unit :=
  write f ("Reserved by worker: " ++ worker_id P ++ newline) ;;
  run_claimed subdir.

(** The lock file of a directory (line 158). *)
Definition lock_of (subdir : string) : string :=
  subdir ++ "/" ++ label cfg ++ ".lock".

(** An entry the script takes for a job directory without a lock. *)
Definition unlocked (t : State) (entry : string) : bool :=
  OS.isdir (fs t) (cwd t) entry &&
  negb (OS.isfile (fs t) (cwd t) (lock_of entry)).

(** An entry the script takes for a job directory with a lock. *)
Definition locked (t : State) (entry : string) : bool :=
  OS.isdir (fs t) (cwd t) entry &&
  OS.isfile (fs t) (cwd t) (lock_of entry).

(** [while keep_looping], for at most [n] passes; [None] when [n] passes
    have not ended the loop. *)
Fixpoint main_loop (n : nat) (s : State) : option (result unit * State) :=
  if keep_looping s then
    match n with
    | O => None
    | S n' =>
        match pass s with
        | (Ok _, s') => main_loop n' s'
        | (Raise e, s') => Some (Raise e, s')
        end
    end
  else Some (Ok tt, s).

End Loop.

(** Lines 110-135: what happens between the command line and the loop. *)
Definition setup (P : Platform) (argv : list string)
  : M (Config * Z * string) :=
  cfg <- parse P argv ;;
  start_time <- now P ;;
  modify (with_elapsed_hours 0%Q) ;;
  info (MsgWorkerId (worker_id P)) ;;
  home <- getcwd ;;
  info (MsgWorkingDir home) ;;
  modify (with_keep_looping true) ;;
  modify (with_processed_jobs 0) ;;
  ret (cfg, start_time, home).

(** The whole script, with at most [n] passes of the main loop. *)
Definition main (P : Platform) (argv : list string) (n : nat) (s : State)
  : option (result unit * State) :=
  match setup P argv s with
  | (Raise e, s') => Some (Raise e, s')
  | (Ok (cfg, start_time, home), s') =>
      match main_loop P cfg start_time home n s' with
      | None => None
      | Some (Raise e, s'') => Some (Raise e, s'')
      | Some (Ok _, s'') => Some (info MsgDone s'')
      end
  end.

End V3.

(* ================================================================== *)
(** ** [src/worker.py], version 0.1 *)

Module V1.

(** The module's variables of lines 42-46.  [max_jobs] and [max_hours] are
    assigned nowhere else in the script. *)
Record Config := {
  basepaths : list string;
  patterns : list string;
  cmd : list string;
  max_jobs : Z;
  max_hours : Z
}.

Definition defaults : Config :=
  {| basepaths := []; patterns := []; cmd := [];
     max_jobs := Py.maxsize; max_hours := Py.maxsize |}.

(** The local variables [maxjobs] and [maxhours] of [parse()]. *)
Record Locals := {
  maxjobs : option string;
  maxhours : option string
}.

Definition longopts : list string :=
  ["version"; "help"; "basepath="; "pattern="; "cmd="; "maxjobs=";
   "maxhours="].

Definition shortopts : string := "vhb:p:c:".

(** The body of [for o, a in options] (lines 55-75). *)
Definition handle_option (st : Config * Locals) (oa : string * string)
  : M (Config * Locals) :=
  let (cfg, loc) := st in
  let (o, a) := oa in
  when (Py.in_tuple o ["-v"; "--version"]) (print VERSION ;; sys_exit) ;;
  when (Py.in_tuple o ["-h"; "--help"]) (print USAGE ;; sys_exit) ;;
  let cfg :=
    if Py.in_tuple o ["-b"; "--basepath"]
    then {| basepaths := basepaths cfg ++ [a]; patterns := patterns cfg;
            cmd := cmd cfg; max_jobs := max_jobs cfg;
            max_hours := max_hours cfg |}
    else cfg in
  let cfg :=
    if Py.in_tuple o ["-p"; "--pattern"]
    then {| basepaths := basepaths cfg; patterns := patterns cfg ++ [a];
            cmd := cmd cfg; max_jobs := max_jobs cfg;
            max_hours := max_hours cfg |}
    else cfg in
  let cfg :=
    if Py.in_tuple o ["-c"; "--cmd"]
    then {| basepaths := basepaths cfg; patterns := patterns cfg;
            cmd := fold_left (fun c tok => (c ++ [tok])%list)
                             (Py.split " " a) (cmd cfg);
            max_jobs := max_jobs cfg; max_hours := max_hours cfg |}
    else cfg in
  let loc :=
    if Py.contains "--maxjobs" o
    then {| maxjobs := Some a; maxhours := maxhours loc |}
    else loc in
  let loc :=
    if Py.contains "--maxhours" o
    then {| maxjobs := maxjobs loc; maxhours := Some a |}
    else loc in
  ret (cfg, loc).

(** [parse()] (lines 48-85); its locals end with it. *)
Definition parse (P : Platform) (argv : list string) : M Config :=
  match Getopt.getopt argv shortopts longopts with
  | Raise e => raise e
  | Ok (options, arguments) =>
      st <- fold_m handle_option options
                   (defaults, {| maxjobs := None; maxhours := None |}) ;;
      let cfg := fst st in
      when (negb (forallb (fun arg => match py_int P arg with
                                      | Some _ => true
                                      | None => false
                                      end) arguments))
           (raise (SystemExit (ExitText USAGE))) ;;
      when (Nat.eqb (List.length (basepaths cfg)) 0)
           (raise (RuntimeError "Must provide at least one basepath")) ;;
      when (Nat.eqb (List.length (patterns cfg)) 0)
           (raise (RuntimeError "Must provide at least one pattern")) ;;
      when (Nat.eqb (List.length (cmd cfg)) 0)
           (raise (RuntimeError "Must provide a command")) ;;
      ret cfg
  end.

Section Loop.
Variable P : Platform.
Variable cfg : Config.
(** [start_time] (line 91) and [homepath] (line 108) *)
Variable start_time : Z.
Variable homepath : string.

(** Lines 161-172: what runs while the lock file is open. *)
Definition job (basepath subdir : string) : M unit :=
  info (MsgAcquired subdir) ;;
  let path := OS.path_join basepath subdir in
  chdir path ;;
  let stdout := OS.path_join path "worker.out" in
  let stderr := OS.path_join path "worker.err" in
  g <- open_w stdout ;;
  h <- open_w stderr ;;
  subprocess_call P (cmd cfg) g h ;;
  modify (fun s => with_processed_jobs (processed_jobs s + 1) s).

(** Lines 156-177: the claim and the job in one [try] statement. *)
Definition claim_and_run (basepath subdir lockfile : string) : M unit :=
  finally
    (except_FileExistsError
       (f <- open_x lockfile ;;
        finally (job basepath subdir)
                (write f ("Reserved by worker: " ++ worker_id P)))
       (warn (MsgCouldNotLock lockfile)))
    (chdir homepath).

(** Lines 179-189: the limits, checked after a claim was attempted. *)
Definition evaluate : M flow :=
  t <- now P ;;
  modify (with_elapsed_hours (hours_between start_time t)) ;;
  s <- get ;;
  info (MsgProcessed (processed_jobs s)) ;;
  info (MsgRanFor (elapsed_hours s)) ;;
  if processed_jobs s >=? max_jobs cfg then
    info (MsgJobLimit (max_jobs cfg)) ;; ret Break
  else if Qle_bool (inject_Z (max_hours cfg)) (elapsed_hours s) then
    info (MsgHourLimit (Py.Fin (inject_Z (max_hours cfg)))) ;; ret Break
  else ret Next.

(** The body of [for subdir in os.listdir(basepath)] (lines 134-189). *)
Definition candidate (basepath pattern subdir : string) : M flow :=
  d <- isdir subdir ;;
  if negb d then ret Next
  else
    match re_search P pattern subdir with
    | None => raise ReError
    | Some false => ret Next
    | Some true =>
        let lockfile :=
          OS.path_join basepath (subdir ++ "/" ++ "worker.lock") in
        l <- isfile lockfile ;;
        if l then info (MsgLockExists subdir) ;; ret Next
        else
          modify (with_keep_looping true) ;;
          claim_and_run basepath subdir lockfile ;;
          evaluate
    end.

(** Lines 128-133: the names in one base path, listed afresh. *)
Definition scan (i : nat) : M (string * string * list string) :=
  let basepath := nth i (basepaths cfg) EmptyString in
  let pattern := nth i (patterns cfg) EmptyString in
  info (MsgPattern i basepath pattern) ;;
  entries <- listdir basepath ;;
  ret (basepath, pattern, entries).

(** The body of [for i in range(L)] (lines 128-189). *)
Definition search (i : nat) : M flow :=
  bpe <- scan i ;;
  let '(basepath, pattern, entries) := bpe in
  for_each entries (candidate basepath pattern) ;;
  ret Next.

(** Lines 124-125: how a pass starts. *)
Definition begin_pass : M unit :=
  modify (with_keep_looping false) ;;
  info (MsgSearching (List.length (basepaths cfg))).

(** One turn of [while keep_looping] (lines 124-189). *)
Definition pass : M unit :=
  begin_pass ;;
  for_each (seq 0 (List.length (basepaths cfg))) search.

(** What the script does with a lock file it has just created, to the end
    of the [try] statement (lines 158-177). *)
Definition held (basepath subdir lockfile : string) (f : OS.apath) : M unit :=
  finally
    (except_FileExistsError
       (finally (job basepath subdir)
                (write f ("Reserved by worker: " ++ worker_id P)))
       (warn (MsgCouldNotLock lockfile)))
    (chdir homepath).

(** The lock file of a name found in a base path (line 144). *)
Definition lock_of (basepath subdir : string) : string :=
  OS.path_join basepath (subdir ++ "/" ++ "worker.lock").

(** A name the script takes for a job directory without a lock. *)
Definition unlocked (t : State) (basepath pattern subdir : string) : bool :=
  OS.isdir (fs t) (cwd t) subdir &&
  match re_search P pattern subdir with Some true => true | _ => false end &&
  negb (OS.isfile (fs t) (cwd t) (lock_of basepath subdir)).

(** A name the script takes for a job directory with a lock. *)
Definition locked (t : State) (basepath pattern subdir : string) : bool :=
  OS.isdir (fs t) (cwd t) subdir &&
  match re_search P pattern subdir with Some true => true | _ => false end &&
  OS.isfile (fs t) (cwd t) (lock_of basepath subdir).

(** [while keep_looping], for at most [n] passes. *)
Fixpoint main_loop (n : nat) (s : State) : option (result unit * State) :=
  if keep_looping s then
    match n with
    | O => None
    | S n' =>
        match pass s with
        | (Ok _, s') => main_loop n' s'
        | (Raise e, s') => Some (Raise e, s')
        end
    end
  else Some (Ok tt, s).

End Loop.

(** Lines 87-118. *)
Definition setup (P : Platform) (argv : list string)
  : M (Config * Z * string) :=
  cfg <- parse P argv ;;
  start_time <- now P ;;
  modify (with_elapsed_hours 0%Q) ;;
  info (MsgWorkerId (worker_id P)) ;;
  homepath <- getcwd ;;
  info (MsgWorkingDir homepath) ;;
  when (negb (Nat.eqb (List.length (basepaths cfg))
                      (List.length (patterns cfg))))
       (raise (RuntimeError
                 "Length of basepaths is not equal to length of patterns")) ;;
  modify (with_keep_looping true) ;;
  modify (with_processed_jobs 0) ;;
  ret (cfg, start_time, homepath).

(** The whole script, with at most [n] passes of the main loop. *)
Definition main (P : Platform) (argv : list string) (n : nat) (s : State)
  : option (result unit * State) :=
  match setup P argv s with
  | (Raise e, s') => Some (Raise e, s')
  | (Ok (cfg, start_time, homepath), s') =>
      match main_loop P cfg start_time homepath n s' with
      | None => None
      | Some (Raise e, s'') => Some (Raise e, s'')
      | Some (Ok _, s'') => Some (info MsgDone s'')
      end
  end.

End V1.

(* ================================================================== *)
(** ** A reference platform for closed examples *)

Module Ref.

(** [fnmatch] for patterns made of literal characters, [*] and [?]. *)
Fixpoint wild (pat name : string) : bool :=
  match pat with
  | EmptyString => String.eqb name EmptyString
  | String c pat' =>
      if Ascii.eqb c "*" then
        (fix star (n : string) : bool :=
           wild pat' n ||
           match n with
           | EmptyString => false
           | String _ n' => star n'
           end) name
      else
        match name with
        | EmptyString => false
        | String d name' =>
            (Ascii.eqb c "?" || Ascii.eqb c d) && wild pat' name'
        end
  end.

Definition digit (c : ascii) : option Z :=
  let n := Z.of_nat (nat_of_ascii c) in
  if (48 <=? n) && (n <=? 57) then Some (n - 48) else None.

Fixpoint digits (s : string) (acc : Z) : option Z :=
  match s with
  | EmptyString => Some acc
  | String c s' =>
      match digit c with
      | Some d => digits s' (10 * acc + d)
      | None => None
      end
  end.

(** [int] on plain decimal numerals with an optional sign. *)
Definition int (s : string) : option Z :=
  match s with
  | EmptyString => None
  | String c s' =>
      if Ascii.eqb c "-" then
        match s' with
        | EmptyString => None
        | _ => option_map Z.opp (digits s' 0)
        end
      else if Ascii.eqb c "+" then
        match s' with
        | EmptyString => None
        | _ => digits s' 0
        end
      else digits s 0
  end.

(** [float] on [inf] and on what [int] reads. *)
Definition float (s : string) : option Py.pyfloat :=
  if String.eqb s "inf" then Some Py.PosInf
  else option_map (fun n => Py.Fin (inject_Z n)) (int s).

(** The commands that can be launched: [true], [false] and [echo]. *)
Definition job (cmd : list string) (_ : OS.apath) (_ : OS.FS) : job_outcome :=
  match cmd with
  | "true" :: _ => Exited 0 "" ""
  | "false" :: _ => Exited 1 "" ""
  | "echo" :: args => Exited 0 (Py.join " " args ++ newline) ""
  | _ => LaunchError FileNotFoundError
  end.

(** Regular expressions without special characters search for a substring;
    one minute passes between two readings of the clock. *)
Definition platform : Platform :=
  {| re_search := fun pattern s => Some (Py.contains s pattern);
     fnmatch := fun name pat => wild pat name;
     py_int := int;
     py_float := float;
     clock := fun k => Z.of_nat k * 60000000;
     run_job := job;
     worker_id := "c0ffee" |}.

End Ref.

(* ================================================================== *)
(** ** Summaries of effects *)

(** Nothing that exists in [f] is missing in [f']. *)
Definition grows (f f' : OS.FS) : Prop :=
  forall p, OS.kind f p <> None -> OS.kind f' p <> None.

(** Every run of [c] relates the state before to the state after. *)
Definition post {A} (R : State -> State -> Prop) (c : M A) : Prop :=
  forall s r s', c s = (r, s') -> R s s'.

(** Nothing is removed and [keep_looping] is not reset. *)
Definition tame (s s' : State) : Prop :=
  grows (fs s) (fs s') /\ (keep_looping s = true -> keep_looping s' = true).

(** Nothing is removed and no job is counted. *)
Definition still (s s' : State) : Prop :=
  grows (fs s) (fs s') /\ processed_jobs s' = processed_jobs s.

(** If [keep_looping] is false afterwards, it was false before and the
    file system is what it was. *)
Definition idle (s s' : State) : Prop :=
  keep_looping s' = false -> keep_looping s = false /\ fs s' = fs s.

(** The errors of the system calls of the job part. *)
Definition os_error (e : exn) : Prop :=
  e = FileNotFoundError \/ e = NotADirectoryError \/
  e = IsADirectoryError \/ e = PermissionError.

(** [c] raises nothing but errors of the system. *)
Definition raises_os {A} (c : M A) : Prop :=
  forall s e s', c s = (Raise e, s') -> os_error e.


(* ================================================================== *)
(** ** What a pass observes *)

(** [visits body l s x t]: the loop [for x in l: body], started in state
    [s], reaches the element [x] of [l] in state [t]. *)
Inductive visits {A} (body : A -> M flow)
  : list A -> State -> A -> State -> Prop :=
| visits_here x l s : visits body (x :: l) s x s
| visits_later x l s s' y t :
    body x s = (Ok Next, s') ->
    visits body l s' y t ->
    visits body (x :: l) s y t.

Module Observe.

(** A pass of version 0.3.0 started in [s] comes to an entry that it takes
    for a job directory without a lock. *)
Definition v3 (P : Platform) (cfg : V3.Config) (start_time : Z)
           (home : string) (s : State) : Prop :=
  exists s1 i t0 entries t1 e t,
    V3.begin_pass cfg s = (Ok tt, s1) /\
    visits (V3.search P cfg start_time home)
           (seq 0 (List.length (V3.patterns cfg))) s1 i t0 /\
    V3.scan P cfg i t0 = (Ok entries, t1) /\
    visits (V3.candidate P cfg start_time home) entries t1 e t /\
    V3.unlocked cfg t e = true.

(** The same for version 0.1. *)
Definition v1 (P : Platform) (cfg : V1.Config) (start_time : Z)
           (homepath : string) (s : State) : Prop :=
  exists s1 i t0 basepath pattern entries t1 e t,
    V1.begin_pass cfg s = (Ok tt, s1) /\
    visits (V1.search P cfg start_time homepath)
           (seq 0 (List.length (V1.basepaths cfg))) s1 i t0 /\
    V1.scan cfg i t0 = (Ok (basepath, pattern, entries), t1) /\
    visits (V1.candidate P cfg start_time homepath basepath pattern)
           entries t1 e t /\
    V1.unlocked P t basepath pattern e = true.

End Observe.

(* ================================================================== *)
(** ** Several workers on one job directory

    Workers are processes of their own; they share the file system and
    nothing else.  Between two system calls of one worker the others may
    run.  A worker that has come to a job directory is at one of the places
    of [pc]; a schedule says whose turn it is. *)

Module Race.

Inductive pc :=
| Checking                  (** before [os.path.isfile(lockfile)] *)
| Claiming                  (** before [open(lockfile, 'x')] *)
| Holding (f : OS.apath)    (** the lock file is open: the claim succeeded *)
| Ran (r : result unit)     (** the job part is over *)
| Skipped                   (** the check found the lock file *)
| Lost                      (** [FileExistsError]: could not lock *)
| Failed (e : exn).         (** [open] raised another error *)

Record worker := {
  (** the process's own state; its [fs] is replaced by the shared one *)
  own : State;
  lockfile : string;
  (** what the script does once [open(lockfile, 'x')] has succeeded *)
  held : OS.apath -> M unit;
  at_ : pc
}.






(** The claim attempt succeeded. *)
Definition won (w : worker) : bool :=
  match at_ w with Holding _ | Ran _ => true | _ => false end.



Definition count (f : worker -> bool) (ws : list worker) : nat :=
  List.length (filter f ws).




(** The worker's lock file is the file at [lock]. *)
Definition names (lock : OS.apath) (w : worker) : Prop :=
  lockfile w <> EmptyString /\
  OS.resolve (cwd (own w)) (lockfile w) = lock.





End Race.

(* ================================================================== *)
(** ** Worlds and command lines for closed examples *)

Module Example.

(** The command of a job is made of these pieces of a [-c] option. *)
Definition cmd_tokens (oa : string * string) : list string :=
  let (o, a) := oa in
  if Py.in_tuple o ["-c"; "--cmd"] then Py.split " " a else [].

(** An argument of a command that holds no space. *)
Definition no_space (t : string) : Prop := Py.free_of " " t = true.

(** A working directory [/w] with five job directories and a file. *)
Definition five_jobs : OS.FS :=
  [ (["w"], OS.Dir);
    (["w"; "job1"], OS.Dir); (["w"; "job2"], OS.Dir);
    (["w"; "job3"], OS.Dir); (["w"; "job4"], OS.Dir);
    (["w"; "job5"], OS.Dir); (["w"; "notes"], OS.File "to do") ].

(** Job directories in [/data], the worker started in [/w]. *)
Definition elsewhere : OS.FS :=
  [ (["w"], OS.Dir); (["data"], OS.Dir);
    (["data"; "job1"], OS.Dir); (["data"; "job2"], OS.Dir) ].

(** One job directory. *)
Definition one_job : OS.FS :=
  [ (["w"], OS.Dir); (["w"; "job1"], OS.Dir) ].

(** A file [/data/job1] and a directory of the same name in [/w]. *)
Definition shadow : OS.FS :=
  [ (["w"], OS.Dir); (["data"], OS.Dir); (["w"; "job1"], OS.Dir);
    (["data"; "job1"], OS.File "not a directory") ].

(** A job directory in which the output file cannot be opened. *)
Definition blocked : OS.FS :=
  [ (["w"], OS.Dir); (["w"; "job1"], OS.Dir);
    (["w"; "job1"; "worker.out"], OS.Dir) ].

(** Two base paths with two job directories each (and directories of the
    same names in [/w], where version 0.1 looks for them). *)
Definition two_roots : OS.FS :=
  [ (["w"], OS.Dir); (["a"], OS.Dir); (["b"], OS.Dir);
    (["a"; "job1"], OS.Dir); (["a"; "job2"], OS.Dir);
    (["b"; "job3"], OS.Dir); (["b"; "job4"], OS.Dir);
    (["w"; "job1"], OS.Dir); (["w"; "job2"], OS.Dir);
    (["w"; "job3"], OS.Dir); (["w"; "job4"], OS.Dir) ].

(** Version 0.1 as it would run if [max_jobs] had been set to 1. *)
Definition limit_one : V1.Config :=
  {| V1.basepaths := ["/a"; "/b"]; V1.patterns := ["job"; "job"];
     V1.cmd := ["true"]; V1.max_jobs := 1; V1.max_hours := Py.maxsize |}.

(** Two job directories that have their lock files. *)
Definition claimed_jobs : OS.FS :=
  [ (["w"], OS.Dir); (["w"; "job1"], OS.Dir); (["w"; "job2"], OS.Dir);
    (["w"; "job1"; "worker.lock"], OS.File "Reserved by worker: 1");
    (["w"; "job2"; "worker.lock"], OS.File "Reserved by worker: 2") ].

(** The variables of version 0.3.0 after [-p 'job*' -c true]. *)
Definition glob_jobs : V3.Config :=
  {| V3.patterns := ["job*"]; V3.cmd := ["true"]; V3.max_jobs := Py.maxsize;
     V3.max_hours := Py.PosInf; V3.label := "worker" |}.

(** The variables of version 0.1 after [-b /w -p job -c true]. *)
Definition regex_jobs : V1.Config :=
  {| V1.basepaths := ["/w"]; V1.patterns := ["job"]; V1.cmd := ["true"];
     V1.max_jobs := Py.maxsize; V1.max_hours := Py.maxsize |}.

(** The same with a command that cannot be launched. *)
Definition glob_nosuch : V3.Config :=
  {| V3.patterns := ["job*"]; V3.cmd := ["nosuchprogram"];
     V3.max_jobs := Py.maxsize; V3.max_hours := Py.PosInf;
     V3.label := "worker" |}.





(** Whose turn it is: the first two check, the second claims, the third,
    which had checked before, and the first claim too late, the second runs
    the job. *)
Definition turns : list nat := [0; 1; 1; 2; 0; 1; 2; 0]%nat.

(** The fields of a final state that the examples look at. *)
Definition summary (r : option (result unit * State))
  : option (result unit * Z * OS.apath * list event) :=
  match r with
  | Some (r, s) => Some (r, processed_jobs s, cwd s, out s)
  | None => None
  end.

Definition status (r : option (result unit * State)) : option Z :=
  match r with
  | Some (r, _) => Some (exit_status r)
  | None => None
  end.

Definition final_fs (r : option (result unit * State)) : option OS.FS :=
  match r with
  | Some (_, s) => Some (fs s)
  | None => None
  end.

End Example.

(* ================================================================== *)
(** ** Vocabulary for further properties of the scripts *)

Module Names.

(** The names [getopt] can give to a short option: one per letter of the
    short option string. *)
Fixpoint short_names (shortopts : string) : list string :=
  match shortopts with
  | EmptyString => []
  | String c rest =>
      if Ascii.eqb c ":" then short_names rest
      else ("-" ++ String c EmptyString) :: short_names rest
  end.

(** The names [getopt] can give to a long option: an entry of the table,
    with or without its last character (the [=] of an option that takes an
    argument). *)
Definition long_names (longopts : list string) : list string :=
  flat_map (fun l => ["--" ++ l; "--" ++ Py.drop_last l]) longopts.

Definition option_names (shortopts : string) (longopts : list string)
  : list string :=
  (short_names shortopts ++ long_names longopts)%list.

(** [o in ("--name")] of the scripts, a substring test, against the
    equality test it stands for. *)
Definition test_is_equality (name o : string) : bool :=
  Bool.eqb (Py.contains name o) (String.eqb o name).

(** The arguments of the options of the given names, in order. *)
Definition args_of (names : list string) (options : Getopt.opts)
  : list string :=
  flat_map (fun oa => if Py.in_tuple (fst oa) names then [snd oa] else [])
           options.

(** Only the output differs between two states. *)
Definition only_output (s s' : State) : Prop := s' = with_out (out s') s.

End Names.

(** A path component that names an entry of a directory. *)
Definition simple (n : string) : bool :=
  Py.free_of "/" n && negb (String.eqb n "") && negb (String.eqb n ".") &&
  negb (String.eqb n "..").

(** Every directory, and every entry whose name is not one of [outs], is in
    [s'] what it was in [s]. *)
Definition kept (outs : list string) (s s' : State) : Prop :=
  forall p n,
    OS.kind (fs s) p = Some n ->
    n = OS.Dir \/ ~ In (last p EmptyString) outs ->
    OS.kind (fs s') p = Some n.

(** The names of the files a job's output goes to. *)
Definition V3_outputs (cfg : V3.Config) : list string :=
  [V3.label cfg ++ ".out"; V3.label cfg ++ ".err"].

Definition V1_outputs : list string := ["worker.out"; "worker.err"].

(** The script is in the directory [home]. *)
Definition at_home (home : OS.apath) (s : State) : Prop :=
  cwd s = home /\ OS.kind (fs s) home = Some OS.Dir.

(** The relation holds between the state before and the state after every
    run of [c] that ends with a value or with an exception in [good]. *)
Definition postg {A} (good : exn -> Prop) (R : State -> State -> Prop)
           (c : M A) : Prop :=
  forall s r s',
    c s = (r, s') ->
    match r with Ok _ => True | Raise e => good e end ->
    R s s'.

(** The exit of the limit check. *)
Definition limit_exit (e : exn) : Prop := e = SystemExit (ExitCode 0).

(** No job is counted. *)
Definition uncounted (s s' : State) : Prop :=
  processed_jobs s' = processed_jobs s.

(** At most one job is counted. *)
Definition counts_one (s s' : State) : Prop :=
  processed_jobs s <= processed_jobs s' <= processed_jobs s + 1.

(** The file system, the working directory and the count are the same. *)
Definition calm (s s' : State) : Prop :=
  fs s' = fs s /\ cwd s' = cwd s /\ processed_jobs s' = processed_jobs s.

(** Something other than a regular file is where the lock file of [entry]
    would be. *)
Definition V3_blocked (cfg : V3.Config) (s : State) (entry : string) : bool :=
  V3.unlocked cfg s entry &&
  OS.lexists (fs s) (cwd s) (V3.lock_of cfg entry).

(** The entries of all the patterns. *)
Definition V3_entries (P : Platform) (cfg : V3.Config) (s : State)
  : list string :=
  flat_map (Glob.glob P (fs s) (cwd s)) (V3.patterns cfg).

(** A job directory with a directory where its lock file would be. *)
Definition lock_in_the_way : OS.FS :=
  [ (["w"], OS.Dir); (["w"; "job1"], OS.Dir);
    (["w"; "job1"; "worker.lock"], OS.Dir);
    (["w"; "notes"], OS.File "to do") ].

(** A job directory that holds the output of an earlier run. *)
Definition stale_output : OS.FS :=
  [ (["w"], OS.Dir); (["w"; "job1"], OS.Dir);
    (["w"; "job1"; "worker.out"], OS.File "output of an earlier run") ].

(** The variables of version 0.3.0 after [-p 'job*' -c 'echo hi']. *)
Definition glob_echo : V3.Config :=
  {| V3.patterns := ["job*"]; V3.cmd := ["echo"; "hi"];
     V3.max_jobs := Py.maxsize; V3.max_hours := Py.PosInf;
     V3.label := "worker" |}.

(** The working directory is the same. *)
Definition unmoved (s s' : State) : Prop := cwd s' = cwd s.

(** If the script was in [home], it is there again. *)
Definition stays_home (home : OS.apath) (s s' : State) : Prop :=
  at_home home s -> at_home home s'.

(** The command fails to start only with an error of the system. *)
Definition launch_errors_are_os (P : Platform) (cmd : list string) : Prop :=
  forall c f e, run_job P cmd c f = LaunchError e -> os_error e.

(** Job directories in the directory the worker is started in. *)
Definition jobs_here : OS.FS :=
  [ (["w"], OS.Dir); (["w"; "job1"], OS.Dir); (["w"; "job2"], OS.Dir) ].

(** The variables of version 0.1 after [-b . -p job -c true]. *)
Definition regex_here : V1.Config :=
  {| V1.basepaths := ["."]; V1.patterns := ["job"]; V1.cmd := ["true"];
     V1.max_jobs := Py.maxsize; V1.max_hours := Py.maxsize |}.

(** Version 0.1 passes over the name: it is no directory where the script
    is, or does not match, or has its lock file. *)
Definition V1_skips (P : Platform) (s : State) (basepath pattern name : string)
  : bool :=
  negb (OS.isdir (fs s) (cwd s) name) ||
  match re_search P pattern name with
  | Some true => OS.isfile (fs s) (cwd s) (V1.lock_of basepath name)
  | Some false => true
  | None => false
  end.

(** Every base path can be listed, and every name in it is passed over. *)
Definition V1_nothing_to_do (P : Platform) (cfg : V1.Config) (s : State)
  : Prop :=
  forall i, (i < List.length (V1.basepaths cfg))%nat ->
    exists entries,
      OS.listdir (fs s) (cwd s) (nth i (V1.basepaths cfg) "") = Ok entries /\
      forallb (V1_skips P s (nth i (V1.basepaths cfg) "")
                        (nth i (V1.patterns cfg) "")) entries = true.

(** Something other than a regular file is where the lock file of a name
    that version 0.1 takes for a job directory would be. *)
Definition V1_blocked (P : Platform) (s : State)
           (basepath pattern name : string) : bool :=
  V1.unlocked P s basepath pattern name &&
  OS.lexists (fs s) (cwd s) (V1.lock_of basepath name).

(** The names of the [i]-th base path, with one that is blocked. *)
Definition V1_blocked_at (P : Platform) (cfg : V1.Config) (s : State)
           (i : nat) : bool :=
  match OS.listdir (fs s) (cwd s) (nth i (V1.basepaths cfg) "") with
  | Ok entries =>
      existsb (V1_blocked P s (nth i (V1.basepaths cfg) "")
                          (nth i (V1.patterns cfg) "")) entries
  | Raise _ => false
  end.

(** Every base path can be listed, and every name in it is passed over or
    blocked. *)
Definition V1_nothing_to_claim (P : Platform) (cfg : V1.Config) (s : State)
  : Prop :=
  forall i, (i < List.length (V1.basepaths cfg))%nat ->
    exists entries,
      OS.listdir (fs s) (cwd s) (nth i (V1.basepaths cfg) "") = Ok entries /\
      forallb (fun name =>
                 V1_skips P s (nth i (V1.basepaths cfg) "")
                          (nth i (V1.patterns cfg) "") name ||
                 V1_blocked P s (nth i (V1.basepaths cfg) "")
                            (nth i (V1.patterns cfg) "") name)
              entries = true.

(** A job directory of version 0.1 with a directory where its lock file
    would be. *)
Definition lock_in_the_way_1 : OS.FS :=
  [ (["w"], OS.Dir); (["w"; "job1"], OS.Dir);
    (["w"; "job1"; "worker.lock"], OS.Dir) ].

(* ================================================================== *)
(** * Theorems *)

(** ** Strings *)

Lemma split_not_nil (sep : ascii) (s : string) : Py.split sep s <> [].
Proof.
  destruct s as [|c s]; simpl; [discriminate|].
  destruct (Ascii.eqb c sep); [discriminate|].
  destruct (Py.split sep s); discriminate.
Qed.

Lemma split_free (sep : ascii) (s : string) :
  Forall (fun t => Py.free_of sep t = true) (Py.split sep s).
Proof.
  induction s as [|c s IH]; simpl.
  - repeat constructor.
  - destruct (Ascii.eqb c sep) eqn:E.
    + constructor; [reflexivity | exact IH].
    + destruct (Py.split sep s) as [|t ts].
      * constructor; [simpl; rewrite E; reflexivity | constructor].
      * inversion IH; subst. constructor; [|assumption].
        simpl. rewrite E. assumption.
Qed.

Lemma join_split (sep : ascii) (s : string) :
  Py.join (String sep EmptyString) (Py.split sep s) = s.
Proof.
  induction s as [|c s IH]; simpl; [reflexivity|].
  destruct (Ascii.eqb c sep) eqn:E.
  - apply Ascii.eqb_eq in E. subst c.
    pose proof (split_not_nil sep s) as Hne.
    destruct (Py.split sep s) as [|t ts]; [contradiction|].
    simpl in *. rewrite IH. reflexivity.
  - pose proof (split_not_nil sep s) as Hne.
    destruct (Py.split sep s) as [|t ts]; [contradiction|].
    destruct ts as [|t' ts]; simpl in *; rewrite <- IH; reflexivity.
Qed.

Lemma length_split (sep : ascii) (s : string) :
  List.length (Py.split sep s) = S (Py.count sep s).
Proof.
  induction s as [|c s IH]; simpl; [reflexivity|].
  destruct (Ascii.eqb c sep); simpl.
  - rewrite IH. reflexivity.
  - destruct (Py.split sep s); simpl in *; lia.
Qed.

Lemma fold_left_snoc {A} (l acc : list A) :
  fold_left (fun c tok => (c ++ [tok])%list) l acc = (acc ++ l)%list.
Proof.
  revert acc. induction l as [|x l IH]; intros acc; simpl.
  - rewrite app_nil_r. reflexivity.
  - rewrite IH, <- app_assoc. reflexivity.
Qed.

(** ** The monad *)

Lemma bind_ok {A B} (c : M A) (k : A -> M B) s a s' :
  c s = (Ok a, s') -> bind c k s = k a s'.
Proof. intros H. unfold bind. rewrite H. reflexivity. Qed.

Lemma bind_raise {A B} (c : M A) (k : A -> M B) s e s' :
  c s = (Raise e, s') -> bind c k s = (Raise e, s').
Proof. intros H. unfold bind. rewrite H. reflexivity. Qed.

Lemma bind_inv {A B} (c : M A) (k : A -> M B) s r s' :
  bind c k s = (r, s') ->
  (exists a s1, c s = (Ok a, s1) /\ k a s1 = (r, s')) \/
  (exists e, c s = (Raise e, s') /\ r = Raise e).
Proof.
  unfold bind. destruct (c s) as [[a|e] s1]; intros H.
  - left. eauto.
  - right. inversion H; subst. eauto.
Qed.

Lemma split_app (sep : ascii) (x y : string) :
  Py.split sep (x ++ String sep y) = (Py.split sep x ++ Py.split sep y)%list.
Proof.
  induction x as [|c x IH]; simpl.
  - rewrite Ascii.eqb_refl. reflexivity.
  - destruct (Ascii.eqb c sep).
    + rewrite IH. reflexivity.
    + rewrite IH. pose proof (split_not_nil sep x) as Hne.
      destruct (Py.split sep x) as [|t ts]; [contradiction|]. reflexivity.
Qed.

(** ** The command line: the command of a job *)

Lemma V3_handle_option_cmd P cfg oa s cfg' s' :
  V3.handle_option P cfg oa s = (Ok cfg', s') ->
  V3.cmd cfg' = (V3.cmd cfg ++ Example.cmd_tokens oa)%list.
Proof.
  destruct oa as [o a].
  unfold V3.handle_option, Example.cmd_tokens, when, bind, print, emit, modify,
    sys_exit, raise, ret.
  destruct (Py.in_tuple o ["-v"; "--version"]); [discriminate|].
  destruct (Py.in_tuple o ["-h"; "--help"]); [discriminate|].
  destruct (Py.in_tuple o ["-p"; "--pattern"]);
  destruct (Py.in_tuple o ["-c"; "--cmd"]);
  destruct (Py.contains "--maxjobs" o); try destruct (py_int P a);
  destruct (Py.contains "--maxhours" o); try destruct (py_float P a);
  destruct (Py.contains "--label" o);
  intros H; inversion H; subst; simpl;
  rewrite ?fold_left_snoc, ?app_nil_r; reflexivity.
Qed.

Lemma V1_handle_option_cmd st oa s st' s' :
  V1.handle_option st oa s = (Ok st', s') ->
  V1.cmd (fst st') = (V1.cmd (fst st) ++ Example.cmd_tokens oa)%list.
Proof.
  destruct st as [cfg loc], oa as [o a].
  unfold V1.handle_option, Example.cmd_tokens, when, bind, print, emit, modify,
    sys_exit, raise, ret.
  destruct (Py.in_tuple o ["-v"; "--version"]); [discriminate|].
  destruct (Py.in_tuple o ["-h"; "--help"]); [discriminate|].
  destruct (Py.in_tuple o ["-b"; "--basepath"]);
  destruct (Py.in_tuple o ["-p"; "--pattern"]);
  destruct (Py.in_tuple o ["-c"; "--cmd"]);
  intros H; inversion H; subst; simpl;
  rewrite ?fold_left_snoc, ?app_nil_r; reflexivity.
Qed.

Lemma V3_options_cmd P options : forall cfg s cfg' s',
  fold_m (V3.handle_option P) options cfg s = (Ok cfg', s') ->
  V3.cmd cfg' = (V3.cmd cfg ++ flat_map Example.cmd_tokens options)%list.
Proof.
  induction options as [|oa options IH]; intros cfg s cfg' s' H; simpl in H.
  - inversion H; subst. simpl. rewrite app_nil_r. reflexivity.
  - apply bind_inv in H. destruct H as [(c1 & s1 & H1 & H2)|(e & _ & He)];
      [|discriminate].
    apply V3_handle_option_cmd in H1. apply IH in H2.
    rewrite H2, H1. simpl. rewrite app_assoc. reflexivity.
Qed.

Lemma V1_options_cmd options : forall st s st' s',
  fold_m V1.handle_option options st s = (Ok st', s') ->
  V1.cmd (fst st') =
  (V1.cmd (fst st) ++ flat_map Example.cmd_tokens options)%list.
Proof.
  induction options as [|oa options IH]; intros st s st' s' H; simpl in H.
  - inversion H; subst. simpl. rewrite app_nil_r. reflexivity.
  - apply bind_inv in H. destruct H as [(c1 & s1 & H1 & H2)|(e & _ & He)];
      [|discriminate].
    apply V1_handle_option_cmd in H1. apply IH in H2.
    rewrite H2, H1. simpl. rewrite app_assoc. reflexivity.
Qed.

Lemma cmd_tokens_no_space options :
  Forall Example.no_space (flat_map Example.cmd_tokens options).
Proof.
  induction options as [|[o a] options IH]; [constructor|].
  cbn [flat_map]. apply Forall_app. split; [|exact IH].
  unfold Example.cmd_tokens.
  destruct (Py.in_tuple o ["-c"; "--cmd"]); [apply split_free | constructor].
Qed.

Lemma when_inv (c : bool) (body : M unit) s r s' :
  when c body s = (r, s') ->
  (c = true /\ body s = (r, s')) \/ (c = false /\ r = Ok tt /\ s' = s).
Proof.
  destruct c; simpl; intros H; [left; auto|].
  right. inversion H; auto.
Qed.

Lemma V3_parse_cmd P argv s cfg s' :
  V3.parse P argv s = (Ok cfg, s') ->
  exists options arguments,
    Getopt.getopt argv V3.shortopts V3.longopts = Ok (options, arguments) /\
    V3.cmd cfg = flat_map Example.cmd_tokens options.
Proof.
  unfold V3.parse.
  destruct (Getopt.getopt argv V3.shortopts V3.longopts)
    as [[options arguments]|e]; [|discriminate].
  intros H. exists options, arguments. split; [reflexivity|].
  apply bind_inv in H. destruct H as [(c1 & s1 & H1 & H)|(e & _ & He)];
    [|discriminate].
  apply V3_options_cmd in H1. simpl in H1.
  repeat (apply bind_inv in H;
          destruct H as [(? & ? & _ & H)|(? & _ & He)]; [|discriminate]).
  inversion H; subst. exact H1.
Qed.

Lemma V1_parse_cmd P argv s cfg s' :
  V1.parse P argv s = (Ok cfg, s') ->
  exists options arguments,
    Getopt.getopt argv V1.shortopts V1.longopts = Ok (options, arguments) /\
    V1.cmd cfg = flat_map Example.cmd_tokens options.
Proof.
  unfold V1.parse.
  destruct (Getopt.getopt argv V1.shortopts V1.longopts)
    as [[options arguments]|e]; [|discriminate].
  intros H. exists options, arguments. split; [reflexivity|].
  apply bind_inv in H. destruct H as [(c1 & s1 & H1 & H)|(e & _ & He)];
    [|discriminate].
  apply V1_options_cmd in H1. simpl in H1.
  repeat (apply bind_inv in H;
          destruct H as [(? & ? & _ & H)|(? & _ & He)]; [|discriminate]).
  inversion H; subst. exact H1.
Qed.

(** C10. The command of a job is the option string of [-c]/[--cmd] cut at
    every single space and at nothing else: joining the pieces with one
    space gives the option string back (no quoting, no escaping), a string
    with n spaces gives n + 1 pieces, two spaces in a row give an empty
    piece, and in both versions the command the script ends up with is the
    pieces of its [-c] options in order, so that no argument of the job
    command holds a space. *)
Theorem cmd_is_split_on_single_spaces (P : Platform) (argv : list string)
        (s : State) :
  (forall a : string,
      Py.join " " (Py.split " " a) = a /\
      Forall Example.no_space (Py.split " " a) /\
      List.length (Py.split " " a) = S (Py.count " " a)) /\
  (forall x y : string,
      Py.split " " (x ++ "  " ++ y) =
      (Py.split " " x ++ "" :: Py.split " " y)%list) /\
  (forall cfg s',
      V3.parse P argv s = (Ok cfg, s') ->
      exists options arguments,
        Getopt.getopt argv V3.shortopts V3.longopts = Ok (options, arguments)
        /\ V3.cmd cfg = flat_map Example.cmd_tokens options
        /\ Forall Example.no_space (V3.cmd cfg)) /\
  (forall cfg s',
      V1.parse P argv s = (Ok cfg, s') ->
      exists options arguments,
        Getopt.getopt argv V1.shortopts V1.longopts = Ok (options, arguments)
        /\ V1.cmd cfg = flat_map Example.cmd_tokens options
        /\ Forall Example.no_space (V1.cmd cfg)).
Proof.
  split; [|split; [|split]].
  - intros a. split; [apply join_split|].
    split; [apply split_free | apply length_split].
  - intros x y. change (x ++ "  " ++ y) with (x ++ String " " (String " " y)).
    rewrite split_app. simpl. reflexivity.
  - intros cfg s' H. destruct (V3_parse_cmd _ _ _ _ _ H) as (os & args & Hg & Hc).
    exists os, args. split; [exact Hg|]. split; [exact Hc|].
    rewrite Hc. apply cmd_tokens_no_space.
  - intros cfg s' H. destruct (V1_parse_cmd _ _ _ _ _ H) as (os & args & Hg & Hc).
    exists os, args. split; [exact Hg|]. split; [exact Hc|].
    rewrite Hc. apply cmd_tokens_no_space.
Qed.

Lemma cmd_is_split_on_single_spaces_witness :
  let argv3 := ["-p"; "job*"; "-c"; "echo  done"] in
  let argv1 := ["-b"; "/w"; "-p"; "job"; "--cmd"; "echo a b"; "-c"; "c"] in
  let s := boot Example.one_job ["w"] in
  (exists cfg s',
      V3.parse Ref.platform argv3 s = (Ok cfg, s') /\
      V3.cmd cfg = ["echo"; ""; "done"] /\
      Forall Example.no_space (V3.cmd cfg)) /\
  (exists cfg s',
      V1.parse Ref.platform argv1 s = (Ok cfg, s') /\
      V1.cmd cfg = ["echo"; "a"; "b"; "c"] /\
      Forall Example.no_space (V1.cmd cfg)).
Proof.
  intros argv3 argv1 s. split.
  - destruct (cmd_is_split_on_single_spaces Ref.platform argv3 s)
      as (_ & _ & H3 & _).
    let r := eval vm_compute in (V3.parse Ref.platform argv3 s) in
    match r with
    | (Ok ?c, ?s1) =>
        assert (E : V3.parse Ref.platform argv3 s = (Ok c, s1))
          by (vm_compute; reflexivity);
        exists c, s1
    end.
    split; [exact E|]. split; [vm_compute; reflexivity|].
    destruct (H3 _ _ E) as (os & args & _ & _ & Hf). exact Hf.
  - destruct (cmd_is_split_on_single_spaces Ref.platform argv1 s)
      as (_ & _ & _ & H1).
    let r := eval vm_compute in (V1.parse Ref.platform argv1 s) in
    match r with
    | (Ok ?c, ?s1) =>
        assert (E : V1.parse Ref.platform argv1 s = (Ok c, s1))
          by (vm_compute; reflexivity);
        exists c, s1
    end.
    split; [exact E|]. split; [vm_compute; reflexivity|].
    destruct (H1 _ _ E) as (os & args & _ & _ & Hf). exact Hf.
Defined.

(** ** The command line: limits and flags *)

(** Whatever the command line, version 0.1 leaves both limits at
    [sys.maxsize]: [--maxjobs] and [--maxhours] only set locals of
    [parse()]. *)
Lemma V1_handle_option_limits st oa s st' s' :
  V1.handle_option st oa s = (Ok st', s') ->
  V1.max_jobs (fst st') = V1.max_jobs (fst st) /\
  V1.max_hours (fst st') = V1.max_hours (fst st).
Proof.
  destruct st as [cfg loc], oa as [o a].
  unfold V1.handle_option, when, bind, print, emit, modify, sys_exit, raise,
    ret.
  destruct (Py.in_tuple o ["-v"; "--version"]); [discriminate|].
  destruct (Py.in_tuple o ["-h"; "--help"]); [discriminate|].
  destruct (Py.in_tuple o ["-b"; "--basepath"]);
  destruct (Py.in_tuple o ["-p"; "--pattern"]);
  destruct (Py.in_tuple o ["-c"; "--cmd"]);
  intros H; inversion H; subst; simpl; auto.
Qed.

Lemma V1_options_limits options : forall st s st' s',
  fold_m V1.handle_option options st s = (Ok st', s') ->
  V1.max_jobs (fst st') = V1.max_jobs (fst st) /\
  V1.max_hours (fst st') = V1.max_hours (fst st).
Proof.
  induction options as [|oa options IH]; intros st s st' s' H; simpl in H.
  - inversion H; subst. auto.
  - apply bind_inv in H. destruct H as [(c1 & s1 & H1 & H2)|(e & _ & He)];
      [|discriminate].
    apply V1_handle_option_limits in H1. apply IH in H2.
    destruct H1 as [A B], H2 as [C D]. rewrite C, D. auto.
Qed.

Lemma V1_parse_limits P argv s cfg s' :
  V1.parse P argv s = (Ok cfg, s') ->
  V1.max_jobs cfg = Py.maxsize /\ V1.max_hours cfg = Py.maxsize.
Proof.
  unfold V1.parse.
  destruct (Getopt.getopt argv V1.shortopts V1.longopts)
    as [[options arguments]|e]; [|discriminate].
  intros H.
  apply bind_inv in H. destruct H as [(c1 & s1 & H1 & H)|(e & _ & He)];
    [|discriminate].
  apply V1_options_limits in H1. simpl in H1.
  repeat (apply bind_inv in H;
          destruct H as [(? & ? & _ & H)|(? & _ & He)]; [|discriminate]).
  inversion H; subst. exact H1.
Qed.

(** In version 0.3.0 a limit that [int] or [float] rejects ends the reading
    of the command line with [ValueError]. *)
Lemma V3_malformed_limit P cfg a s :
  (py_int P a = None ->
   V3.handle_option P cfg ("--maxjobs", a) s = (Raise ValueError, s)) /\
  (py_float P a = None ->
   V3.handle_option P cfg ("--maxhours", a) s = (Raise ValueError, s)).
Proof.
  split; intros H; unfold V3.handle_option, when, bind, raise, ret; simpl;
    rewrite H; reflexivity.
Qed.

(** C8 (the code's defect).  Version 0.1 started with [--maxjobs=abc] on
    five unclaimed job directories reports no error: it runs the five jobs
    and ends with status 0.  Version 0.3.0 on the same limit raises
    [ValueError] before it has written or claimed anything. *)
Theorem V1_accepts_malformed_limit :
  let w := boot Example.five_jobs ["w"] in
  let r1 := V1.main Ref.platform
              ["-b"; "/w"; "-p"; "job"; "-c"; "true"; "--maxjobs=abc"] 3 w in
  let r3 := V3.main Ref.platform
              ["-p"; "job*"; "-c"; "true"; "--maxjobs=abc"] 3 w in
  py_int Ref.platform "abc" = None /\
  Example.status r1 = Some 0 /\
  option_map (fun x => fst (fst (fst x))) (Example.summary r1) = Some (Ok tt) /\
  option_map (fun x => snd (fst (fst x))) (Example.summary r1) = Some 5 /\
  r3 = Some (Raise ValueError, w) /\
  Example.status r3 = Some 1.
Proof. vm_compute. repeat split; reflexivity. Qed.

(** C2 (the code's defect).  Version 0.1 started with [--maxjobs=2] on five
    unclaimed job directories runs all five jobs; and had the limit been
    set, its [break] would only leave the loop over one base path: with a
    limit of one job and two base paths of two jobs each it runs four jobs.
    Version 0.3.0 started with [--maxjobs=2] on the five directories runs
    two jobs and exits with status 0. *)
Theorem V1_ignores_maxjobs :
  let w := boot Example.five_jobs ["w"] in
  let r1 := V1.main Ref.platform
              ["-b"; "/w"; "-p"; "job"; "-c"; "true"; "--maxjobs=2"] 3 w in
  let rb := V1.main_loop Ref.platform Example.limit_one 0 "/w" 5
              (with_keep_looping true (boot Example.two_roots ["w"])) in
  let r3 := V3.main Ref.platform
              ["-p"; "job*"; "-c"; "true"; "--maxjobs=2"] 3 w in
  option_map (fun x => fst (fst x)) (Example.summary r1) = Some (Ok tt, 5) /\
  option_map (fun x => fst (fst x)) (Example.summary rb) = Some (Ok tt, 4) /\
  option_map (fun x => fst (fst x)) (Example.summary r3)
    = Some (Raise (SystemExit (ExitCode 0)), 2) /\
  Example.status r3 = Some 0.
Proof. vm_compute. repeat split; reflexivity. Qed.

(** C9 (the code's defect).  Version 0.3.0 declares its short options as
    [vh:p:c:], so [-h] wants an argument: started with [-h] alone it prints
    nothing and ends with [GetoptError], status 1.  Version 0.1 ([vhb:p:c:])
    prints its usage and exits with status 0; so does 0.3.0 for [--help]
    and for [-v], without reading the clock or touching the file system. *)
Theorem V3_help_flag_needs_argument (P : Platform) (n : nat) (s : State) :
  V3.main P ["-h"] n s
    = Some (Raise (GetoptError "option requires argument" "h"), s) /\
  exit_status (A := unit)
    (Raise (GetoptError "option requires argument" "h")) = 1 /\
  V1.main P ["-h"] n s
    = Some (Raise (SystemExit ExitNone), with_out (out s ++ [Print USAGE]) s) /\
  (exists s', V3.main P ["--help"] n s = Some (Raise (SystemExit ExitNone), s')
              /\ fs s' = fs s /\ cwd s' = cwd s /\ reads s' = reads s
              /\ out s' = (out s ++ [Print VERSION; Print USAGE])%list) /\
  (exists s', V3.main P ["-v"] n s = Some (Raise (SystemExit ExitNone), s')
              /\ fs s' = fs s /\ cwd s' = cwd s /\ reads s' = reads s
              /\ out s' = (out s ++ [Print VERSION])%list) /\
  exit_status (A := unit) (Raise (SystemExit ExitNone)) = 0.
Proof.
  split; [reflexivity|]. split; [reflexivity|]. split; [reflexivity|].
  split; [|split; [|reflexivity]].
  - eexists. split; [reflexivity|]. simpl. rewrite <- app_assoc. auto.
  - eexists. split; [reflexivity|]. simpl. auto.
Qed.

(** ** The matcher and the job runner on concrete worlds *)

(** C4 (the code's defect).  Version 0.1 tests [os.path.isdir] on the bare
    name that [os.listdir(basepath)] returned, which the system reads from
    the working directory.  Started in [/w] on the base path [/data] with
    two unclaimed job directories that match, it finds no candidate and
    ends without having run a job; and where [/data/job1] is a file and
    [/w/job1] a directory it takes the file for a job directory and ends
    with [NotADirectoryError]. *)
Theorem V1_isdir_reads_working_directory :
  let argv := ["-b"; "/data"; "-p"; "job"; "-c"; "true"] in
  let w := boot Example.elsewhere ["w"] in
  let r := V1.main Ref.platform argv 3 w in
  let r' := V1.main Ref.platform argv 3 (boot Example.shadow ["w"]) in
  OS.listdir (fs w) (cwd w) "/data" = Ok ["job1"; "job2"] /\
  OS.isdir (fs w) (cwd w) "/data/job1" = true /\
  re_search Ref.platform "job" "job1" = Some true /\
  OS.lexists (fs w) (cwd w) "/data/job1/worker.lock" = false /\
  option_map (fun x => fst (fst x)) (Example.summary r) = Some (Ok tt, 0) /\
  Example.final_fs r = Some Example.elsewhere /\
  OS.isdir Example.shadow ["w"] "/data/job1" = false /\
  option_map (fun x => fst (fst x)) (Example.summary r')
    = Some (Raise NotADirectoryError, 0).
Proof. vm_compute. repeat split; reflexivity. Qed.

(** C5 (the code's defect).  Version 0.3.0 changes back to its working
    directory in a statement that follows the job: when the command cannot
    be launched, or an output file cannot be opened, the exception leaves
    the script in the job directory.  Version 0.1 changes back in a
    [finally] clause and ends in the directory it started in. *)
Theorem V3_leaves_job_directory_on_error :
  let r3 := V3.main Ref.platform ["-p"; "job*"; "-c"; "nosuchprogram"] 3
              (boot Example.one_job ["w"]) in
  let r3' := V3.main Ref.platform ["-p"; "job*"; "-c"; "true"] 3
               (boot Example.blocked ["w"]) in
  let r1 := V1.main Ref.platform
              ["-b"; "/w"; "-p"; "job"; "-c"; "nosuchprogram"] 3
              (boot Example.one_job ["w"]) in
  let r1' := V1.main Ref.platform ["-b"; "/w"; "-p"; "job"; "-c"; "true"] 3
               (boot Example.blocked ["w"]) in
  let where_ r := option_map (fun x => (fst (fst (fst x)), snd (fst x)))
                             (Example.summary r) in
  where_ r3 = Some (Raise FileNotFoundError, ["w"; "job1"]) /\
  where_ r3' = Some (Raise IsADirectoryError, ["w"; "job1"]) /\
  where_ r1 = Some (Raise FileNotFoundError, ["w"]) /\
  where_ r1' = Some (Raise IsADirectoryError, ["w"]).
Proof. vm_compute. repeat split; reflexivity. Qed.

(** ** The limits, in general *)

(** Version 0.3.0: the check after a claim attempt ends the process with
    status 0 exactly when one of the limits is reached. *)
Lemma V3_evaluate_exits P cfg st s r s' :
  V3.evaluate P cfg st s = (r, s') ->
  let hours := hours_between st (clock P (reads s)) in
  (r = Raise (SystemExit (ExitCode 0)) <->
   processed_jobs s >= V3.max_jobs cfg \/
   Py.ge_float hours (V3.max_hours cfg) = true) /\
  (r = Ok Next \/ r = Raise (SystemExit (ExitCode 0))).
Proof.
  unfold V3.evaluate, bind, now, modify, get, info, emit, modify, exit, raise,
    ret.
  cbn [processed_jobs elapsed_hours with_reads with_elapsed_hours with_out].
  destruct (processed_jobs s >=? V3.max_jobs cfg) eqn:J.
  - intros H. injection H as <- <-. cbn zeta. split; [|auto].
    split; [intros _; left; apply Z.geb_le in J; lia | reflexivity].
  - destruct (Py.ge_float (hours_between st (clock P (reads s)))
                (V3.max_hours cfg)) eqn:G;
      intros H; injection H as <- <-; cbn zeta; (split; [|auto]).
    + split; [auto | reflexivity].
    + split; [discriminate|]. intros [K|K]; [|discriminate].
      rewrite Z.geb_leb in J. apply Z.leb_gt in J. lia.
Qed.

(** An exception (the exit of the limits included) ends every loop it
    leaves: the inner loop, the loop over the patterns, the main loop. *)
Lemma for_each_raise {A} (body : A -> M flow) x l s e s' :
  body x s = (Raise e, s') -> for_each (x :: l) body s = (Raise e, s').
Proof. intros H. cbn [for_each]. apply bind_raise, H. Qed.

Lemma V3_main_loop_raise P cfg st home n s e s' :
  keep_looping s = true ->
  V3.pass P cfg st home s = (Raise e, s') ->
  V3.main_loop P cfg st home (S n) s = Some (Raise e, s').
Proof. intros K H. cbn [V3.main_loop]. rewrite K, H. reflexivity. Qed.

(** Version 0.1: the check after a claim attempt never ends the process,
    and the search of a base path hides its [break] from the loop over the
    base paths, which goes on. *)
Lemma V1_evaluate_stays P cfg st s r s' :
  V1.evaluate P cfg st s = (r, s') -> r = Ok Next \/ r = Ok Break.
Proof.
  unfold V1.evaluate, bind, now, modify, get, info, emit, modify, ret.
  cbn [processed_jobs elapsed_hours with_reads with_elapsed_hours with_out].
  destruct (processed_jobs s >=? V1.max_jobs cfg);
    [intros H; injection H as <- <-; auto|].
  destruct (Qle_bool _ _); intros H; injection H as <- <-; auto.
Qed.

Lemma V1_search_goes_on P cfg st home i s f s' :
  V1.search P cfg st home i s = (Ok f, s') -> f = Next.
Proof.
  unfold V1.search. intros H. apply bind_inv in H.
  destruct H as [([[bp pat] entries] & s1 & _ & H)|(e & _ & He)];
    [|discriminate].
  apply bind_inv in H. destruct H as [(u & s2 & _ & H)|(e & _ & He)];
    [|discriminate].
  injection H as <- _. reflexivity.
Qed.

(** ** The working directory after the job, in general *)

Lemma resolve_absolute c c' path :
  Py.startswith path "/" = true -> OS.resolve c path = OS.resolve c' path.
Proof. intros H. unfold OS.resolve. rewrite H. reflexivity. Qed.

(** Version 0.1 ends the [try] statement in its home directory on every
    path on which [os.chdir(homepath)] itself succeeds, whatever the job
    part has raised. *)
Lemma V1_restores_cwd P cfg home bp subdir lf s r s' :
  Py.startswith home "/" = true ->
  V1.claim_and_run P cfg home bp subdir lf s = (r, s') ->
  cwd s' = OS.resolve [] home \/
  (exists e, r = Raise e /\ (e = NotADirectoryError \/ e = FileNotFoundError)).
Proof.
  intros A. unfold V1.claim_and_run, finally.
  destruct (except_FileExistsError _ _ s) as [r1 s1].
  unfold chdir, OS.chdir.
  destruct (OS.stat (fs s1) (cwd s1) home) as [[|c]|];
    intros H; injection H as <- <-.
  - left. cbn [cwd with_cwd]. apply resolve_absolute, A.
  - right. eauto.
  - right. eauto.
Qed.

(** ** The file system *)

Lemma path_eqb_eq (p q : OS.apath) : OS.path_eqb p q = true <-> p = q.
Proof.
  revert q. induction p as [|a p IH]; intros [|b q]; simpl;
    try (split; [discriminate|discriminate]); [tauto|].
  rewrite andb_true_iff, String.eqb_eq, IH.
  split; [intros [-> ->]; reflexivity | intros H; inversion H; auto].
Qed.

Lemma path_eqb_refl (p : OS.apath) : OS.path_eqb p p = true.
Proof. apply path_eqb_eq. reflexivity. Qed.

Lemma lookup_set (f : OS.FS) (p q : OS.apath) (n : OS.node) :
  OS.lookup (OS.set f p n) q =
  if OS.path_eqb p q then Some n else OS.lookup f q.
Proof.
  induction f as [|[q0 m] f IH]; simpl.
  - reflexivity.
  - destruct (OS.path_eqb q0 p) eqn:E0; simpl.
    + apply path_eqb_eq in E0. subst q0. destruct (OS.path_eqb p q); reflexivity.
    + destruct (OS.path_eqb q0 q) eqn:E1.
      * apply path_eqb_eq in E1. subst q0.
        destruct (OS.path_eqb p q) eqn:E2; [|reflexivity].
        apply path_eqb_eq in E2. subst q. rewrite path_eqb_refl in E0.
        discriminate.
      * exact IH.
Qed.

Lemma kind_set (f : OS.FS) (p q : OS.apath) (n : OS.node) :
  OS.kind (OS.set f p n) q =
  match q with
  | [] => Some OS.Dir
  | _ => if OS.path_eqb p q then Some n else OS.kind f q
  end.
Proof. destruct q; simpl; [reflexivity|]. apply lookup_set. Qed.

Lemma grows_refl f : grows f f.
Proof. intros p H. exact H. Qed.

Lemma grows_trans f g h : grows f g -> grows g h -> grows f h.
Proof. intros A B p H. apply B, A, H. Qed.

Lemma grows_set f p n : grows f (OS.set f p n).
Proof.
  intros q H. rewrite kind_set. destruct q; [discriminate|].
  destruct (OS.path_eqb p (s :: q)); [discriminate | exact H].
Qed.

Lemma grows_write f p c : grows f (OS.write f p c).
Proof.
  unfold OS.write. destruct (OS.lookup f p) as [[|old]|];
    try apply grows_refl. apply grows_set.
Qed.

Lemma open_x_ok f c path p f' :
  OS.open_x f c path = Ok (p, f') ->
  OS.kind f p = None /\ f' = OS.set f p (OS.File "") /\
  OS.kind f' p = Some (OS.File "") /\
  p = OS.resolve c path /\ OS.parent_error f p = None.
Proof.
  unfold OS.open_x. destruct (String.eqb path ""); [discriminate|].
  destruct (OS.kind f (OS.resolve c path)) eqn:K; [discriminate|].
  destruct (OS.parent_error f (OS.resolve c path)) eqn:E; [discriminate|].
  intros H. inversion H; subst. repeat split; auto.
  rewrite kind_set. destruct (OS.resolve c path); [discriminate|].
  rewrite path_eqb_refl. reflexivity.
Qed.

Lemma open_x_exists f c path :
  path <> "" -> OS.kind f (OS.resolve c path) <> None ->
  OS.open_x f c path = Raise FileExistsError.
Proof.
  intros Hp Hk. unfold OS.open_x.
  destruct (String.eqb path "") eqn:E; [apply String.eqb_eq in E; contradiction|].
  destruct (OS.kind f (OS.resolve c path)); [reflexivity|contradiction].
Qed.

(** ** Composition of effects *)

Section Post.
Context (R : State -> State -> Prop).
Hypothesis R_refl : forall s, R s s.
Hypothesis R_trans : forall s t u, R s t -> R t u -> R s u.

Lemma post_ret {A} (a : A) : post R (ret a).
Proof. intros s r s' H. inversion H; subst. apply R_refl. Qed.

Lemma post_raise {A} (e : exn) : post R (@raise A e).
Proof. intros s r s' H. inversion H; subst. apply R_refl. Qed.

Lemma post_bind {A B} (c : M A) (k : A -> M B) :
  post R c -> (forall a, post R (k a)) -> post R (bind c k).
Proof.
  intros Hc Hk s r s' H. apply bind_inv in H.
  destruct H as [(a & s1 & H1 & H2)|(e & H1 & _)].
  - eapply R_trans; [eapply Hc, H1 | eapply Hk, H2].
  - eapply Hc, H1.
Qed.

Lemma post_when (b : bool) (c : M unit) : post R c -> post R (when b c).
Proof. destruct b; [auto | intros _; apply post_ret]. Qed.

Lemma post_finally {A} (c : M A) (fin : M unit) :
  post R c -> post R fin -> post R (finally c fin).
Proof.
  intros Hc Hf s r s' H. unfold finally in H.
  destruct (c s) as [r1 s1] eqn:E1. destruct (fin s1) as [[u|e] s2] eqn:E2;
    inversion H; subst; (eapply R_trans; [eapply Hc, E1 | eapply Hf, E2]).
Qed.

Lemma post_except {A} (c h : M A) :
  post R c -> post R h -> post R (except_FileExistsError c h).
Proof.
  intros Hc Hh s r s' H. unfold except_FileExistsError in H.
  destruct (c s) as [[a|e] s1] eqn:E1.
  - inversion H; subst. eapply Hc, E1.
  - destruct e; try (inversion H; subst; eapply Hc, E1).
    eapply R_trans; [eapply Hc, E1 | eapply Hh, H].
Qed.

Lemma post_for_each {A} (l : list A) (body : A -> M flow) :
  (forall x, post R (body x)) -> post R (for_each l body).
Proof.
  intros Hb. induction l as [|x l IH]; simpl.
  - apply post_ret.
  - apply post_bind; [apply Hb|]. intros [|]; [exact IH | apply post_ret].
Qed.

End Post.

Lemma tame_refl s : tame s s.
Proof. split; [apply grows_refl | auto]. Qed.

Lemma tame_trans s t u : tame s t -> tame t u -> tame s u.
Proof. intros [A B] [C D]. split; [eapply grows_trans; eauto | auto]. Qed.

Lemma still_refl s : still s s.
Proof. split; [apply grows_refl | auto]. Qed.


Ltac prim :=
  let s := fresh "s" in let r := fresh "r" in let s' := fresh "s'" in
  let H := fresh "H" in
  intros s r s' H;
  repeat match type of H with
         | context [match ?x with _ => _ end] => destruct x
         end;
  inversion H; subst; clear H;
  (split; simpl; [auto using grows_refl, grows_set, grows_write | auto]).

Lemma tame_emit e : post tame (emit e).
Proof. unfold emit, modify. prim. Qed.
Lemma tame_chdir p : post tame (chdir p).
Proof. unfold chdir. prim. Qed.
Lemma open_w_ok f c path p f' :
  OS.open_w f c path = Ok (p, f') -> f' = OS.set f p (OS.File "").
Proof.
  unfold OS.open_w. destruct (String.eqb path ""); [discriminate|].
  destruct (OS.kind f (OS.resolve c path)) as [[|old]|]; try discriminate.
  - intros H. inversion H; subst. reflexivity.
  - destruct (OS.parent_error f (OS.resolve c path)); [discriminate|].
    intros H. inversion H; subst. reflexivity.
Qed.
Lemma tame_open_w p : post tame (open_w p).
Proof.
  unfold open_w. intros s r s' H.
  destruct (OS.open_w (fs s) (cwd s) p) as [[q f']|e] eqn:E;
    inversion H; subst; clear H; [|apply tame_refl].
  apply open_w_ok in E. subst f'. split; simpl; [apply grows_set | auto].
Qed.
Lemma tame_open_x p : post tame (open_x p).
Proof.
  unfold open_x. intros s r s' H.
  destruct (OS.open_x (fs s) (cwd s) p) as [[q f']|e] eqn:E;
    inversion H; subst; clear H; [|apply tame_refl].
  apply open_x_ok in E. destruct E as (_ & -> & _).
  split; simpl; [apply grows_set | auto].
Qed.
Lemma tame_write f c : post tame (write f c).
Proof. unfold write, modify. prim. Qed.
Lemma tame_call P cmd g h : post tame (subprocess_call P cmd g h).
Proof.
  unfold subprocess_call. prim.
  eapply grows_trans; apply grows_write.
Qed.
Lemma tame_now P : post tame (now P).
Proof. unfold now. prim. Qed.
Lemma tame_get : post tame get.
Proof. unfold get. prim. Qed.
Lemma tame_processed g :
  post tame (modify (fun s => with_processed_jobs (g s) s)).
Proof. unfold modify. prim. Qed.
Lemma tame_elapsed h : post tame (modify (with_elapsed_hours h)).
Proof. unfold modify. prim. Qed.
Lemma tame_keep : post tame (modify (with_keep_looping true)).
Proof. unfold modify. prim. Qed.

Create HintDb tame.
#[local] Hint Resolve tame_refl tame_trans tame_emit tame_chdir tame_open_w
  tame_open_x tame_write tame_call tame_now tame_get tame_processed
  tame_elapsed tame_keep : tame.

Ltac post_tac Hrefl Htrans :=
  repeat first
    [ solve [unfold info, warn, print, exit, sys_exit; auto with tame]
    | apply (post_ret _ Hrefl)
    | apply (post_raise _ Hrefl)
    | apply (post_when _ Hrefl)
    | apply (post_finally _ Htrans)
    | apply (post_except _ Htrans)
    | match goal with
      | |- post _ (if ?b then _ else _) => destruct b
      end
    | apply (post_bind _ Htrans); [|intros] ].

Ltac tame_tac := post_tac tame_refl tame_trans.



Lemma tame_V3_acquire P lf : post tame (V3.acquire P lf).
Proof. unfold V3.acquire. tame_tac. Qed.

Lemma tame_V3_evaluate P cfg st : post tame (V3.evaluate P cfg st).
Proof. unfold V3.evaluate. tame_tac. Qed.

Lemma tame_V1_claim P cfg home bp subdir lf : post tame (V1.claim_and_run P cfg home bp subdir lf).
Proof. unfold V1.claim_and_run, V1.job. tame_tac. Qed.

Lemma tame_V1_evaluate P cfg st : post tame (V1.evaluate P cfg st).
Proof. unfold V1.evaluate. tame_tac. Qed.

(** ** What sets [keep_looping] *)

Lemma emit_inv e s r s' :
  emit e s = (r, s') -> r = Ok tt /\ s' = with_out (out s ++ [e]) s.
Proof. unfold emit, modify. intros H. inversion H; auto. Qed.

(** The body of the inner loop of version 0.3.0, by cases. *)
Lemma V3_candidate_cases P cfg st home e s :
  V3.candidate P cfg st home e s =
  if OS.isdir (fs s) (cwd s) e then
    if OS.isfile (fs s) (cwd s) (V3.lock_of cfg e) then
      (Ok Next, with_out (out s ++ [LogInfo (MsgLockExists e)]) s)
    else
      (acquired_lock <- V3.acquire P (V3.lock_of cfg e) ;;
       when acquired_lock (V3.run_claimed P cfg home e) ;;
       V3.evaluate P cfg st) (with_keep_looping true s)
  else (Ok Next, with_out (out s ++ [LogInfo (MsgNotFolder e)]) s).
Proof.
  unfold V3.candidate, V3.lock_of. unfold bind at 1, isdir.
  destruct (OS.isdir (fs s) (cwd s) e); cbn [negb]; [|reflexivity].
  unfold bind at 1, isfile.
  destruct (OS.isfile (fs s) (cwd s) (e ++ "/" ++ V3.label cfg ++ ".lock"));
    reflexivity.
Qed.

Lemma V3_after_check_tame P cfg st home e :
  post tame (acquired_lock <- V3.acquire P (V3.lock_of cfg e) ;;
             when acquired_lock (V3.run_claimed P cfg home e) ;;
             V3.evaluate P cfg st).
Proof.
  tame_tac.
Qed.

Lemma V3_candidate_keep P cfg st home e s r s' :
  V3.candidate P cfg st home e s = (r, s') ->
  keep_looping s' = keep_looping s || V3.unlocked cfg s e.
Proof.
  rewrite V3_candidate_cases. unfold V3.unlocked.
  destruct (OS.isdir (fs s) (cwd s) e); cbn [andb].
  - destruct (OS.isfile (fs s) (cwd s) (V3.lock_of cfg e)); cbn [negb].
    + intros H. inversion H; subst. rewrite orb_false_r. reflexivity.
    + intros H. rewrite orb_true_r.
      apply V3_after_check_tame in H. destruct H as [_ H]. apply H.
      reflexivity.
  - intros H. inversion H; subst. rewrite orb_false_r. reflexivity.
Qed.

Lemma V3_candidate_frame P cfg st home e s r s' :
  V3.candidate P cfg st home e s = (r, s') ->
  V3.unlocked cfg s e = false ->
  r = Ok Next /\ fs s' = fs s /\ cwd s' = cwd s /\
  processed_jobs s' = processed_jobs s /\ keep_looping s' = keep_looping s.
Proof.
  rewrite V3_candidate_cases. unfold V3.unlocked.
  destruct (OS.isdir (fs s) (cwd s) e); cbn [andb].
  - destruct (OS.isfile (fs s) (cwd s) (V3.lock_of cfg e)); cbn [negb];
      [|discriminate].
    intros H _. inversion H; subst. simpl. auto.
  - intros H _. inversion H; subst. simpl. auto.
Qed.

(** The body of the inner loop of version 0.1, by cases. *)
Lemma V1_candidate_cases P cfg st home bp pat e s :
  V1.candidate P cfg st home bp pat e s =
  if OS.isdir (fs s) (cwd s) e then
    match re_search P pat e with
    | None => (Raise ReError, s)
    | Some false => (Ok Next, s)
    | Some true =>
        if OS.isfile (fs s) (cwd s) (V1.lock_of bp e) then
          (Ok Next, with_out (out s ++ [LogInfo (MsgLockExists e)]) s)
        else
          (V1.claim_and_run P cfg home bp e (V1.lock_of bp e) ;;
           V1.evaluate P cfg st) (with_keep_looping true s)
    end
  else (Ok Next, s).
Proof.
  unfold V1.candidate, V1.lock_of. unfold bind at 1, isdir.
  destruct (OS.isdir (fs s) (cwd s) e); cbn [negb]; [|reflexivity].
  destruct (re_search P pat e) as [[|]|]; try reflexivity.
  unfold bind at 1, isfile.
  destruct (OS.isfile (fs s) (cwd s)
              (OS.path_join bp (e ++ "/" ++ "worker.lock"))); reflexivity.
Qed.

Lemma V1_after_check_tame P cfg st home bp e :
  post tame (V1.claim_and_run P cfg home bp e (V1.lock_of bp e) ;;
             V1.evaluate P cfg st).
Proof. tame_tac. Qed.

Lemma V1_candidate_keep P cfg st home bp pat e s r s' :
  V1.candidate P cfg st home bp pat e s = (r, s') ->
  keep_looping s' = keep_looping s || V1.unlocked P s bp pat e.
Proof.
  rewrite V1_candidate_cases. unfold V1.unlocked.
  destruct (OS.isdir (fs s) (cwd s) e); cbn [andb].
  - destruct (re_search P pat e) as [[|]|]; cbn [andb].
    + destruct (OS.isfile (fs s) (cwd s) (V1.lock_of bp e)); cbn [negb].
      * intros H. inversion H; subst. rewrite orb_false_r. reflexivity.
      * intros H. rewrite orb_true_r.
        apply V1_after_check_tame in H. destruct H as [_ H]. apply H.
        reflexivity.
    + intros H. inversion H; subst. rewrite orb_false_r. reflexivity.
    + intros H. inversion H; subst. rewrite orb_false_r. reflexivity.
  - intros H. inversion H; subst. rewrite orb_false_r. reflexivity.
Qed.

Lemma V1_candidate_frame P cfg st home bp pat e s r s' :
  V1.candidate P cfg st home bp pat e s = (r, s') ->
  V1.unlocked P s bp pat e = false ->
  fs s' = fs s /\ cwd s' = cwd s /\
  processed_jobs s' = processed_jobs s /\ keep_looping s' = keep_looping s.
Proof.
  rewrite V1_candidate_cases. unfold V1.unlocked.
  destruct (OS.isdir (fs s) (cwd s) e); cbn [andb].
  - destruct (re_search P pat e) as [[|]|]; cbn [andb].
    + destruct (OS.isfile (fs s) (cwd s) (V1.lock_of bp e)); cbn [negb];
        [|discriminate].
      intros H _. inversion H; subst. simpl. auto.
    + intros H _. inversion H; subst. auto.
    + intros H _. inversion H; subst. auto.
  - intros H _. inversion H; subst. simpl. auto.
Qed.

(** A loop whose body sets [keep_looping] exactly when it observes [Obs]
    ends with [keep_looping] set exactly when it was set before or one of
    the elements it came to was observed. *)
Lemma for_each_keep {A} (body : A -> M flow) (Obs : State -> A -> Prop) :
  (forall x s r s', body x s = (r, s') ->
                    (keep_looping s' = true <-> keep_looping s = true \/ Obs s x)) ->
  forall l s r s',
    for_each l body s = (r, s') ->
    (keep_looping s' = true <->
     keep_looping s = true \/ exists y t, visits body l s y t /\ Obs t y).
Proof.
  intros Hb. induction l as [|x l IH]; intros s r s' H; simpl in H.
  - inversion H; subst. split; [auto|].
    intros [K|(y & t & V & _)]; [exact K | inversion V].
  - unfold bind in H. destruct (body x s) as [[[|]|e] s1] eqn:E.
    + specialize (IH _ _ _ H). rewrite IH. rewrite (Hb _ _ _ _ E).
      split.
      * intros [[K|O]|(y & t & V & O)]; [auto| |].
        -- right. exists x, s. split; [constructor | exact O].
        -- right. exists y, t. split; [econstructor; eauto | exact O].
      * intros [K|(y & t & V & O)]; [auto|].
        inversion V; subst.
        -- left. right. exact O.
        -- right. exists y, t. split; [|exact O]. congruence.
    + inversion H; subst. rewrite (Hb _ _ _ _ E). split.
      * intros [K|O]; [auto|]. right. exists x, s. split; [constructor|exact O].
      * intros [K|(y & t & V & O)]; [auto|].
        inversion V; subst; [auto | congruence].
    + inversion H; subst. rewrite (Hb _ _ _ _ E). split.
      * intros [K|O]; [auto|]. right. exists x, s. split; [constructor|exact O].
      * intros [K|(y & t & V & O)]; [auto|].
        inversion V; subst; [auto | congruence].
Qed.

Lemma idle_refl s : idle s s.
Proof. intros H. auto. Qed.

Lemma idle_trans s t u : idle s t -> idle t u -> idle s u.
Proof.
  intros A B H. destruct (B H) as [K E]. destruct (A K) as [K' E'].
  split; [exact K' | congruence].
Qed.

Lemma idle_emit e : post idle (emit e).
Proof. intros s r s' H. apply emit_inv in H. destruct H as [_ ->]. intros K. auto. Qed.

Lemma V3_candidate_idle P cfg st home e : post idle (V3.candidate P cfg st home e).
Proof.
  intros s r s' H K. pose proof (V3_candidate_keep _ _ _ _ _ _ _ _ H) as E.
  rewrite K in E. symmetry in E. apply orb_false_iff in E. destruct E as [E U].
  destruct (V3_candidate_frame _ _ _ _ _ _ _ _ H U) as (_ & F & _). auto.
Qed.

Lemma V1_candidate_idle P cfg st home bp pat e :
  post idle (V1.candidate P cfg st home bp pat e).
Proof.
  intros s r s' H K. pose proof (V1_candidate_keep _ _ _ _ _ _ _ _ _ _ H) as E.
  rewrite K in E. symmetry in E. apply orb_false_iff in E. destruct E as [E U].
  destruct (V1_candidate_frame _ _ _ _ _ _ _ _ _ _ H U) as (F & _). auto.
Qed.

Lemma V3_scan_inv P cfg i s r s' :
  V3.scan P cfg i s = (r, s') ->
  fs s' = fs s /\ cwd s' = cwd s /\ keep_looping s' = keep_looping s /\
  processed_jobs s' = processed_jobs s /\
  r = Ok (Glob.glob P (fs s) (cwd s) (nth i (V3.patterns cfg) "")).
Proof.
  unfold V3.scan, bind, info, emit, modify, glob. intros H.
  inversion H; subst. simpl. auto.
Qed.

Lemma V1_scan_inv cfg i s r s' :
  V1.scan cfg i s = (r, s') ->
  fs s' = fs s /\ cwd s' = cwd s /\ keep_looping s' = keep_looping s /\
  processed_jobs s' = processed_jobs s.
Proof.
  unfold V1.scan, bind, info, emit, modify, listdir, ret. cbv beta iota.
  cbn [fs cwd with_out].
  destruct (OS.listdir _ _ _); intros H; inversion H; subst; simpl; auto.
Qed.

Lemma V3_search_idle P cfg st home i : post idle (V3.search P cfg st home i).
Proof.
  unfold V3.search.
  apply (post_bind _ idle_trans).
  - intros s r s' H K. apply V3_scan_inv in H.
    destruct H as (F & _ & E & _). split; congruence.
  - intros entries. apply (post_bind _ idle_trans).
    + apply (post_for_each _ idle_refl idle_trans). intros x.
      apply V3_candidate_idle.
    + intros _. apply (post_ret _ idle_refl).
Qed.

Lemma V1_search_idle P cfg st home i : post idle (V1.search P cfg st home i).
Proof.
  unfold V1.search.
  apply (post_bind _ idle_trans).
  - intros s r s' H K. apply V1_scan_inv in H.
    destruct H as (F & _ & E & _). split; congruence.
  - intros [[bp pat] entries]. apply (post_bind _ idle_trans).
    + apply (post_for_each _ idle_refl idle_trans). intros x.
      apply V1_candidate_idle.
    + intros _. apply (post_ret _ idle_refl).
Qed.

(** A pass that ends with [keep_looping] false has left the file system
    as it was. *)
Lemma V3_pass_idle P cfg st home s r s' :
  V3.pass P cfg st home s = (r, s') ->
  keep_looping s' = false -> fs s' = fs s.
Proof.
  unfold V3.pass, V3.begin_pass. intros H K.
  unfold bind at 1 2 in H. unfold modify at 1 in H. unfold info, emit, modify in H.
  cbv beta iota in H.
  apply (post_for_each _ idle_refl idle_trans) in H;
    [|intros x; apply V3_search_idle].
  destruct (H K) as [_ F]. exact F.
Qed.

Lemma V1_pass_idle P cfg st home s r s' :
  V1.pass P cfg st home s = (r, s') ->
  keep_looping s' = false -> fs s' = fs s.
Proof.
  unfold V1.pass, V1.begin_pass. intros H K.
  unfold bind at 1 2 in H. unfold modify at 1 in H. unfold info, emit, modify in H.
  cbv beta iota in H.
  apply (post_for_each _ idle_refl idle_trans) in H;
    [|intros x; apply V1_search_idle].
  destruct (H K) as [_ F]. exact F.
Qed.

Lemma keep_step (k k' u : bool) :
  k' = k || u -> (k' = true <-> k = true \/ u = true).
Proof. intros ->. apply orb_true_iff. Qed.

Lemma then_ret_inv {A} (c : M unit) (a : A) s r s' :
  (c ;; ret a) s = (r, s') -> exists r0, c s = (r0, s').
Proof.
  intros H. apply bind_inv in H.
  destruct H as [(u & s1 & H1 & H2)|(e & H1 & _)].
  - inversion H2; subst. eauto.
  - eauto.
Qed.

Lemma V3_search_keep P cfg st home i s r s' :
  V3.search P cfg st home i s = (r, s') ->
  (keep_looping s' = true <->
   keep_looping s = true \/
   exists entries t1 e t,
     V3.scan P cfg i s = (Ok entries, t1) /\
     visits (V3.candidate P cfg st home) entries t1 e t /\
     V3.unlocked cfg t e = true).
Proof.
  unfold V3.search. intros H.
  destruct (V3.scan P cfg i s) as [r1 t1] eqn:E.
  pose proof (V3_scan_inv _ _ _ _ _ _ E) as (_ & _ & K & _ & ->).
  rewrite (bind_ok _ _ _ _ _ E) in H.
  apply then_ret_inv in H. destruct H as [r0 H].
  eapply for_each_keep in H;
    [|intros x s0 r2 s2 H2; apply keep_step;
      apply (V3_candidate_keep _ _ _ _ _ _ _ _ H2)].
  rewrite H, K. split.
  - intros [A|(y & t & V & O)]; [auto|]. right. eauto 8.
  - intros [A|(entries & t1' & y & t & E' & V & O)]; [auto|].
    inversion E'; subst. right. eauto.
Qed.

Lemma V1_search_keep P cfg st home i s r s' :
  V1.search P cfg st home i s = (r, s') ->
  (keep_looping s' = true <->
   keep_looping s = true \/
   exists basepath pattern entries t1 e t,
     V1.scan cfg i s = (Ok (basepath, pattern, entries), t1) /\
     visits (V1.candidate P cfg st home basepath pattern) entries t1 e t /\
     V1.unlocked P t basepath pattern e = true).
Proof.
  unfold V1.search. intros H.
  destruct (V1.scan cfg i s) as [r1 t1] eqn:E.
  pose proof (V1_scan_inv _ _ _ _ _ E) as (_ & _ & K & _).
  destruct r1 as [[[bp pat] entries]|e1].
  - rewrite (bind_ok _ _ _ _ _ E) in H.
    apply then_ret_inv in H. destruct H as [r0 H].
    eapply for_each_keep in H;
      [|intros x s0 r2 s2 H2; apply keep_step;
        apply (V1_candidate_keep _ _ _ _ _ _ _ _ _ _ H2)].
    rewrite H, K. split.
    + intros [A|(y & t & V & O)]; [auto|]. right. eauto 10.
    + intros [A|(bp' & pat' & entries' & t1' & y & t & E' & V & O)]; [auto|].
      inversion E'; subst. right. eauto.
  - rewrite (bind_raise _ _ _ _ _ E) in H. inversion H; subst. rewrite K.
    split; [auto|]. intros [A|(bp' & pat' & entries' & t1' & y & t & E' & _)];
      [auto | discriminate].
Qed.

Lemma V3_begin_pass_inv cfg s :
  exists s1, V3.begin_pass cfg s = (Ok tt, s1) /\ keep_looping s1 = false /\
             fs s1 = fs s.
Proof. eexists. split; [reflexivity|]. simpl. auto. Qed.

Lemma V1_begin_pass_inv cfg s :
  exists s1, V1.begin_pass cfg s = (Ok tt, s1) /\ keep_looping s1 = false /\
             fs s1 = fs s.
Proof. eexists. split; [reflexivity|]. simpl. auto. Qed.

Lemma V3_pass_keep P cfg st home s r s' :
  V3.pass P cfg st home s = (r, s') ->
  (keep_looping s' = true <-> Observe.v3 P cfg st home s).
Proof.
  unfold V3.pass. intros H.
  destruct (V3_begin_pass_inv cfg s) as (s1 & E & K & _).
  rewrite (bind_ok _ _ _ _ _ E) in H.
  eapply for_each_keep in H;
    [|intros x s0 r2 s2 H2; apply (V3_search_keep _ _ _ _ _ _ _ _ H2)].
  rewrite H, K. unfold Observe.v3. split.
  - intros [A|(i & t0 & V & entries & t1 & e & t & Sc & Vc & U)];
      [discriminate|]. exists s1, i, t0, entries, t1, e, t. auto.
  - intros (s1' & i & t0 & entries & t1 & e & t & E' & V & Sc & Vc & U).
    rewrite E in E'. inversion E'; subst. right. eauto 10.
Qed.

Lemma V1_pass_keep P cfg st home s r s' :
  V1.pass P cfg st home s = (r, s') ->
  (keep_looping s' = true <-> Observe.v1 P cfg st home s).
Proof.
  unfold V1.pass. intros H.
  destruct (V1_begin_pass_inv cfg s) as (s1 & E & K & _).
  rewrite (bind_ok _ _ _ _ _ E) in H.
  eapply for_each_keep in H;
    [|intros x s0 r2 s2 H2; apply (V1_search_keep _ _ _ _ _ _ _ _ H2)].
  rewrite H, K. unfold Observe.v1. split.
  - intros [A|(i & t0 & V & bp & pat & entries & t1 & e & t & Sc & Vc & U)];
      [discriminate|]. exists s1, i, t0, bp, pat, entries, t1, e, t. auto.
  - intros (s1' & i & t0 & bp & pat & entries & t1 & e & t & E' & V & Sc & Vc & U).
    rewrite E in E'. inversion E'; subst. right. eauto 12.
Qed.

Lemma V3_locked_skipped P cfg st home e t :
  V3.locked cfg t e = true ->
  exists t', V3.candidate P cfg st home e t = (Ok Next, t') /\
             keep_looping t' = keep_looping t /\ fs t' = fs t.
Proof.
  unfold V3.locked. intros H. apply andb_true_iff in H. destruct H as [D L].
  rewrite V3_candidate_cases, D, L. eexists. split; [reflexivity|]. auto.
Qed.

Lemma V1_locked_skipped P cfg st home bp pat e t :
  V1.locked P t bp pat e = true ->
  exists t', V1.candidate P cfg st home bp pat e t = (Ok Next, t') /\
             keep_looping t' = keep_looping t /\ fs t' = fs t.
Proof.
  unfold V1.locked. intros H. apply andb_true_iff in H. destruct H as [H L].
  apply andb_true_iff in H. destruct H as [D R].
  rewrite V1_candidate_cases, D, L.
  destruct (re_search P pat e) as [[|]|]; try discriminate.
  eexists. split; [reflexivity|]. auto.
Qed.

(** C3. In both versions a pass ends with [keep_looping] set exactly when
    it has come to an entry that it takes for a job directory and that has
    no lock file at that moment, whatever becomes of the claim (and however
    the pass ends); an entry taken for a job directory that has its lock
    file is skipped and leaves [keep_looping] and the file system as they
    are; and when a pass is completed with [keep_looping] still false, the
    main loop ends there and the file system is what it was before the
    pass. *)
Theorem keep_looping_iff_unlocked_seen (P : Platform) :
  (forall (cfg : V3.Config) (st : Z) (home : string),
      (forall s r s',
          V3.pass P cfg st home s = (r, s') ->
          (keep_looping s' = true <-> Observe.v3 P cfg st home s)) /\
      (forall e t,
          V3.locked cfg t e = true ->
          exists t', V3.candidate P cfg st home e t = (Ok Next, t') /\
                     keep_looping t' = keep_looping t /\ fs t' = fs t) /\
      (forall s s' n,
          keep_looping s = true ->
          V3.pass P cfg st home s = (Ok tt, s') ->
          keep_looping s' = false ->
          V3.main_loop P cfg st home (S n) s = Some (Ok tt, s') /\
          fs s' = fs s)) /\
  (forall (cfg : V1.Config) (st : Z) (home : string),
      (forall s r s',
          V1.pass P cfg st home s = (r, s') ->
          (keep_looping s' = true <-> Observe.v1 P cfg st home s)) /\
      (forall bp pat e t,
          V1.locked P t bp pat e = true ->
          exists t', V1.candidate P cfg st home bp pat e t = (Ok Next, t') /\
                     keep_looping t' = keep_looping t /\ fs t' = fs t) /\
      (forall s s' n,
          keep_looping s = true ->
          V1.pass P cfg st home s = (Ok tt, s') ->
          keep_looping s' = false ->
          V1.main_loop P cfg st home (S n) s = Some (Ok tt, s') /\
          fs s' = fs s)).
Proof.
  split; intros cfg st home; (split; [|split]).
  - apply V3_pass_keep.
  - apply V3_locked_skipped.
  - intros s s' n K H K'. split; [|eapply V3_pass_idle; eauto].
    simpl. rewrite K, H. destruct n; simpl; rewrite K'; reflexivity.
  - apply V1_pass_keep.
  - apply V1_locked_skipped.
  - intros s s' n K H K'. split; [|eapply V1_pass_idle; eauto].
    simpl. rewrite K, H. destruct n; simpl; rewrite K'; reflexivity.
Qed.

Lemma keep_looping_iff_unlocked_seen_witness :
  let fresh := with_keep_looping true (boot Example.one_job ["w"]) in
  let done := with_keep_looping true (boot Example.claimed_jobs ["w"]) in
  (Observe.v3 Ref.platform Example.glob_jobs 0 "/w" fresh /\
   exists s', V3.main_loop Ref.platform Example.glob_jobs 0 "/w" 1 done
              = Some (Ok tt, s') /\ fs s' = Example.claimed_jobs) /\
  (Observe.v1 Ref.platform Example.regex_jobs 0 "/w" fresh /\
   exists s', V1.main_loop Ref.platform Example.regex_jobs 0 "/w" 1 done
              = Some (Ok tt, s') /\ fs s' = Example.claimed_jobs).
Proof.
  intros fresh done.
  destruct (keep_looping_iff_unlocked_seen Ref.platform) as [T3 T1].
  destruct (T3 Example.glob_jobs 0 "/w") as (A3 & _ & C3).
  destruct (T1 Example.regex_jobs 0 "/w") as (A1 & _ & C1).
  split; split.
  - destruct (V3.pass Ref.platform Example.glob_jobs 0 "/w" fresh)
      as [r s'] eqn:E.
    apply (A3 _ _ _ E).
    replace s' with (snd (V3.pass Ref.platform Example.glob_jobs 0 "/w" fresh))
      by (rewrite E; reflexivity).
    vm_compute. reflexivity.
  - destruct (V3.pass Ref.platform Example.glob_jobs 0 "/w" done)
      as [r s'] eqn:E.
    assert (R : r = Ok tt).
    { replace r with (fst (V3.pass Ref.platform Example.glob_jobs 0 "/w" done))
        by (rewrite E; reflexivity).
      vm_compute. reflexivity. }
    assert (K : keep_looping s' = false).
    { replace s' with (snd (V3.pass Ref.platform Example.glob_jobs 0 "/w" done))
        by (rewrite E; reflexivity).
      vm_compute. reflexivity. }
    subst r. exists s'. destruct (C3 done s' O eq_refl E K) as [M F].
    split; [exact M | rewrite F; reflexivity].
  - destruct (V1.pass Ref.platform Example.regex_jobs 0 "/w" fresh)
      as [r s'] eqn:E.
    apply (A1 _ _ _ E).
    replace s' with (snd (V1.pass Ref.platform Example.regex_jobs 0 "/w" fresh))
      by (rewrite E; reflexivity).
    vm_compute. reflexivity.
  - destruct (V1.pass Ref.platform Example.regex_jobs 0 "/w" done)
      as [r s'] eqn:E.
    assert (R : r = Ok tt).
    { replace r with (fst (V1.pass Ref.platform Example.regex_jobs 0 "/w" done))
        by (rewrite E; reflexivity).
      vm_compute. reflexivity. }
    assert (K : keep_looping s' = false).
    { replace s' with (snd (V1.pass Ref.platform Example.regex_jobs 0 "/w" done))
        by (rewrite E; reflexivity).
      vm_compute. reflexivity. }
    subst r. exists s'. destruct (C1 done s' O eq_refl E K) as [M F].
    split; [exact M | rewrite F; reflexivity].
Defined.

(** ** A command that cannot be launched *)



Lemma still_chdir p : post still (chdir p) /\ raises_os (chdir p).
Proof.
  unfold chdir, OS.chdir. split; intros s r s' H;
    destruct (OS.stat (fs s) (cwd s) p) as [[|c]|];
    inversion H; subst;
    try (split; simpl; [apply grows_refl | reflexivity]);
    unfold os_error; auto.
Qed.

Lemma open_w_raises f c path e :
  OS.open_w f c path = Raise e -> os_error e.
Proof.
  unfold OS.open_w, OS.parent_error, os_error.
  destruct (String.eqb path ""); [intros H; inversion H; auto|].
  destruct (OS.kind f (OS.resolve c path)) as [[|old]|];
    try (intros H; inversion H; auto; fail).
  destruct (OS.kind f (OS.parent (OS.resolve c path))) as [[|old]|];
    intros H; inversion H; auto.
Qed.

Lemma still_open_w p : post still (open_w p) /\ raises_os (open_w p).
Proof.
  unfold open_w. split; intros s r s' H;
    destruct (OS.open_w (fs s) (cwd s) p) as [[q f']|e] eqn:E;
    inversion H; subst; clear H.
  - apply open_w_ok in E. subst f'. split; simpl; [apply grows_set | auto].
  - apply still_refl.
  - eapply open_w_raises, E.
Qed.







Section Launch.
Variable P : Platform.
Variable e0 : exn.
Hypothesis e0_launch : e0 = FileNotFoundError \/ e0 = PermissionError.





End Launch.

(** What a candidate comes to once [open(lockfile, 'x')] has succeeded. *)
Lemma V3_claimed P cfg st home e s lock f1 :
  V3.unlocked cfg s e = true ->
  OS.open_x (fs s) (cwd s) (V3.lock_of cfg e) = Ok (lock, f1) ->
  V3.candidate P cfg st home e s =
  (V3.held P cfg home e lock ;; V3.evaluate P cfg st)
    (with_fs f1 (with_keep_looping true s)).
Proof.
  unfold V3.unlocked. intros U O. apply andb_true_iff in U.
  destruct U as [D L]. apply negb_true_iff in L.
  rewrite V3_candidate_cases, D, L.
  unfold V3.acquire, V3.held, except_FileExistsError, bind, open_x, write,
    modify, ret, when.
  cbn [fs cwd with_keep_looping with_fs]. rewrite O. reflexivity.
Qed.

Lemma V1_claimed P cfg st home bp pat e s lock f1 :
  V1.unlocked P s bp pat e = true ->
  OS.open_x (fs s) (cwd s) (V1.lock_of bp e) = Ok (lock, f1) ->
  V1.candidate P cfg st home bp pat e s =
  (V1.held P cfg home bp e (V1.lock_of bp e) lock ;; V1.evaluate P cfg st)
    (with_fs f1 (with_keep_looping true s)).
Proof.
  unfold V1.unlocked. intros U O. apply andb_true_iff in U.
  destruct U as [U L]. apply negb_true_iff in L.
  apply andb_true_iff in U. destruct U as [D R].
  rewrite V1_candidate_cases, D, L.
  destruct (re_search P pat e) as [[|]|]; try discriminate.
  unfold V1.claim_and_run, V1.held, finally, except_FileExistsError, bind,
    open_x.
  cbn [fs cwd with_keep_looping with_fs]. rewrite O. reflexivity.
Qed.




(** ** A search root that does not exist *)








(** ** The options [getopt] returns *)

Lemma in_tuple_In x l : Py.in_tuple x l = true -> In x l.
Proof.
  unfold Py.in_tuple. intros H. apply existsb_exists in H.
  destruct H as (y & I & E). apply String.eqb_eq in E. subst. exact I.
Qed.

Lemma drop_last_snoc s c : Py.drop_last (s ++ String c "") = s.
Proof.
  induction s as [|a s IH]; [reflexivity|].
  cbn [append Py.drop_last]. rewrite IH.
  destruct (s ++ String c "") eqn:E; [|reflexivity].
  destruct s; discriminate.
Qed.

Lemma short_has_arg_name opt shortopts b :
  Getopt.short_has_arg opt shortopts = Ok b ->
  In ("-" ++ String opt "") (Names.short_names shortopts).
Proof.
  induction shortopts as [|c rest IH]; simpl; [discriminate|].
  destruct (Ascii.eqb opt c) eqn:E; simpl.
  - apply Ascii.eqb_eq in E. subst c.
    destruct (Ascii.eqb opt ":"); simpl; [intros H; auto|].
    intros _. left. reflexivity.
  - intros H. destruct (Ascii.eqb c ":"); [auto | right; auto].
Qed.

Lemma do_shorts_names shortopts optstring : forall args os args',
  Getopt.do_shorts optstring shortopts args = Ok (os, args') ->
  Forall (fun oa => In (fst oa) (Names.short_names shortopts)) os.
Proof.
  induction optstring as [|opt rest IH]; intros args os args' H; simpl in H.
  - injection H as <- _. constructor.
  - destruct (Getopt.short_has_arg opt shortopts) as [[|]|e] eqn:E;
      [| |discriminate]; apply short_has_arg_name in E.
    + destruct rest.
      * destruct args; [discriminate|]. injection H as <- _.
        constructor; [exact E | constructor].
      * injection H as <- _. constructor; [exact E | constructor].
    + destruct (Getopt.do_shorts rest shortopts args) as [[os' a']|e] eqn:D;
        [|discriminate]. injection H as <- _.
      constructor; [exact E | eapply IH, D].
Qed.

Lemma long_has_args_name opt longopts b name :
  Getopt.long_has_args opt longopts = Ok (b, name) ->
  In ("--" ++ name) (Names.long_names longopts).
Proof.
  unfold Getopt.long_has_args, Names.long_names.
  set (possibilities := filter (fun o => Py.startswith o opt) longopts).
  assert (Sub : forall x, In x possibilities -> In x longopts)
    by (intros x I; apply filter_In in I; tauto).
  intros H. apply in_flat_map.
  destruct possibilities as [|first others] eqn:Pe; [discriminate|].
  destruct (Py.in_tuple opt (first :: others)) eqn:I1.
  - injection H as _ <-. exists opt. split; [apply Sub, in_tuple_In, I1|].
    left. reflexivity.
  - destruct (Py.in_tuple (opt ++ "=") (first :: others)) eqn:I2.
    + injection H as _ <-. exists (opt ++ "=").
      split; [apply Sub, in_tuple_In, I2|]. right. left.
      rewrite drop_last_snoc. reflexivity.
    + destruct others; [|discriminate].
      exists first. split; [apply Sub; left; reflexivity|].
      destruct (Py.endswith_char first "="); injection H as _ <-; simpl; auto.
Qed.

Lemma do_longs_names opt longopts args os args' :
  Getopt.do_longs opt longopts args = Ok (os, args') ->
  Forall (fun oa => In (fst oa) (Names.long_names longopts)) os.
Proof.
  unfold Getopt.do_longs.
  destruct (match Py.cut_at "=" opt with
            | Some (l, r) => (l, Some r)
            | None => (opt, None)
            end) as [o optarg].
  destruct (Getopt.long_has_args o longopts) as [[[|] name]|e] eqn:E;
    [| |discriminate]; apply long_has_args_name in E.
  - destruct optarg; [|destruct args; [discriminate|]];
      intros H; injection H as <- _; constructor; auto.
  - destruct optarg; [discriminate|].
    intros H; injection H as <- _; constructor; auto.
Qed.

Lemma getopt_loop_names shortopts longopts turns : forall args options arguments,
  Getopt.getopt_loop turns args shortopts longopts = Ok (options, arguments) ->
  Forall (fun oa => In (fst oa) (Names.option_names shortopts longopts))
         options.
Proof.
  induction turns as [|turns IH]; intros args options arguments H;
    destruct args as [|a0 rest]; simpl in H;
    try (injection H as <- _; constructor).
  - destruct (Py.startswith a0 "-" && negb (a0 =? "-")%string);
      [destruct (a0 =? "--")%string|]; injection H as <- _; constructor.
  - destruct (Py.startswith a0 "-" && negb (a0 =? "-")%string);
      [|injection H as <- _; constructor].
    destruct (a0 =? "--")%string; [injection H as <- _; constructor|].
    destruct (if Py.startswith a0 "--"
              then Getopt.do_longs (substring 2 (String.length a0) a0)
                                   longopts rest
              else Getopt.do_shorts (substring 1 (String.length a0) a0)
                                    shortopts rest)
      as [[os args']|e] eqn:E; [|discriminate].
    destruct (Getopt.getopt_loop turns args' shortopts longopts)
      as [[os' args'']|e] eqn:L; [|discriminate].
    injection H as <- _. apply Forall_app. split.
    + unfold Names.option_names.
      destruct (Py.startswith a0 "--").
      * apply do_longs_names in E. eapply Forall_impl; [|exact E].
        intros oa I. apply in_or_app. right. exact I.
      * apply do_shorts_names in E. eapply Forall_impl; [|exact E].
        intros oa I. apply in_or_app. left. exact I.
    + eapply IH, L.
Qed.

(** X1. The scripts test [o in ("--maxjobs")], [o in ("--maxhours")] and
    [o in ("--label")]: the parentheses make no tuple, so these are
    substring tests.  Every option name [getopt] returns for the tables of
    either script is one of the names of the tables, and on all of them
    each substring test holds exactly for the option it names. *)
Theorem option_tests_are_equalities (argv : list string)
        (options : Getopt.opts) (arguments : list string) :
  (Getopt.getopt argv V3.shortopts V3.longopts = Ok (options, arguments) ->
   Forall (fun oa =>
             In (fst oa) (Names.option_names V3.shortopts V3.longopts) /\
             Py.contains "--maxjobs" (fst oa) = (fst oa =? "--maxjobs")%string /\
             Py.contains "--maxhours" (fst oa) = (fst oa =? "--maxhours")%string /\
             Py.contains "--label" (fst oa) = (fst oa =? "--label")%string)
          options) /\
  (Getopt.getopt argv V1.shortopts V1.longopts = Ok (options, arguments) ->
   Forall (fun oa =>
             In (fst oa) (Names.option_names V1.shortopts V1.longopts) /\
             Py.contains "--maxjobs" (fst oa) = (fst oa =? "--maxjobs")%string /\
             Py.contains "--maxhours" (fst oa) = (fst oa =? "--maxhours")%string)
          options).
Proof.
  split; intros H; apply getopt_loop_names in H;
    (eapply Forall_impl; [|exact H]); intros [o a] I; cbn [fst] in *;
    (split; [exact I|]).
  - assert (B : forallb (fun o => Names.test_is_equality "--maxjobs" o &&
                                  Names.test_is_equality "--maxhours" o &&
                                  Names.test_is_equality "--label" o)
                        (Names.option_names V3.shortopts V3.longopts) = true)
      by (vm_compute; reflexivity).
    rewrite forallb_forall in B. specialize (B o I).
    apply andb_true_iff in B. destruct B as [B B3].
    apply andb_true_iff in B. destruct B as [B1 B2].
    unfold Names.test_is_equality in *.
    apply Bool.eqb_prop in B1, B2, B3. auto.
  - assert (B : forallb (fun o => Names.test_is_equality "--maxjobs" o &&
                                  Names.test_is_equality "--maxhours" o)
                        (Names.option_names V1.shortopts V1.longopts) = true)
      by (vm_compute; reflexivity).
    rewrite forallb_forall in B. specialize (B o I).
    apply andb_true_iff in B. destruct B as [B1 B2].
    unfold Names.test_is_equality in *.
    apply Bool.eqb_prop in B1, B2. auto.
Qed.

Lemma option_tests_are_equalities_witness :
  let options := [("--maxjobs", "3"); ("-p", "x")] in
  Forall (fun oa =>
            In (fst oa) (Names.option_names V3.shortopts V3.longopts) /\
            Py.contains "--maxjobs" (fst oa) = (fst oa =? "--maxjobs")%string /\
            Py.contains "--maxhours" (fst oa) = (fst oa =? "--maxhours")%string /\
            Py.contains "--label" (fst oa) = (fst oa =? "--label")%string)
         options /\
  Forall (fun oa =>
            In (fst oa) (Names.option_names V1.shortopts V1.longopts) /\
            Py.contains "--maxjobs" (fst oa) = (fst oa =? "--maxjobs")%string /\
            Py.contains "--maxhours" (fst oa) = (fst oa =? "--maxhours")%string)
         options.
Proof.
  intros options.
  destruct (option_tests_are_equalities ["--maxj=3"; "-p"; "x"] options [])
    as [A B].
  split; [apply A | apply B]; vm_compute; reflexivity.
Defined.

(** ** What an accepted command line sets *)

Lemma last_cons {A} (a d : A) l : last (a :: l) d = last l a.
Proof.
  revert a d. induction l as [|b l IH]; intros a d; [reflexivity|].
  change (last (a :: b :: l) d) with (last (b :: l) d).
  rewrite (IH b d), (IH b a). reflexivity.
Qed.

Lemma tests_on_names3 o :
  In o (Names.option_names V3.shortopts V3.longopts) ->
  Py.contains "--maxjobs" o = (o =? "--maxjobs")%string /\
  Py.contains "--maxhours" o = (o =? "--maxhours")%string /\
  Py.contains "--label" o = (o =? "--label")%string.
Proof.
  intros I.
  assert (B : forallb (fun o => Names.test_is_equality "--maxjobs" o &&
                                Names.test_is_equality "--maxhours" o &&
                                Names.test_is_equality "--label" o)
                      (Names.option_names V3.shortopts V3.longopts) = true)
    by (vm_compute; reflexivity).
  rewrite forallb_forall in B. specialize (B o I).
  apply andb_true_iff in B. destruct B as [B B3].
  apply andb_true_iff in B. destruct B as [B1 B2].
  unfold Names.test_is_equality in *.
  apply Bool.eqb_prop in B1, B2, B3. auto.
Qed.

(** One option of an accepted command line of version 0.3.0. *)
Lemma V3_handle_option_ok P cfg o a s cfg' s' :
  In o (Names.option_names V3.shortopts V3.longopts) ->
  V3.handle_option P cfg (o, a) s = (Ok cfg', s') ->
  s' = s /\
  Py.in_tuple o ["-v"; "--version"; "-h"; "--help"] = false /\
  V3.patterns cfg' =
    (V3.patterns cfg ++ Names.args_of ["-p"; "--pattern"] [(o, a)])%list /\
  V3.label cfg' = last (Names.args_of ["--label"] [(o, a)]) (V3.label cfg) /\
  last (map (py_int P) (Names.args_of ["--maxjobs"] [(o, a)]))
       (Some (V3.max_jobs cfg)) = Some (V3.max_jobs cfg') /\
  last (map (py_float P) (Names.args_of ["--maxhours"] [(o, a)]))
       (Some (V3.max_hours cfg)) = Some (V3.max_hours cfg').
Proof.
  intros I. destruct (tests_on_names3 o I) as (T1 & T2 & T3).
  unfold V3.handle_option, Names.args_of, when, bind, print, emit, modify,
    sys_exit, raise, ret.
  cbn [flat_map fst snd]. rewrite T1, T2, T3.
  change (Py.in_tuple o ["-v"; "--version"; "-h"; "--help"])
    with ((o =? "-v")%string || ((o =? "--version")%string ||
          ((o =? "-h")%string || ((o =? "--help")%string || false)))).
  change (Py.in_tuple o ["-v"; "--version"])
    with ((o =? "-v")%string || ((o =? "--version")%string || false)).
  change (Py.in_tuple o ["-h"; "--help"])
    with ((o =? "-h")%string || ((o =? "--help")%string || false)).
  change (Py.in_tuple o ["--label"]) with ((o =? "--label")%string || false).
  change (Py.in_tuple o ["--maxjobs"])
    with ((o =? "--maxjobs")%string || false).
  change (Py.in_tuple o ["--maxhours"])
    with ((o =? "--maxhours")%string || false).
  rewrite !orb_false_r.
  destruct (o =? "-v")%string; [discriminate|].
  destruct (o =? "--version")%string; [discriminate|].
  destruct (o =? "-h")%string; [discriminate|].
  destruct (o =? "--help")%string; [discriminate|].
  cbn [orb].
  destruct (py_int P a) as [z|] eqn:EJ; destruct (py_float P a) as [h|] eqn:EF;
  destruct (Py.in_tuple o ["-p"; "--pattern"]);
  destruct (Py.in_tuple o ["-c"; "--cmd"]);
  destruct (o =? "--maxjobs")%string;
  destruct (o =? "--maxhours")%string;
  destruct (o =? "--label")%string;
  cbn [app map last]; intros H; inversion H; subst; cbn;
  rewrite ?app_nil_r; auto 10.
Qed.

Lemma args_of_cons names oa options :
  Names.args_of names (oa :: options) =
  (Names.args_of names [oa] ++ Names.args_of names options)%list.
Proof. unfold Names.args_of. cbn [flat_map]. rewrite app_nil_r. reflexivity. Qed.

Lemma last_app_default {A} (l1 l2 : list A) d :
  last (l1 ++ l2) d = last l2 (last l1 d).
Proof.
  revert d. induction l1 as [|a l1 IH]; intros d; [reflexivity|].
  rewrite <- app_comm_cons, !last_cons. apply IH.
Qed.

Lemma V3_options_ok P options : forall cfg s cfg' s',
  Forall (fun oa => In (fst oa) (Names.option_names V3.shortopts V3.longopts))
         options ->
  fold_m (V3.handle_option P) options cfg s = (Ok cfg', s') ->
  s' = s /\
  Names.args_of ["-v"; "--version"; "-h"; "--help"] options = [] /\
  V3.patterns cfg' =
    (V3.patterns cfg ++ Names.args_of ["-p"; "--pattern"] options)%list /\
  V3.label cfg' = last (Names.args_of ["--label"] options) (V3.label cfg) /\
  last (map (py_int P) (Names.args_of ["--maxjobs"] options))
       (Some (V3.max_jobs cfg)) = Some (V3.max_jobs cfg') /\
  last (map (py_float P) (Names.args_of ["--maxhours"] options))
       (Some (V3.max_hours cfg)) = Some (V3.max_hours cfg').
Proof.
  induction options as [|[o a] options IH]; intros cfg s cfg' s' F H;
    simpl in H.
  - injection H as <- <-. cbn. rewrite app_nil_r. auto 10.
  - inversion F as [|x l I F']; subst. cbn [fst] in I.
    apply bind_inv in H. destruct H as [(c1 & s1 & H1 & H2)|(e & _ & He)];
      [|discriminate].
    destruct (V3_handle_option_ok _ _ _ _ _ _ _ I H1)
      as (-> & V & Pt & Lb & Mj & Mh).
    destruct (IH _ _ _ _ F' H2) as (-> & V' & Pt' & Lb' & Mj' & Mh').
    split; [reflexivity|].
    rewrite !(args_of_cons _ (o, a) options), !map_app, !last_app_default.
    rewrite Mj, Mh, <- Lb, Pt', Pt, V', <- app_assoc.
    repeat split; auto.
    unfold Names.args_of. cbn [flat_map fst]. rewrite V. reflexivity.
Qed.

Lemma when_false (c : bool) (body : M unit) s s' :
  when c body s = (Ok tt, s') -> (forall t r t', body t = (r, t') -> r <> Ok tt) ->
  c = false /\ s' = s.
Proof.
  destruct c; simpl; intros H N.
  - exfalso. eapply N; eauto.
  - injection H as <-. auto.
Qed.

Lemma raises_not_ok {A} (e : exn) t (r : result A) t' :
  @raise A e t = (r, t') -> forall a, r <> Ok a.
Proof. intros H a. inversion H; subst. discriminate. Qed.

Lemma print_exit_not_ok l n t (r : result unit) t' :
  (print l ;; exit n) t = (r, t') -> r <> Ok tt.
Proof. intros H. inversion H; subst. discriminate. Qed.

Lemma forallb_int P arguments :
  forallb (fun arg => match py_int P arg with Some _ => true | None => false end)
          arguments = true ->
  Forall (fun a => py_int P a <> None) arguments.
Proof.
  intros H. apply Forall_forall. intros a I.
  rewrite forallb_forall in H. specialize (H a I).
  destruct (py_int P a); [discriminate | discriminate].
Qed.

Lemma length_zero_iff {A} (l : list A) :
  Nat.eqb (List.length l) 0 = false -> l <> [].
Proof. destruct l; [discriminate | intros _; discriminate]. Qed.

(** What version 0.3.0 has set when it is past its command line. *)
Lemma V3_parse_ok (P : Platform) (argv : list string)
        (s : State) (cfg : V3.Config) (s' : State) :
  V3.parse P argv s = (Ok cfg, s') ->
  s' = s /\
  exists options arguments,
    Getopt.getopt argv V3.shortopts V3.longopts = Ok (options, arguments) /\
    Names.args_of ["-v"; "--version"; "-h"; "--help"] options = [] /\
    V3.patterns cfg = Names.args_of ["-p"; "--pattern"] options /\
    V3.patterns cfg <> [] /\
    V3.cmd cfg <> [] /\
    V3.label cfg = last (Names.args_of ["--label"] options) "worker" /\
    last (map (py_int P) (Names.args_of ["--maxjobs"] options))
         (Some Py.maxsize) = Some (V3.max_jobs cfg) /\
    last (map (py_float P) (Names.args_of ["--maxhours"] options))
         (Some Py.PosInf) = Some (V3.max_hours cfg) /\
    Forall (fun a => py_int P a <> None) arguments.
Proof.
  unfold V3.parse.
  destruct (Getopt.getopt argv V3.shortopts V3.longopts)
    as [[options arguments]|e] eqn:G; [|discriminate].
  intros H.
  apply bind_inv in H. destruct H as [(c1 & s1 & H1 & H)|(e & _ & He)];
    [|discriminate].
  apply getopt_loop_names in G.
  destruct (V3_options_ok _ _ _ _ _ _ G H1) as (-> & V & Pt & Lb & Mj & Mh).
  apply bind_inv in H. destruct H as [([] & s2 & W1 & H)|(e & _ & He)];
    [|discriminate].
  apply when_false in W1; [|intros t r t' X; eapply raises_not_ok, X].
  destruct W1 as [W1 ->].
  apply bind_inv in H. destruct H as [([] & s3 & W2 & H)|(e & _ & He)];
    [|discriminate].
  apply when_false in W2; [|intros t r t' X; eapply print_exit_not_ok, X].
  destruct W2 as [W2 ->].
  apply bind_inv in H. destruct H as [([] & s4 & W3 & H)|(e & _ & He)];
    [|discriminate].
  apply when_false in W3; [|intros t r t' X; eapply print_exit_not_ok, X].
  destruct W3 as [W3 ->].
  injection H as <- <-. split; [reflexivity|].
  exists options, arguments. split; [reflexivity|].
  apply negb_false_iff in W1.
  repeat split; auto using forallb_int, length_zero_iff.
Qed.

Lemma V1_handle_option_ok st o a s st' s' :
  V1.handle_option st (o, a) s = (Ok st', s') ->
  s' = s /\
  Py.in_tuple o ["-v"; "--version"; "-h"; "--help"] = false /\
  V1.basepaths (fst st') =
    (V1.basepaths (fst st) ++ Names.args_of ["-b"; "--basepath"] [(o, a)])%list /\
  V1.patterns (fst st') =
    (V1.patterns (fst st) ++ Names.args_of ["-p"; "--pattern"] [(o, a)])%list.
Proof.
  destruct st as [cfg loc].
  unfold V1.handle_option, Names.args_of, when, bind, print, emit, modify,
    sys_exit, raise, ret.
  cbn [flat_map fst snd].
  change (Py.in_tuple o ["-v"; "--version"; "-h"; "--help"])
    with ((o =? "-v")%string || ((o =? "--version")%string ||
          ((o =? "-h")%string || ((o =? "--help")%string || false)))).
  change (Py.in_tuple o ["-v"; "--version"])
    with ((o =? "-v")%string || ((o =? "--version")%string || false)).
  change (Py.in_tuple o ["-h"; "--help"])
    with ((o =? "-h")%string || ((o =? "--help")%string || false)).
  rewrite !orb_false_r.
  destruct (o =? "-v")%string; [discriminate|].
  destruct (o =? "--version")%string; [discriminate|].
  destruct (o =? "-h")%string; [discriminate|].
  destruct (o =? "--help")%string; [discriminate|].
  cbn [orb].
  destruct (Py.in_tuple o ["-b"; "--basepath"]);
  destruct (Py.in_tuple o ["-p"; "--pattern"]);
  destruct (Py.in_tuple o ["-c"; "--cmd"]);
  cbn [app]; intros H; inversion H; subst; cbn;
  rewrite ?app_nil_r; auto.
Qed.

Lemma V1_options_ok options : forall st s st' s',
  fold_m V1.handle_option options st s = (Ok st', s') ->
  s' = s /\
  Names.args_of ["-v"; "--version"; "-h"; "--help"] options = [] /\
  V1.basepaths (fst st') =
    (V1.basepaths (fst st) ++ Names.args_of ["-b"; "--basepath"] options)%list /\
  V1.patterns (fst st') =
    (V1.patterns (fst st) ++ Names.args_of ["-p"; "--pattern"] options)%list.
Proof.
  induction options as [|[o a] options IH]; intros st s st' s' H; simpl in H.
  - injection H as <- <-. cbn. rewrite !app_nil_r. auto.
  - apply bind_inv in H. destruct H as [(c1 & s1 & H1 & H2)|(e & _ & He)];
      [|discriminate].
    destruct (V1_handle_option_ok _ _ _ _ _ _ H1) as (-> & V & Bp & Pt).
    destruct (IH _ _ _ _ H2) as (-> & V' & Bp' & Pt').
    split; [reflexivity|].
    rewrite !(args_of_cons _ (o, a) options).
    rewrite Bp', Bp, Pt', Pt, V', <- !app_assoc.
    repeat split; auto.
    unfold Names.args_of. cbn [flat_map fst]. rewrite V. reflexivity.
Qed.

Lemma V1_parse_ok P argv s cfg s' :
  V1.parse P argv s = (Ok cfg, s') ->
  s' = s /\
  exists options arguments,
    Getopt.getopt argv V1.shortopts V1.longopts = Ok (options, arguments) /\
    Names.args_of ["-v"; "--version"; "-h"; "--help"] options = [] /\
    V1.basepaths cfg = Names.args_of ["-b"; "--basepath"] options /\
    V1.patterns cfg = Names.args_of ["-p"; "--pattern"] options /\
    V1.basepaths cfg <> [] /\ V1.patterns cfg <> [] /\ V1.cmd cfg <> [] /\
    Forall (fun a => py_int P a <> None) arguments.
Proof.
  unfold V1.parse.
  destruct (Getopt.getopt argv V1.shortopts V1.longopts)
    as [[options arguments]|e] eqn:G; [|discriminate].
  intros H.
  apply bind_inv in H. destruct H as [(c1 & s1 & H1 & H)|(e & _ & He)];
    [|discriminate].
  destruct (V1_options_ok _ _ _ _ _ H1) as (-> & V & Bp & Pt).
  cbn [fst V1.defaults V1.basepaths V1.patterns app] in Bp, Pt.
  apply bind_inv in H. destruct H as [([] & s2 & W1 & H)|(e & _ & He)];
    [|discriminate].
  apply when_false in W1; [|intros t r t' X; eapply raises_not_ok, X].
  destruct W1 as [W1 ->].
  apply bind_inv in H. destruct H as [([] & s3 & W2 & H)|(e & _ & He)];
    [|discriminate].
  apply when_false in W2; [|intros t r t' X; eapply raises_not_ok, X].
  destruct W2 as [W2 ->].
  apply bind_inv in H. destruct H as [([] & s4 & W3 & H)|(e & _ & He)];
    [|discriminate].
  apply when_false in W3; [|intros t r t' X; eapply raises_not_ok, X].
  destruct W3 as [W3 ->].
  apply bind_inv in H. destruct H as [([] & s5 & W4 & H)|(e & _ & He)];
    [|discriminate].
  apply when_false in W4; [|intros t r t' X; eapply raises_not_ok, X].
  destruct W4 as [W4 ->].
  injection H as <- <-. split; [reflexivity|].
  exists options, arguments. split; [reflexivity|].
  apply negb_false_iff in W1.
  repeat split; auto using forallb_int, length_zero_iff.
Qed.

(** What stands between the command line and the loop. *)
Lemma V3_setup_inv P argv s cfg st home s' :
  V3.setup P argv s = (Ok (cfg, st, home), s') ->
  V3.parse P argv s = (Ok cfg, s) /\
  st = clock P (reads s) /\ home = OS.render (cwd s) /\
  fs s' = fs s /\ cwd s' = cwd s /\ reads s' = S (reads s) /\
  keep_looping s' = true /\ processed_jobs s' = 0 /\
  out s' = (out s ++ [LogInfo (MsgWorkerId (worker_id P));
                      LogInfo (MsgWorkingDir home)])%list.
Proof.
  unfold V3.setup. intros H.
  apply bind_inv in H. destruct H as [(c1 & s1 & H1 & H)|(e & _ & He)];
    [|discriminate].
  destruct (V3_parse_ok _ _ _ _ _ H1) as [-> _].
  unfold bind, now, modify, info, emit, modify, getcwd, ret in H.
  injection H as <- <- <- <-. cbn. rewrite <- app_assoc. auto 10.
Qed.

Lemma V1_setup_inv P argv s cfg st home s' :
  V1.setup P argv s = (Ok (cfg, st, home), s') ->
  V1.parse P argv s = (Ok cfg, s) /\
  List.length (V1.basepaths cfg) = List.length (V1.patterns cfg) /\
  st = clock P (reads s) /\ home = OS.render (cwd s) /\
  fs s' = fs s /\ cwd s' = cwd s /\ reads s' = S (reads s) /\
  keep_looping s' = true /\ processed_jobs s' = 0 /\
  out s' = (out s ++ [LogInfo (MsgWorkerId (worker_id P));
                      LogInfo (MsgWorkingDir home)])%list.
Proof.
  unfold V1.setup. intros H.
  apply bind_inv in H. destruct H as [(c1 & s1 & H1 & H)|(e & _ & He)];
    [|discriminate].
  destruct (V1_parse_ok _ _ _ _ _ H1) as [-> _].
  unfold bind, now, modify, info, emit, modify, getcwd, ret, when, raise in H.
  cbv beta iota in H.
  destruct (Nat.eqb (List.length (V1.basepaths c1))
                    (List.length (V1.patterns c1))) eqn:L;
    cbn [negb] in H; [|discriminate].
  apply Nat.eqb_eq in L.
  injection H as <- <- <- <-. cbn. rewrite <- app_assoc. auto 12.
Qed.

(** X2. When version 0.3.0 gets past its command line and set-up, the
    command line held no version or help option; the patterns are the
    arguments of its [-p]/[--pattern] options in order, and there is at
    least one, as there is a command; the label, the job limit and the hour
    limit are those of the last [--label], [--maxjobs] and [--maxhours]
    option (read by [int] and [float]), or the defaults; every positional
    argument is one that [int] reads; the start time is the first reading
    of the clock, the home path is the working directory, and the loop
    starts with [keep_looping] set and no job counted, in the world the
    script was started in, with the two start-up lines logged. *)
Theorem V3_accepted_command_line (P : Platform) (argv : list string)
        (s : State) (cfg : V3.Config) (st : Z) (home : string) (s' : State) :
  V3.setup P argv s = (Ok (cfg, st, home), s') ->
  (exists options arguments,
      Getopt.getopt argv V3.shortopts V3.longopts = Ok (options, arguments) /\
      Names.args_of ["-v"; "--version"; "-h"; "--help"] options = [] /\
      V3.patterns cfg = Names.args_of ["-p"; "--pattern"] options /\
      V3.label cfg = last (Names.args_of ["--label"] options) "worker" /\
      last (map (py_int P) (Names.args_of ["--maxjobs"] options))
           (Some Py.maxsize) = Some (V3.max_jobs cfg) /\
      last (map (py_float P) (Names.args_of ["--maxhours"] options))
           (Some Py.PosInf) = Some (V3.max_hours cfg) /\
      Forall (fun a => py_int P a <> None) arguments) /\
  V3.patterns cfg <> [] /\ V3.cmd cfg <> [] /\
  st = clock P (reads s) /\ home = OS.render (cwd s) /\
  fs s' = fs s /\ cwd s' = cwd s /\
  keep_looping s' = true /\ processed_jobs s' = 0 /\
  out s' = (out s ++ [LogInfo (MsgWorkerId (worker_id P));
                      LogInfo (MsgWorkingDir home)])%list.
Proof.
  intros H.
  destruct (V3_setup_inv _ _ _ _ _ _ _ H)
    as (Hp & St & Hm & F & C & _ & K & Pj & O).
  destruct (V3_parse_ok _ _ _ _ _ Hp)
    as (_ & options & arguments & G & V & Pt & Np & Nc & Lb & Mj & Mh & Fi).
  split; [exists options, arguments; auto 10|]. auto 12.
Qed.

Lemma V3_accepted_command_line_witness :
  let s := boot Example.five_jobs ["w"] in
  let argv := ["-p"; "job*"; "--cmd=echo hi"; "--maxjobs=2"; "--label=w1"] in
  exists cfg st home s',
    V3.setup Ref.platform argv s = (Ok (cfg, st, home), s') /\
    V3.patterns cfg <> [] /\ V3.cmd cfg <> [] /\
    fs s' = fs s /\ cwd s' = cwd s /\
    keep_looping s' = true /\ processed_jobs s' = 0.
Proof.
  intros s argv.
  let r := eval vm_compute in (V3.setup Ref.platform argv s) in
  match r with
  | (Ok (?c, ?st, ?h), ?s1) =>
      assert (E : V3.setup Ref.platform argv s = (Ok (c, st, h), s1))
        by (vm_compute; reflexivity);
      exists c, st, h, s1
  end.
  split; [exact E|].
  destruct (V3_accepted_command_line _ _ _ _ _ _ _ E)
    as (_ & A & B & _ & _ & F & C & K & Pj & _).
  auto 10.
Defined.

(** X3. When version 0.1 gets past its command line and set-up, the base
    paths and the patterns are the arguments of the [-b] and [-p] options
    in order, there are as many of the ones as of the others and at least
    one, there is a command, both limits are [sys.maxsize], the start time
    is the first reading of the clock, the home path is the working
    directory, and the loop starts with [keep_looping] set and no job
    counted, in the world the script was started in. *)
Theorem V1_accepted_command_line (P : Platform) (argv : list string)
        (s : State) (cfg : V1.Config) (st : Z) (home : string) (s' : State) :
  V1.setup P argv s = (Ok (cfg, st, home), s') ->
  (exists options arguments,
      Getopt.getopt argv V1.shortopts V1.longopts = Ok (options, arguments) /\
      Names.args_of ["-v"; "--version"; "-h"; "--help"] options = [] /\
      V1.basepaths cfg = Names.args_of ["-b"; "--basepath"] options /\
      V1.patterns cfg = Names.args_of ["-p"; "--pattern"] options /\
      Forall (fun a => py_int P a <> None) arguments) /\
  List.length (V1.basepaths cfg) = List.length (V1.patterns cfg) /\
  V1.basepaths cfg <> [] /\ V1.cmd cfg <> [] /\
  V1.max_jobs cfg = Py.maxsize /\ V1.max_hours cfg = Py.maxsize /\
  st = clock P (reads s) /\ home = OS.render (cwd s) /\
  fs s' = fs s /\ cwd s' = cwd s /\
  keep_looping s' = true /\ processed_jobs s' = 0.
Proof.
  intros H.
  destruct (V1_setup_inv _ _ _ _ _ _ _ H)
    as (Hp & L & St & Hm & F & C & _ & K & Pj & _).
  destruct (V1_parse_ok _ _ _ _ _ Hp)
    as (_ & options & arguments & G & V & Bp & Pt & Nb & _ & Nc & Fi).
  destruct (V1_parse_limits _ _ _ _ _ Hp) as [Mj Mh].
  split; [exists options, arguments; auto 10|]. auto 12.
Qed.

Lemma V1_accepted_command_line_witness :
  let s := boot Example.five_jobs ["w"] in
  let argv := ["-b"; "/w"; "-p"; "job"; "-c"; "true"; "--maxjobs=2"] in
  exists cfg st home s',
    V1.setup Ref.platform argv s = (Ok (cfg, st, home), s') /\
    List.length (V1.basepaths cfg) = List.length (V1.patterns cfg) /\
    V1.max_jobs cfg = Py.maxsize /\ V1.max_hours cfg = Py.maxsize /\
    fs s' = fs s /\ cwd s' = cwd s /\
    keep_looping s' = true /\ processed_jobs s' = 0.
Proof.
  intros s argv.
  let r := eval vm_compute in (V1.setup Ref.platform argv s) in
  match r with
  | (Ok (?c, ?st, ?h), ?s1) =>
      assert (E : V1.setup Ref.platform argv s = (Ok (c, st, h), s1))
        by (vm_compute; reflexivity);
      exists c, st, h, s1
  end.
  split; [exact E|].
  destruct (V1_accepted_command_line _ _ _ _ _ _ _ E)
    as (_ & L & _ & _ & Mj & Mh & _ & _ & F & C & K & Pj).
  auto 10.
Defined.

(** ** What a rejected command line does *)

Lemma short_has_arg_raises opt shortopts e :
  Getopt.short_has_arg opt shortopts = Raise e -> exists m o, e = GetoptError m o.
Proof.
  induction shortopts as [|c rest IH]; simpl.
  - intros H. injection H as <-. eauto.
  - destruct (Ascii.eqb opt c && negb (Ascii.eqb c ":")); [discriminate|auto].
Qed.

Lemma do_shorts_raises shortopts optstring : forall args e,
  Getopt.do_shorts optstring shortopts args = Raise e ->
  exists m o, e = GetoptError m o.
Proof.
  induction optstring as [|opt rest IH]; intros args e H; simpl in H;
    [discriminate|].
  destruct (Getopt.short_has_arg opt shortopts) as [[|]|e0] eqn:E.
  - destruct rest; [|discriminate].
    destruct args; [|discriminate]. injection H as <-. eauto.
  - destruct (Getopt.do_shorts rest shortopts args) as [[os a']|e1] eqn:D;
      [discriminate|]. injection H as <-. eapply IH, D.
  - injection H as <-. eapply short_has_arg_raises, E.
Qed.

Lemma do_longs_raises opt longopts args e :
  Getopt.do_longs opt longopts args = Raise e -> exists m o, e = GetoptError m o.
Proof.
  unfold Getopt.do_longs, Getopt.long_has_args.
  destruct (match Py.cut_at "=" opt with
            | Some (l, r) => (l, Some r)
            | None => (opt, None)
            end) as [o optarg].
  destruct (filter (fun x => Py.startswith x o) longopts) as [|first others].
  - intros H. injection H as <-. eauto.
  - destruct (Py.in_tuple o (first :: others)).
    + destruct optarg; intros H; [injection H as <-; eauto | discriminate].
    + destruct (Py.in_tuple (o ++ "=") (first :: others)).
      * destruct optarg; [discriminate|].
        destruct args; intros H; [injection H as <-; eauto | discriminate].
      * destruct others; [|intros H; injection H as <-; eauto].
        destruct (Py.endswith_char first "=").
        -- destruct optarg; [discriminate|].
           destruct args; intros H; [injection H as <-; eauto | discriminate].
        -- destruct optarg; intros H; [injection H as <-; eauto | discriminate].
Qed.

Lemma getopt_loop_raises shortopts longopts turns : forall args e,
  Getopt.getopt_loop turns args shortopts longopts = Raise e ->
  exists m o, e = GetoptError m o.
Proof.
  induction turns as [|turns IH]; intros args e H;
    destruct args as [|a0 rest]; simpl in H; try discriminate.
  - destruct (Py.startswith a0 "-" && negb (a0 =? "-")%string);
      [destruct (a0 =? "--")%string|]; discriminate.
  - destruct (Py.startswith a0 "-" && negb (a0 =? "-")%string);
      [|discriminate].
    destruct (a0 =? "--")%string; [discriminate|].
    destruct (Py.startswith a0 "--").
    + destruct (Getopt.do_longs _ longopts rest) as [[os args']|e0] eqn:E.
      * destruct (Getopt.getopt_loop turns args' shortopts longopts)
          as [[os' args'']|e1] eqn:L; [discriminate|].
        injection H as <-. eapply IH, L.
      * injection H as <-. eapply do_longs_raises, E.
    + destruct (Getopt.do_shorts _ shortopts rest) as [[os args']|e0] eqn:E.
      * destruct (Getopt.getopt_loop turns args' shortopts longopts)
          as [[os' args'']|e1] eqn:L; [discriminate|].
        injection H as <-. eapply IH, L.
      * injection H as <-. eapply do_shorts_raises, E.
Qed.

Lemma V3_handle_option_raises P cfg o a s e s' :
  V3.handle_option P cfg (o, a) s = (Raise e, s') ->
  (e = SystemExit ExitNone /\
   (s' = with_out (out s ++ [Print VERSION]) s \/
    s' = with_out (out s ++ [Print VERSION; Print USAGE]) s)) \/
  (e = ValueError /\ s' = s).
Proof.
  unfold V3.handle_option, when, bind, print, emit, modify, sys_exit, raise,
    ret.
  destruct (Py.in_tuple o ["-v"; "--version"]).
  - intros H. injection H as <- <-. left. auto.
  - destruct (Py.in_tuple o ["-h"; "--help"]).
    + intros H. injection H as <- <-. left. split; [reflexivity|]. right.
      cbn. rewrite <- app_assoc. reflexivity.
    + destruct (Py.in_tuple o ["-p"; "--pattern"]);
      destruct (Py.in_tuple o ["-c"; "--cmd"]);
      destruct (Py.contains "--maxjobs" o); try destruct (py_int P a);
      destruct (Py.contains "--maxhours" o); try destruct (py_float P a);
      destruct (Py.contains "--label" o);
      intros H; inversion H; subst; right; auto.
Qed.

Lemma V3_options_raise P options : forall cfg s e s',
  Forall (fun oa => In (fst oa) (Names.option_names V3.shortopts V3.longopts))
         options ->
  fold_m (V3.handle_option P) options cfg s = (Raise e, s') ->
  (e = SystemExit ExitNone /\
   (s' = with_out (out s ++ [Print VERSION]) s \/
    s' = with_out (out s ++ [Print VERSION; Print USAGE]) s)) \/
  (e = ValueError /\ s' = s).
Proof.
  induction options as [|[o a] options IH]; intros cfg s e s' F H;
    simpl in H; [discriminate|].
  inversion F as [|x l I F']; subst. cbn [fst] in I.
  apply bind_inv in H. destruct H as [(c1 & s1 & H1 & H2)|(e0 & H1 & He)].
  - destruct (V3_handle_option_ok _ _ _ _ _ _ _ I H1) as (-> & _).
    eapply IH; eauto.
  - injection He as ->. eapply V3_handle_option_raises, H1.
Qed.

(** X4. A command line that version 0.3.0 rejects changes nothing but the
    output, and ends in one of three ways: with [sys.exit()] (status 0)
    right after the version, or the version and the usage, were printed;
    with [exit(1)] right after the line that asks for a pattern or for a
    command was printed; or with nothing printed and a [ValueError] (a
    limit [int] or [float] rejects), [SystemExit(USAGE)] (a positional
    argument [int] rejects) or [GetoptError]. *)
Theorem V3_rejected_command_line (P : Platform) (argv : list string)
        (s : State) (e : exn) (s' : State) :
  V3.parse P argv s = (Raise e, s') ->
  Names.only_output s s' /\
  ((e = SystemExit ExitNone /\
    (out s' = (out s ++ [Print VERSION])%list \/
     out s' = (out s ++ [Print VERSION; Print USAGE])%list)) \/
   (e = SystemExit (ExitCode 1) /\
    (out s' = (out s ++ [Print (Line
        "Must provide at least one pattern. Use -h for help")])%list \/
     out s' = (out s ++ [Print (Line
        "Must provide a command. Use -h for help")])%list)) \/
   (out s' = out s /\
    (e = ValueError \/ e = SystemExit (ExitText USAGE) \/
     exists m o, e = GetoptError m o))).
Proof.
  unfold V3.parse, Names.only_output.
  destruct (Getopt.getopt argv V3.shortopts V3.longopts)
    as [[options arguments]|e0] eqn:G.
  - pose proof (getopt_loop_names _ _ _ _ _ _ G) as F. intros H.
    apply bind_inv in H. destruct H as [(c1 & s1 & H1 & H)|(e1 & H1 & He)].
    + destruct (V3_options_ok _ _ _ _ _ _ F H1) as (-> & _).
      unfold when, bind, raise, print, emit, modify, exit, ret in H.
      destruct (negb _); [injection H as <- <-; destruct s; cbn; auto 10|].
      destruct (Nat.eqb (List.length (V3.patterns c1)) 0);
        [injection H as <- <-; destruct s; cbn; auto 10|].
      destruct (Nat.eqb (List.length (V3.cmd c1)) 0);
        [injection H as <- <-; destruct s; cbn; auto 10|discriminate].
    + injection He as ->.
      destruct (V3_options_raise _ _ _ _ _ _ F H1)
        as [(-> & [-> | ->]) | (-> & ->)]; destruct s; cbn; auto 10.
  - intros H. injection H as <- <-.
    destruct (getopt_loop_raises _ _ _ _ _ G) as (m & o & ->).
    destruct s; cbn. split; [reflexivity|]. right. right. eauto 10.
Qed.

Lemma V3_rejected_command_line_witness :
  let s := boot Example.five_jobs ["w"] in
  let argv := ["-p"; "job*"; "--maxjobs=many"; "-c"; "true"] in
  exists e s',
    V3.parse Ref.platform argv s = (Raise e, s') /\
    Names.only_output s s'.
Proof.
  intros s argv.
  let r := eval vm_compute in (V3.parse Ref.platform argv s) in
  match r with
  | (Raise ?e, ?s1) =>
      assert (E : V3.parse Ref.platform argv s = (Raise e, s1))
        by (vm_compute; reflexivity);
      exists e, s1
  end.
  split; [exact E|].
  exact (proj1 (V3_rejected_command_line _ _ _ _ _ E)).
Defined.

Lemma V1_handle_option_raises st o a s e s' :
  V1.handle_option st (o, a) s = (Raise e, s') ->
  e = SystemExit ExitNone /\
  (s' = with_out (out s ++ [Print VERSION]) s \/
   s' = with_out (out s ++ [Print USAGE]) s).
Proof.
  destruct st as [cfg loc].
  unfold V1.handle_option, when, bind, print, emit, modify, sys_exit, raise,
    ret.
  destruct (Py.in_tuple o ["-v"; "--version"]).
  - intros H. injection H as <- <-. auto.
  - destruct (Py.in_tuple o ["-h"; "--help"]).
    + intros H. injection H as <- <-. auto.
    + discriminate.
Qed.

Lemma V1_options_raise options : forall st s e s',
  fold_m V1.handle_option options st s = (Raise e, s') ->
  e = SystemExit ExitNone /\
  (s' = with_out (out s ++ [Print VERSION]) s \/
   s' = with_out (out s ++ [Print USAGE]) s).
Proof.
  induction options as [|[o a] options IH]; intros st s e s' H;
    simpl in H; [discriminate|].
  apply bind_inv in H. destruct H as [(c1 & s1 & H1 & H2)|(e0 & H1 & He)].
  - destruct (V1_handle_option_ok _ _ _ _ _ _ H1) as (-> & _).
    eapply IH; eauto.
  - injection He as ->. eapply V1_handle_option_raises, H1.
Qed.

Lemma V1_parse_raises P argv s e s' :
  V1.parse P argv s = (Raise e, s') ->
  (e = SystemExit ExitNone /\
   (s' = with_out (out s ++ [Print VERSION]) s \/
    s' = with_out (out s ++ [Print USAGE]) s)) \/
  (s' = s /\
   (e = SystemExit (ExitText USAGE) \/
    e = RuntimeError "Must provide at least one basepath" \/
    e = RuntimeError "Must provide at least one pattern" \/
    e = RuntimeError "Must provide a command" \/
    exists m o, e = GetoptError m o)).
Proof.
  unfold V1.parse.
  destruct (Getopt.getopt argv V1.shortopts V1.longopts)
    as [[options arguments]|e0] eqn:G.
  - intros H.
    apply bind_inv in H. destruct H as [(c1 & s1 & H1 & H)|(e1 & H1 & He)].
    + destruct (V1_options_ok _ _ _ _ _ H1) as (-> & _).
      unfold when, bind, raise, ret in H.
      destruct (negb _); [injection H as <- <-; auto 10|].
      destruct (Nat.eqb (List.length (V1.basepaths (fst c1))) 0);
        [injection H as <- <-; auto 10|].
      destruct (Nat.eqb (List.length (V1.patterns (fst c1))) 0);
        [injection H as <- <-; auto 10|].
      destruct (Nat.eqb (List.length (V1.cmd (fst c1))) 0);
        [injection H as <- <-; auto 10|discriminate].
    + injection He as ->. left. eapply V1_options_raise, H1.
  - intros H. injection H as <- <-.
    destruct (getopt_loop_raises _ _ _ _ _ G) as (m & o & ->).
    right. split; [reflexivity|]. eauto 10.
Qed.

(** X5. When version 0.1 does not get past its command line and set-up, the
    file system and the working directory are untouched, and it ends in
    one of three ways: with [sys.exit()] right after the version or the
    usage was printed; with nothing printed and the clock not read, on
    [SystemExit(USAGE)], a [RuntimeError] for a missing base path, pattern
    or command, or [GetoptError]; or, the command line being accepted, with
    the [RuntimeError] for unequal numbers of base paths and patterns,
    after the clock was read and the two start-up lines were logged. *)
Theorem V1_rejected_command_line (P : Platform) (argv : list string)
        (s : State) (e : exn) (s' : State) :
  V1.setup P argv s = (Raise e, s') ->
  fs s' = fs s /\ cwd s' = cwd s /\
  ((e = SystemExit ExitNone /\
    (out s' = (out s ++ [Print VERSION])%list \/
     out s' = (out s ++ [Print USAGE])%list)) \/
   (out s' = out s /\ reads s' = reads s /\
    (e = SystemExit (ExitText USAGE) \/
     e = RuntimeError "Must provide at least one basepath" \/
     e = RuntimeError "Must provide at least one pattern" \/
     e = RuntimeError "Must provide a command" \/
     exists m o, e = GetoptError m o)) \/
   (e = RuntimeError
          "Length of basepaths is not equal to length of patterns" /\
    reads s' = S (reads s) /\
    out s' = (out s ++ [LogInfo (MsgWorkerId (worker_id P));
                        LogInfo (MsgWorkingDir (OS.render (cwd s)))])%list /\
    exists cfg, V1.parse P argv s = (Ok cfg, s) /\
                List.length (V1.basepaths cfg)
                <> List.length (V1.patterns cfg))).
Proof.
  unfold V1.setup. intros H.
  apply bind_inv in H. destruct H as [(c1 & s1 & H1 & H)|(e1 & H1 & He)].
  - destruct (V1_parse_ok _ _ _ _ _ H1) as [-> _].
    unfold bind, now, modify, info, emit, modify, getcwd, ret, when, raise in H.
    cbv beta iota in H.
    destruct (Nat.eqb (List.length (V1.basepaths c1))
                      (List.length (V1.patterns c1))) eqn:L;
      cbn [negb] in H; [discriminate|].
    apply Nat.eqb_neq in L. injection H as <- <-. cbn.
    split; [reflexivity|]. split; [reflexivity|]. right. right.
    rewrite <- app_assoc. eauto 10.
  - injection He as ->.
    destruct (V1_parse_raises _ _ _ _ _ H1)
      as [(-> & [-> | ->]) | (-> & Hc)]; cbn; auto 10.
Qed.

Lemma V1_rejected_command_line_witness :
  let s := boot Example.two_roots ["w"] in
  let argv := ["-b"; "/a"; "-b"; "/b"; "-p"; "job"; "-c"; "true"] in
  exists e s',
    V1.setup Ref.platform argv s = (Raise e, s') /\
    fs s' = fs s /\ cwd s' = cwd s.
Proof.
  intros s argv.
  let r := eval vm_compute in (V1.setup Ref.platform argv s) in
  match r with
  | (Raise ?e, ?s1) =>
      assert (E : V1.setup Ref.platform argv s = (Raise e, s1))
        by (vm_compute; reflexivity);
      exists e, s1
  end.
  split; [exact E|].
  destruct (V1_rejected_command_line _ _ _ _ _ E) as (F & C & _).
  auto.
Defined.

(** ** Several workers on one job directory *)

Import Race.
#[local] Open Scope nat_scope.






Lemma open_x_fresh f c path :
  path <> "" -> OS.kind f (OS.resolve c path) = None ->
  OS.open_x f c path =
  match OS.parent_error f (OS.resolve c path) with
  | Some e => Raise e
  | None => Ok (OS.resolve c path,
                OS.set f (OS.resolve c path) (OS.File ""))
  end.
Proof.
  intros Hp Hk. unfold OS.open_x.
  destruct (String.eqb path "") eqn:E;
    [apply String.eqb_eq in E; contradiction|].
  rewrite Hk. reflexivity.
Qed.



Lemma won_at w : won w = match at_ w with Holding _ | Ran _ => true | _ => false end.
Proof. reflexivity. Qed.












(** The sequential scripts at the places of [Race.pc]: what a candidate
    comes to when [open(lockfile, 'x')] raises [FileExistsError] (for the
    case that it succeeds see [V3_claimed] and [V1_claimed]). *)
Lemma V3_lost P cfg st home e s :
  V3.unlocked cfg s e = true ->
  OS.open_x (fs s) (cwd s) (V3.lock_of cfg e) = Raise FileExistsError ->
  V3.candidate P cfg st home e s =
  (warn (MsgCouldNotLock (V3.lock_of cfg e)) ;; V3.evaluate P cfg st)
    (with_keep_looping true s).
Proof.
  unfold V3.unlocked. intros U O. apply andb_true_iff in U.
  destruct U as [D L]. apply negb_true_iff in L.
  rewrite V3_candidate_cases, D, L.
  unfold V3.acquire, except_FileExistsError, bind, open_x, ret, when.
  cbn [fs cwd with_keep_looping]. rewrite O. reflexivity.
Qed.

Lemma V1_lost P cfg st home bp pat e s :
  V1.unlocked P s bp pat e = true ->
  OS.open_x (fs s) (cwd s) (V1.lock_of bp e) = Raise FileExistsError ->
  V1.candidate P cfg st home bp pat e s =
  (finally (warn (MsgCouldNotLock (V1.lock_of bp e))) (chdir home) ;;
   V1.evaluate P cfg st) (with_keep_looping true s).
Proof.
  unfold V1.unlocked. intros U O. apply andb_true_iff in U.
  destruct U as [U L]. apply negb_true_iff in L.
  apply andb_true_iff in U. destruct U as [D R].
  rewrite V1_candidate_cases, D, L.
  destruct (re_search P pat e) as [[|]|]; try discriminate.
  unfold V1.claim_and_run, finally, except_FileExistsError, bind, open_x.
  cbn [fs cwd with_keep_looping]. rewrite O. reflexivity.
Qed.


(** ** The job limit of version 0.3.0 *)

#[local] Open Scope Z_scope.

Lemma uncounted_refl s : uncounted s s.
Proof. reflexivity. Qed.

Lemma uncounted_trans s t u : uncounted s t -> uncounted t u -> uncounted s u.
Proof. unfold uncounted. intros A B. rewrite B. exact A. Qed.

(** The system calls and the log count no job. *)
Ltac uncounted_prim :=
  intros s r s' H;
  cbv [emit modify chdir open_w open_x write subprocess_call now get] in H;
  repeat match type of H with
         | context [match ?x with _ => _ end] => destruct x
         end;
  injection H as <- <-; reflexivity.

Lemma uncounted_emit e : post uncounted (emit e).
Proof. uncounted_prim. Qed.

Lemma uncounted_chdir p : post uncounted (chdir p).
Proof. uncounted_prim. Qed.

Lemma uncounted_open_w p : post uncounted (open_w p).
Proof. uncounted_prim. Qed.

Lemma uncounted_open_x p : post uncounted (open_x p).
Proof. uncounted_prim. Qed.

Lemma uncounted_write f c : post uncounted (write f c).
Proof. uncounted_prim. Qed.

Lemma uncounted_call P cmd g h : post uncounted (subprocess_call P cmd g h).
Proof. uncounted_prim. Qed.

Lemma uncounted_now P : post uncounted (now P).
Proof. uncounted_prim. Qed.

Lemma uncounted_get : post uncounted get.
Proof. uncounted_prim. Qed.

Lemma uncounted_elapsed h : post uncounted (modify (with_elapsed_hours h)).
Proof. uncounted_prim. Qed.

Lemma uncounted_keep b : post uncounted (modify (with_keep_looping b)).
Proof. uncounted_prim. Qed.

Create HintDb uncounted.
#[local] Hint Resolve uncounted_refl uncounted_trans uncounted_emit
  uncounted_chdir uncounted_open_w uncounted_open_x uncounted_write
  uncounted_call uncounted_now uncounted_get uncounted_elapsed uncounted_keep
  : uncounted.

Ltac uncounted_tac :=
  repeat first
    [ solve [unfold info, warn, print, exit, sys_exit; auto with uncounted]
    | apply (post_ret _ uncounted_refl)
    | apply (post_raise _ uncounted_refl)
    | apply (post_when _ uncounted_refl)
    | apply (post_finally _ uncounted_trans)
    | apply (post_except _ uncounted_trans)
    | match goal with
      | |- post _ (if ?b then _ else _) => destruct b
      end
    | apply (post_bind _ uncounted_trans); [|intros] ].

Lemma uncounted_V3_acquire P lf : post uncounted (V3.acquire P lf).
Proof. unfold V3.acquire. uncounted_tac. Qed.

Lemma uncounted_V3_evaluate P cfg st : post uncounted (V3.evaluate P cfg st).
Proof. unfold V3.evaluate. uncounted_tac. Qed.

Lemma counts_one_after s t u : uncounted s t -> counts_one t u -> counts_one s u.
Proof. unfold uncounted, counts_one. intros A B. rewrite <- A. exact B. Qed.

Lemma counts_one_before s t u : counts_one s t -> uncounted t u -> counts_one s u.
Proof. unfold uncounted, counts_one. intros A B. rewrite B. exact A. Qed.

Lemma uncounted_one s t : uncounted s t -> counts_one s t.
Proof. unfold uncounted, counts_one. intros A. rewrite A. lia. Qed.

(** The job part counts one job, after the command has been run; if the
    last step fails, the job has been counted. *)
Lemma V3_run_claimed_counts P cfg home subdir :
  post counts_one (V3.run_claimed P cfg home subdir).
Proof.
  intros s r s' H. unfold V3.run_claimed in H.
  assert (Pre : post uncounted
            (info (MsgAcquired subdir) ;; chdir subdir ;;
             g <- open_w (V3.label cfg ++ ".out") ;;
             h <- open_w (V3.label cfg ++ ".err") ;;
             subprocess_call P (V3.cmd cfg) g h ;; ret tt))
    by uncounted_tac.
  apply bind_inv in H. destruct H as [([] & s1 & H1 & H)|(e & H1 & ->)];
    [|apply uncounted_one, (Pre s (Raise e) s'), bind_raise, H1].
  apply bind_inv in H. destruct H as [([] & s2 & H2 & H)|(e & H2 & ->)];
    [|apply uncounted_one, (Pre s (Raise e) s');
      rewrite (bind_ok _ _ _ _ _ H1); apply bind_raise, H2].
  apply bind_inv in H. destruct H as [(g & s3 & H3 & H)|(e & H3 & ->)];
    [|apply uncounted_one, (Pre s (Raise e) s');
      rewrite (bind_ok _ _ _ _ _ H1), (bind_ok _ _ _ _ _ H2);
      apply bind_raise, H3].
  apply bind_inv in H. destruct H as [(h & s4 & H4 & H)|(e & H4 & ->)];
    [|apply uncounted_one, (Pre s (Raise e) s');
      rewrite (bind_ok _ _ _ _ _ H1), (bind_ok _ _ _ _ _ H2),
        (bind_ok _ _ _ _ _ H3); apply bind_raise, H4].
  apply bind_inv in H. destruct H as [(code & s5 & H5 & H)|(e & H5 & ->)];
    [|apply uncounted_one, (Pre s (Raise e) s');
      rewrite (bind_ok _ _ _ _ _ H1), (bind_ok _ _ _ _ _ H2),
        (bind_ok _ _ _ _ _ H3), (bind_ok _ _ _ _ _ H4);
      apply bind_raise, H5].
  assert (U : uncounted s s5).
  { apply (Pre s (Ok tt) s5).
    rewrite (bind_ok _ _ _ _ _ H1), (bind_ok _ _ _ _ _ H2),
      (bind_ok _ _ _ _ _ H3), (bind_ok _ _ _ _ _ H4), (bind_ok _ _ _ _ _ H5).
    reflexivity. }
  apply bind_inv in H. destruct H as [([] & s6 & H6 & H)|(e & H6 & ->)];
    [|discriminate].
  injection H6 as <-.
  apply uncounted_chdir in H. unfold uncounted, counts_one in *.
  rewrite H. cbn. lia.
Qed.

(** What one entry does to the count: at most one job more, and none that
    would make the limit when the loop goes on. *)
Lemma V3_candidate_counts P cfg st home e s r s' :
  V3.candidate P cfg st home e s = (r, s') ->
  counts_one s s' /\
  (forall f, r = Ok f -> processed_jobs s' < V3.max_jobs cfg \/
                         processed_jobs s' = processed_jobs s).
Proof.
  rewrite V3_candidate_cases.
  destruct (OS.isdir (fs s) (cwd s) e);
    [|intros H; injection H as <- <-; split;
      [apply uncounted_one; reflexivity | right; reflexivity]].
  destruct (OS.isfile (fs s) (cwd s) (V3.lock_of cfg e));
    [intros H; injection H as <- <-; split;
      [apply uncounted_one; reflexivity | right; reflexivity]|].
  intros H.
  assert (U0 : uncounted s (with_keep_looping true s)) by reflexivity.
  apply bind_inv in H. destruct H as [(b & s1 & H1 & H)|(x & H1 & ->)].
  - apply uncounted_V3_acquire in H1.
    apply bind_inv in H. destruct H as [([] & s2 & H2 & H)|(x & H2 & ->)].
    + assert (C : counts_one s1 s2).
      { apply when_inv in H2. destruct H2 as [(_ & H2)|(_ & _ & ->)].
        - eapply V3_run_claimed_counts, H2.
        - apply uncounted_one, uncounted_refl. }
      pose proof (uncounted_V3_evaluate _ _ _ _ _ _ H) as U.
      split.
      * eapply counts_one_before; [|exact U].
        eapply counts_one_after; [|exact C].
        eapply uncounted_trans; eauto.
      * intros f ->. left.
        destruct (V3_evaluate_exits _ _ _ _ _ _ H) as [[_ E] _].
        rewrite U.
        destruct (Z_lt_ge_dec (processed_jobs s2) (V3.max_jobs cfg)) as [L|G];
          [exact L|].
        specialize (E (or_introl G)). discriminate.
    + split; [|discriminate].
      apply when_inv in H2. destruct H2 as [(_ & H2)|(_ & X & _)];
        [|discriminate].
      eapply counts_one_after; [|eapply V3_run_claimed_counts, H2].
      eapply uncounted_trans; eauto.
  - split; [|discriminate].
    apply uncounted_one. eapply uncounted_trans; [exact U0|].
    eapply uncounted_V3_acquire, H1.
Qed.

(** The count over a loop: it stays below the limit, or where it was. *)
Lemma V3_entries_within P cfg st home entries : forall s r s',
  for_each entries (V3.candidate P cfg st home) s = (r, s') ->
  processed_jobs s <= processed_jobs s'
    <= Z.max (V3.max_jobs cfg) (processed_jobs s + 1) /\
  (r = Ok tt -> processed_jobs s' < V3.max_jobs cfg \/
                processed_jobs s' = processed_jobs s).
Proof.
  induction entries as [|e entries IH]; intros s r s' H; cbn [for_each] in H.
  - injection H as <- <-. lia.
  - apply bind_inv in H. destruct H as [(f & s1 & H1 & H)|(x & H1 & ->)].
    + destruct (V3_candidate_counts _ _ _ _ _ _ _ _ H1) as [C B].
      unfold counts_one in C. specialize (B f eq_refl).
      destruct f.
      * destruct (IH _ _ _ H) as [B1 B2]. split; [lia|].
        intros E. specialize (B2 E). lia.
      * injection H as <- <-. split; [lia | intros _; exact B].
    + destruct (V3_candidate_counts _ _ _ _ _ _ _ _ H1) as [C _].
      unfold counts_one in C. split; [lia | discriminate].
Qed.

Lemma V3_search_within P cfg st home i s r s' :
  V3.search P cfg st home i s = (r, s') ->
  processed_jobs s <= processed_jobs s'
    <= Z.max (V3.max_jobs cfg) (processed_jobs s + 1) /\
  (forall f, r = Ok f -> processed_jobs s' < V3.max_jobs cfg \/
                         processed_jobs s' = processed_jobs s).
Proof.
  unfold V3.search. intros H.
  apply bind_inv in H. destruct H as [(entries & t & Hs & H)|(x & Hs & X)].
  - destruct (V3_scan_inv _ _ _ _ _ _ Hs) as (_ & _ & _ & Pj & _).
    rewrite <- Pj.
    apply bind_inv in H. destruct H as [([] & t1 & He & H)|(x & He & ->)].
    + injection H as <- <-.
      destruct (V3_entries_within _ _ _ _ _ _ _ _ He) as [B1 B2].
      split; [exact B1 | intros f _; exact (B2 eq_refl)].
    + destruct (V3_entries_within _ _ _ _ _ _ _ _ He) as [B1 _].
      split; [exact B1 | discriminate].
  - destruct (V3_scan_inv _ _ _ _ _ _ Hs) as (_ & _ & _ & _ & X').
    discriminate.
Qed.

Lemma V3_searches_within P cfg st home l : forall s r s',
  for_each l (V3.search P cfg st home) s = (r, s') ->
  processed_jobs s <= processed_jobs s'
    <= Z.max (V3.max_jobs cfg) (processed_jobs s + 1) /\
  (r = Ok tt -> processed_jobs s' < V3.max_jobs cfg \/
                processed_jobs s' = processed_jobs s).
Proof.
  induction l as [|i l IH]; intros s r s' H; cbn [for_each] in H.
  - injection H as <- <-. lia.
  - apply bind_inv in H. destruct H as [(f & s1 & H1 & H)|(x & H1 & ->)].
    + destruct (V3_search_within _ _ _ _ _ _ _ _ H1) as [C B].
      specialize (B f eq_refl).
      destruct f.
      * destruct (IH _ _ _ H) as [B1 B2]. split; [lia|].
        intros E. specialize (B2 E). lia.
      * injection H as <- <-. split; [lia | intros _; exact B].
    + destruct (V3_search_within _ _ _ _ _ _ _ _ H1) as [C _].
      split; [lia | discriminate].
Qed.

Lemma V3_pass_within P cfg st home s r s' :
  V3.pass P cfg st home s = (r, s') ->
  processed_jobs s <= processed_jobs s'
    <= Z.max (V3.max_jobs cfg) (processed_jobs s + 1) /\
  (r = Ok tt -> processed_jobs s' < V3.max_jobs cfg \/
                processed_jobs s' = processed_jobs s).
Proof.
  intros H. unfold V3.pass in H.
  apply bind_inv in H. destruct H as [([] & s1 & H1 & H)|(x & H1 & ->)].
  - assert (U : uncounted s s1).
    { assert (B : post uncounted (V3.begin_pass cfg))
        by (unfold V3.begin_pass; uncounted_tac).
      eapply B, H1. }
    unfold uncounted in U. rewrite <- U.
    eapply V3_searches_within; eassumption.
  - unfold V3.begin_pass, bind, modify, info, emit, modify in H1. discriminate.
Qed.

(** X6. Version 0.3.0 counts no job beyond its limit: a main loop that
    ends, however it ends, has counted at most [max_jobs] jobs, or one job
    if the limit was reached before it started (a limit of zero or less
    lets one job run); and when it ends because a pass found nothing to
    do, the count is below the limit unless no job was counted at all. *)
Theorem V3_job_limit (P : Platform) (cfg : V3.Config) (st : Z)
        (home : string) (n : nat) (s : State) (r : result unit) (s' : State) :
  V3.main_loop P cfg st home n s = Some (r, s') ->
  processed_jobs s <= processed_jobs s'
    <= Z.max (V3.max_jobs cfg) (processed_jobs s + 1) /\
  (r = Ok tt -> processed_jobs s' < V3.max_jobs cfg \/
                processed_jobs s' = processed_jobs s).
Proof.
  revert s. induction n as [|n IH]; intros s H; cbn [V3.main_loop] in H.
  - destruct (keep_looping s); [discriminate|].
    injection H as <- <-. split; [lia | auto].
  - destruct (keep_looping s); [|injection H as <- <-; split; [lia | auto]].
    destruct (V3.pass P cfg st home s) as [[[]|e] s1] eqn:Hp.
    + destruct (V3_pass_within _ _ _ _ _ _ _ Hp) as [B1 B2].
      specialize (B2 eq_refl).
      destruct (IH _ H) as [B3 B4]. split; [lia|].
      intros E. specialize (B4 E). lia.
    + injection H as <- <-.
      destruct (V3_pass_within _ _ _ _ _ _ _ Hp) as [B1 _].
      split; [exact B1 | discriminate].
Qed.

Lemma V3_job_limit_witness :
  let cfg := {| V3.patterns := ["job*"]; V3.cmd := ["true"];
                V3.max_jobs := 2; V3.max_hours := Py.PosInf;
                V3.label := "worker" |} in
  let s := with_keep_looping true (boot Example.five_jobs ["w"]) in
  exists r s',
    V3.main_loop Ref.platform cfg 0 "/w" 3 s = Some (r, s') /\
    0 <= processed_jobs s' <= 2.
Proof.
  intros cfg s.
  let x := eval vm_compute in (V3.main_loop Ref.platform cfg 0 "/w" 3 s) in
  match x with
  | Some (?r, ?s1) =>
      assert (E : V3.main_loop Ref.platform cfg 0 "/w" 3 s = Some (r, s1))
        by (vm_compute; reflexivity);
      exists r, s1
  end.
  split; [exact E|].
  exact (proj1 (V3_job_limit _ _ _ _ _ _ _ _ E)).
Defined.

(** ** A lock that is not a file *)

Lemma calm_refl s : calm s s.
Proof. repeat split. Qed.

Lemma calm_trans s t u : calm s t -> calm t u -> calm s u.
Proof.
  intros (A & B & C) (D & E & F). repeat split; congruence.
Qed.

Lemma calm_unlocked cfg s t e :
  calm s t -> V3.unlocked cfg t e = V3.unlocked cfg s e.
Proof. intros (A & B & _). unfold V3.unlocked. rewrite A, B. reflexivity. Qed.

Lemma calm_blocked cfg s t e :
  calm s t -> V3_blocked cfg t e = V3_blocked cfg s e.
Proof.
  intros C. unfold V3_blocked. rewrite (calm_unlocked _ _ _ _ C).
  destruct C as (A & B & _). rewrite A, B. reflexivity.
Qed.

Lemma lock_of_not_empty cfg e : V3.lock_of cfg e <> "".
Proof. unfold V3.lock_of. destruct e; discriminate. Qed.

(** With no limit reached, the check lets the loop go on. *)
Lemma V3_evaluate_goes_on P cfg st s :
  (processed_jobs s < V3.max_jobs cfg)%Z ->
  V3.max_hours cfg = Py.PosInf ->
  exists s', V3.evaluate P cfg st s = (Ok Next, s') /\ calm s s' /\
             keep_looping s' = keep_looping s.
Proof.
  intros L H.
  unfold V3.evaluate, bind, now, modify, get, info, emit, modify, exit, raise,
    ret.
  cbn [processed_jobs elapsed_hours with_reads with_elapsed_hours with_out].
  rewrite H. cbn [Py.ge_float].
  destruct (processed_jobs s >=? V3.max_jobs cfg)%Z eqn:J.
  - apply Z.geb_le in J. lia.
  - eexists. split; [reflexivity|]. repeat split.
Qed.

(** An entry whose lock cannot be created because something that is no
    file is in its place: the claim fails, and the entry counts as work
    that is left. *)
Lemma V3_blocked_candidate P cfg st home e s :
  V3_blocked cfg s e = true ->
  (processed_jobs s < V3.max_jobs cfg)%Z ->
  V3.max_hours cfg = Py.PosInf ->
  exists s', V3.candidate P cfg st home e s = (Ok Next, s') /\ calm s s' /\
             keep_looping s' = true.
Proof.
  intros B L H. unfold V3_blocked in B.
  apply andb_true_iff in B. destruct B as [U X].
  assert (E : OS.open_x (fs s) (cwd s) (V3.lock_of cfg e)
              = Raise FileExistsError).
  { apply open_x_exists; [apply lock_of_not_empty|].
    unfold OS.lexists, OS.stat in X.
    destruct (V3.lock_of cfg e =? "")%string; [discriminate|].
    destruct (OS.kind (fs s) (OS.resolve (cwd s) (V3.lock_of cfg e)));
      [discriminate | discriminate]. }
  rewrite (V3_lost _ _ _ _ _ _ U E).
  unfold bind at 1. unfold warn, emit, modify.
  destruct (V3_evaluate_goes_on P cfg st
              (with_out (out (with_keep_looping true s) ++
                         [LogWarn (MsgCouldNotLock (V3.lock_of cfg e))])
                        (with_keep_looping true s)) L H)
    as (s' & Ev & C & K).
  exists s'. split; [exact Ev|]. split; [|exact K].
  eapply calm_trans; [|exact C]. repeat split.
Qed.

(** A pass over entries of which none can be claimed changes nothing, and
    sets [keep_looping] if one of them is blocked. *)
Lemma V3_blocked_entries P cfg st home s0 entries : forall s,
  calm s0 s ->
  (processed_jobs s0 < V3.max_jobs cfg)%Z ->
  V3.max_hours cfg = Py.PosInf ->
  (forall e, In e entries ->
             V3.unlocked cfg s0 e = true -> V3_blocked cfg s0 e = true) ->
  exists s', for_each entries (V3.candidate P cfg st home) s = (Ok tt, s') /\
             calm s0 s' /\
             keep_looping s' =
               keep_looping s || existsb (V3_blocked cfg s0) entries.
Proof.
  induction entries as [|e entries IH]; intros s C L H A.
  - exists s. split; [reflexivity|]. split; [exact C|].
    cbn. rewrite orb_false_r. reflexivity.
  - cbn [for_each existsb].
    destruct (V3.unlocked cfg s0 e) eqn:U.
    + pose proof (A e (or_introl eq_refl) U) as B.
      assert (L' : (processed_jobs s < V3.max_jobs cfg)%Z)
        by (destruct C as (_ & _ & ->); exact L).
      rewrite <- (calm_blocked _ _ _ _ C) in B.
      destruct (V3_blocked_candidate P cfg st home e s B L' H)
        as (s1 & E1 & C1 & K1).
      destruct (IH s1 (calm_trans _ _ _ C C1) L H
                   (fun x I => A x (or_intror I))) as (s' & E' & C' & K').
      exists s'. rewrite (bind_ok _ _ _ _ _ E1). split; [exact E'|].
      split; [exact C'|]. rewrite K', K1.
      rewrite (calm_blocked _ _ _ _ C) in B. rewrite B.
      rewrite orb_true_r. reflexivity.
    + destruct (V3.candidate P cfg st home e s) as [r s1] eqn:E1.
      rewrite <- (calm_unlocked _ _ _ _ C) in U.
      destruct (V3_candidate_frame _ _ _ _ _ _ _ _ E1 U)
        as (-> & F1 & C1 & P1 & K1).
      assert (Cs : calm s s1) by (repeat split; assumption).
      destruct (IH s1 (calm_trans _ _ _ C Cs) L H
                   (fun x I => A x (or_intror I))) as (s' & E' & C' & K').
      exists s'. rewrite (bind_ok _ _ _ _ _ E1). split; [exact E'|].
      split; [exact C'|]. rewrite K', K1.
      rewrite (calm_unlocked _ _ _ _ C) in U.
      unfold V3_blocked at 2. rewrite U. reflexivity.
Qed.

Lemma existsb_flat_map {A B} (f : B -> bool) (g : A -> list B) l :
  existsb f (flat_map g l) = existsb (fun a => existsb f (g a)) l.
Proof.
  induction l as [|a l IH]; [reflexivity|].
  cbn. rewrite existsb_app, IH. reflexivity.
Qed.

Lemma V3_blocked_searches P cfg st home s0 : forall k i s,
  calm s0 s ->
  (processed_jobs s0 < V3.max_jobs cfg)%Z ->
  V3.max_hours cfg = Py.PosInf ->
  (forall e, In e (V3_entries P cfg s0) ->
             V3.unlocked cfg s0 e = true -> V3_blocked cfg s0 e = true) ->
  (i + k = List.length (V3.patterns cfg))%nat ->
  exists s', for_each (seq i k) (V3.search P cfg st home) s = (Ok tt, s') /\
             calm s0 s' /\
             keep_looping s' =
               keep_looping s ||
               existsb (V3_blocked cfg s0)
                       (flat_map (Glob.glob P (fs s0) (cwd s0))
                                 (skipn i (V3.patterns cfg))).
Proof.
  induction k as [|k IH]; intros i s C L H A Len.
  - exists s. split; [reflexivity|]. split; [exact C|].
    rewrite skipn_all2 by lia. cbn. rewrite orb_false_r. reflexivity.
  - cbn [seq for_each].
    assert (Hi : (i < List.length (V3.patterns cfg))%nat) by lia.
    assert (Sk : skipn i (V3.patterns cfg)
                 = nth i (V3.patterns cfg) "" :: skipn (S i) (V3.patterns cfg)).
    { clear - Hi. revert i Hi.
      induction (V3.patterns cfg) as [|p l IHl]; intros i Hi;
        [cbn in Hi; lia|].
      destruct i; [reflexivity|]. cbn in Hi. cbn [skipn nth].
      apply IHl. lia. }
    destruct (V3.scan P cfg i s) as [r0 t] eqn:Hs.
    destruct (V3_scan_inv _ _ _ _ _ _ Hs) as (F & Cw & K & Pj & ->).
    assert (Ct : calm s0 t).
    { eapply calm_trans; [exact C|]. repeat split; assumption. }
    destruct C as (F0 & C0 & P0). rewrite F0, C0 in Hs.
    assert (A' : forall e,
               In e (Glob.glob P (fs s0) (cwd s0) (nth i (V3.patterns cfg) "")) ->
               V3.unlocked cfg s0 e = true -> V3_blocked cfg s0 e = true).
    { intros e I. apply A. unfold V3_entries. apply in_flat_map.
      exists (nth i (V3.patterns cfg) ""). split; [|exact I].
      apply nth_In, Hi. }
    destruct (V3_blocked_entries P cfg st home s0 _ t Ct L H A')
      as (t1 & E1 & C1 & K1).
    destruct (IH (S i) t1 C1 L H A ltac:(lia)) as (s' & E' & C' & K').
    assert (Se : V3.search P cfg st home i s = (Ok Next, t1)).
    { unfold V3.search. rewrite (bind_ok _ _ _ _ _ Hs).
      rewrite (bind_ok _ _ _ _ _ E1). reflexivity. }
    exists s'. split.
    + rewrite (bind_ok _ _ _ _ _ Se). exact E'.
    + split; [exact C'|]. rewrite K', K1, K, Sk. cbn [flat_map].
      rewrite existsb_app, orb_assoc. reflexivity.
Qed.

(** One pass when nothing can be claimed and something is blocked. *)
Lemma V3_blocked_pass P cfg st home s0 s :
  calm s0 s ->
  (processed_jobs s0 < V3.max_jobs cfg)%Z ->
  V3.max_hours cfg = Py.PosInf ->
  (forall e, In e (V3_entries P cfg s0) ->
             V3.unlocked cfg s0 e = true -> V3_blocked cfg s0 e = true) ->
  exists s', V3.pass P cfg st home s = (Ok tt, s') /\ calm s0 s' /\
             keep_looping s' = existsb (V3_blocked cfg s0) (V3_entries P cfg s0).
Proof.
  intros C L H A. unfold V3.pass.
  destruct (V3_begin_pass_inv cfg s) as (s1 & B & K1 & F1).
  assert (C1 : calm s0 s1).
  { eapply calm_trans; [exact C|].
    unfold V3.begin_pass, bind, modify, info, emit, modify in B.
    injection B as <-. repeat split. }
  destruct (V3_blocked_searches P cfg st home s0
              (List.length (V3.patterns cfg)) O s1 C1 L H A eq_refl)
    as (s' & E & C' & K').
  exists s'. rewrite (bind_ok _ _ _ _ _ B). split; [exact E|].
  split; [exact C'|]. rewrite K', K1. reflexivity.
Qed.

(** X7. Version 0.3.0 never ends when no hour limit is set, the job limit
    is not reached, and among the entries of its patterns there is a
    directory with something that is no regular file (a directory, say) at
    the place of its lock file, while every other one is locked or no
    directory: [os.path.isfile] does not see a lock, the exclusive [open]
    fails, and each pass sets [keep_looping] without changing the file
    system, the working directory or the count. *)
Theorem V3_never_ends_on_blocked_lock (P : Platform) (cfg : V3.Config)
        (st : Z) (home : string) (s : State) :
  keep_looping s = true ->
  (processed_jobs s < V3.max_jobs cfg)%Z ->
  V3.max_hours cfg = Py.PosInf ->
  (forall e, In e (V3_entries P cfg s) ->
             V3.unlocked cfg s e = true -> V3_blocked cfg s e = true) ->
  (exists e, In e (V3_entries P cfg s) /\ V3_blocked cfg s e = true) ->
  forall n, V3.main_loop P cfg st home n s = None.
Proof.
  intros K L H A (e0 & I0 & B0) n.
  assert (X : existsb (V3_blocked cfg s) (V3_entries P cfg s) = true)
    by (apply existsb_exists; exists e0; auto).
  assert (G : forall t, calm s t -> keep_looping t = true ->
                        V3.main_loop P cfg st home n t = None).
  { induction n as [|n IH]; intros t C Kt; cbn [V3.main_loop]; rewrite Kt;
      [reflexivity|].
    destruct (V3_blocked_pass P cfg st home s t C L H A) as (t' & E & C' & K').
    rewrite E. apply IH; [exact C'|]. rewrite K'. exact X. }
  apply G; [apply calm_refl | exact K].
Qed.

Lemma V3_never_ends_on_blocked_lock_witness :
  V3.main_loop Ref.platform Example.glob_jobs 0 "/w" 7
               (with_keep_looping true (boot lock_in_the_way ["w"])) = None.
Proof.
  assert (En : V3_entries Ref.platform Example.glob_jobs
                 (with_keep_looping true (boot lock_in_the_way ["w"]))
               = ["job1"]) by (vm_compute; reflexivity).
  apply V3_never_ends_on_blocked_lock.
  - reflexivity.
  - vm_compute. reflexivity.
  - reflexivity.
  - intros e I. rewrite En in I. destruct I as [<-|[]].
    intros _. vm_compute. reflexivity.
  - exists "job1". split; [rewrite En; left; reflexivity|].
    vm_compute. reflexivity.
Defined.

(** ** Paths *)

#[local] Open Scope Z_scope.

Lemma split_free_one sep s : Py.free_of sep s = true -> Py.split sep s = [s].
Proof.
  induction s as [|c s IH]; simpl; [reflexivity|].
  intros H. apply andb_true_iff in H. destruct H as [N F].
  apply negb_true_iff in N. rewrite N, (IH F). reflexivity.
Qed.

Lemma free_not_absolute s : Py.free_of "/" s = true -> Py.startswith s "/" = false.
Proof.
  destruct s as [|c s]; [reflexivity|]. intros H. cbn [Py.free_of] in H.
  apply andb_true_iff in H. destruct H as [N _]. apply negb_true_iff in N.
  unfold Py.startswith.
  change (String.prefix "/" (String c s))
    with (if Ascii.ascii_dec "/" c then String.prefix "" s else false).
  destruct (Ascii.ascii_dec "/" c) as [E|E]; [|reflexivity].
  subst c. rewrite Ascii.eqb_refl in N. discriminate.
Qed.

Lemma walk_simple acc n : simple n = true -> OS.walk acc n = (acc ++ [n])%list.
Proof.
  unfold simple, OS.walk. intros H.
  repeat (apply andb_true_iff in H; destruct H as [H ?]).
  repeat match goal with X : negb _ = true |- _ => apply negb_true_iff in X end.
  repeat match goal with X : _ = false |- _ => rewrite X end. reflexivity.
Qed.

Lemma simple_free n : simple n = true -> Py.free_of "/" n = true.
Proof.
  unfold simple. intros H.
  repeat (apply andb_true_iff in H; destruct H as [H ?]). exact H.
Qed.

(** A plain name read from a directory names the entry of that name. *)
Lemma resolve_simple c n : simple n = true -> OS.resolve c n = (c ++ [n])%list.
Proof.
  intros H. unfold OS.resolve.
  rewrite (split_free_one _ _ (simple_free _ H)),
    (free_not_absolute _ (simple_free _ H)).
  simpl. apply walk_simple, H.
Qed.

Lemma fold_walk_app l1 l2 base :
  fold_left OS.walk (l1 ++ l2) base =
  fold_left OS.walk l2 (fold_left OS.walk l1 base).
Proof. apply fold_left_app. Qed.

Lemma startswith_app a b :
  a <> "" -> Py.startswith (a ++ b) "/" = Py.startswith a "/".
Proof.
  destruct a as [|x a]; [contradiction|]. intros _.
  change (String x a ++ b) with (String x (a ++ b)).
  unfold Py.startswith. cbn [String.prefix].
  destruct (Ascii.ascii_dec "/" x); [|reflexivity].
  destruct a; destruct b; reflexivity.
Qed.

(** The path [a/b] is [b] read from where [a] leads. *)
Lemma resolve_slash c a b :
  a <> "" ->
  OS.resolve c (a ++ String "/" b) =
  fold_left OS.walk (Py.split "/" b) (OS.resolve c a).
Proof.
  intros Ha. unfold OS.resolve.
  rewrite split_app, fold_left_app, (startswith_app a _ Ha). reflexivity.
Qed.

Lemma resolve_slash_simple c a n :
  a <> "" -> simple n = true ->
  OS.resolve c (a ++ String "/" n) = (OS.resolve c a ++ [n])%list.
Proof.
  intros Ha Hn. rewrite (resolve_slash _ _ _ Ha),
    (split_free_one _ _ (simple_free _ Hn)). simpl. apply walk_simple, Hn.
Qed.

Lemma endswith_char_snoc a c :
  Py.endswith_char a c = true -> exists a', a = a' ++ String c "".
Proof.
  induction a as [|x a IH]; [discriminate|].
  destruct a as [|y a].
  - simpl. intros H. apply Ascii.eqb_eq in H. subst. exists "". reflexivity.
  - intros H. change (Py.endswith_char (String y a) c = true) in H.
    destruct (IH H) as [a' E]. exists (String x a'). simpl. rewrite <- E.
    reflexivity.
Qed.

Lemma append_assoc (a b c : string) : (a ++ b) ++ c = a ++ (b ++ c).
Proof. induction a as [|x a IH]; simpl; [reflexivity|]. rewrite IH. reflexivity. Qed.

Lemma resolve_root_simple c n : simple n = true -> OS.resolve c (String "/" n) = [n].
Proof.
  intros Hn. unfold OS.resolve.
  assert (E : Py.startswith (String "/" n) "/" = true)
    by (destruct n; reflexivity).
  rewrite E. change (String "/" n) with ("" ++ String "/" n).
  rewrite split_app, fold_left_app, (split_free_one _ _ (simple_free _ Hn)).
  cbn [Py.split fold_left]. change (OS.walk [] "") with (@nil string).
  apply (walk_simple [] _ Hn).
Qed.

(** [os.path.join(a, name)] ends in the component [name]. *)
Lemma resolve_join_simple c a n :
  simple n = true ->
  exists d, OS.resolve c (OS.path_join a n) = (d ++ [n])%list.
Proof.
  intros Hn. unfold OS.path_join.
  rewrite (free_not_absolute _ (simple_free _ Hn)).
  destruct (String.eqb a "") eqn:E.
  - apply String.eqb_eq in E. subst a. cbn [orb]. exists c.
    apply resolve_simple, Hn.
  - apply String.eqb_neq in E. cbn [orb].
    destruct (Py.endswith_char a "/") eqn:S.
    + destruct (endswith_char_snoc _ _ S) as [a' ->].
      rewrite append_assoc. change (String "/" "" ++ n) with (String "/" n).
      destruct a' as [|x a'].
      * exists []. apply resolve_root_simple, Hn.
      * eexists. apply resolve_slash_simple; [discriminate | exact Hn].
    + eexists. apply resolve_slash_simple; assumption.
Qed.

Lemma free_of_app c a b :
  Py.free_of c (a ++ b) = Py.free_of c a && Py.free_of c b.
Proof.
  induction a as [|x a IH]; [reflexivity|].
  cbn [append Py.free_of]. rewrite IH, andb_assoc. reflexivity.
Qed.

Lemma length_append a b :
  String.length (a ++ b) = (String.length a + String.length b)%nat.
Proof. induction a as [|x a IH]; [reflexivity|]. cbn. rewrite IH. reflexivity. Qed.

Lemma append_inv_head a b c : a ++ b = a ++ c -> b = c.
Proof.
  induction a as [|x a IH]; [auto|]. cbn. intros H. injection H as H. auto.
Qed.

(** A name of three characters or more without a slash names an entry. *)
Lemma simple_long n :
  Py.free_of "/" n = true -> (3 <= String.length n)%nat -> simple n = true.
Proof.
  intros F L. unfold simple. rewrite F.
  destruct n as [|a [|b [|c n]]]; cbn in L; try lia.
  cbn [String.eqb].
  destruct (Ascii.eqb a "."); destruct (Ascii.eqb b "."); reflexivity.
Qed.

Lemma simple_label l ext :
  Py.free_of "/" l = true -> Py.free_of "/" ext = true ->
  (3 <= String.length ext)%nat -> simple (l ++ ext) = true.
Proof.
  intros A B L. apply simple_long.
  - rewrite free_of_app, A, B. reflexivity.
  - rewrite length_append. lia.
Qed.

Lemma simple_not_empty n : simple n = true -> n <> "".
Proof. intros H ->. discriminate. Qed.

Lemma snoc_not_self {A} (d : list A) x : (d ++ [x])%list <> d.
Proof.
  intros E. apply (f_equal (@List.length A)) in E.
  rewrite length_app in E. cbn in E. lia.
Qed.

Lemma snoc_not_nil {A} (d : list A) x : (d ++ [x])%list <> [].
Proof. destruct d; discriminate. Qed.

Lemma parent_snoc d x : OS.parent (d ++ [x])%list = d.
Proof. apply removelast_last. Qed.

Lemma kind_lookup f p : p <> [] -> OS.kind f p = OS.lookup f p.
Proof. destruct p; [contradiction | reflexivity]. Qed.

Lemma path_eqb_neq p q : p <> q -> OS.path_eqb p q = false.
Proof.
  intros N. destruct (OS.path_eqb p q) eqn:E; [|reflexivity].
  apply path_eqb_eq in E. contradiction.
Qed.

Lemma kind_set_other f p q n : p <> q -> OS.kind (OS.set f p n) q = OS.kind f q.
Proof.
  intros N. rewrite kind_set. destruct q; [reflexivity|].
  rewrite (path_eqb_neq _ _ N). reflexivity.
Qed.

Lemma kind_set_same f p n : p <> [] -> OS.kind (OS.set f p n) p = Some n.
Proof.
  intros N. rewrite kind_set. destruct p; [contradiction|].
  rewrite path_eqb_refl. reflexivity.
Qed.

Lemma chdir_ok f c path d :
  OS.chdir f c path = Ok d -> d = OS.resolve c path /\ OS.kind f d = Some OS.Dir.
Proof.
  unfold OS.chdir, OS.stat.
  destruct (path =? "")%string; [discriminate|].
  destruct (OS.kind f (OS.resolve c path)) as [[|x]|] eqn:K;
    [|discriminate|discriminate].
  intros H. injection H as <-. auto.
Qed.

(** [open(name, 'w')] in a directory, for a name that is no directory
    there: the file is there afterwards, and empty. *)
Lemma open_w_in_dir f d n :
  simple n = true ->
  OS.kind f d = Some OS.Dir ->
  OS.kind f (d ++ [n])%list <> Some OS.Dir ->
  OS.open_w f d n = Ok ((d ++ [n])%list, OS.set f (d ++ [n])%list (OS.File "")).
Proof.
  intros Hn Kd Kn. unfold OS.open_w.
  destruct (n =? "")%string eqn:E;
    [apply String.eqb_eq in E; subst; discriminate|].
  rewrite (resolve_simple _ _ Hn).
  destruct (OS.kind f (d ++ [n])%list) as [[|x]|];
    [contradiction | reflexivity |].
  unfold OS.parent_error. rewrite parent_snoc, Kd. reflexivity.
Qed.

Lemma write_file f p old c :
  p <> [] -> OS.kind f p = Some (OS.File old) ->
  OS.write f p c = OS.set f p (OS.File (old ++ c)).
Proof.
  intros N K. unfold OS.write. rewrite <- (kind_lookup _ _ N), K. reflexivity.
Qed.

(** ** The output of a job *)

(** X8. What version 0.3.0 does with a job it has claimed, when the job
    directory can be entered, the label holds no slash, neither output
    name is a directory there and the command can be launched: the command
    runs with both output files in place and empty; afterwards
    [<label>.out] and [<label>.err] of the job directory hold what the
    command wrote on its two streams and nothing of what they held before,
    the script changes nothing else (the command is taken to write to its
    two streams only), one job more is counted, and the result is that of
    the change back to the home directory. *)
Theorem V3_job_output (P : Platform) (cfg : V3.Config) (home subdir : string)
        (s : State) (d : OS.apath) (code : Z) (stdout stderr : string) :
  let g := (d ++ [(V3.label cfg ++ ".out")%string])%list in
  let h := (d ++ [(V3.label cfg ++ ".err")%string])%list in
  Py.free_of "/" (V3.label cfg) = true ->
  OS.chdir (fs s) (cwd s) subdir = Ok d ->
  OS.kind (fs s) g <> Some OS.Dir ->
  OS.kind (fs s) h <> Some OS.Dir ->
  run_job P (V3.cmd cfg) d
          (OS.set (OS.set (fs s) g (OS.File "")) h (OS.File ""))
    = Exited code stdout stderr ->
  exists r s',
    V3.run_claimed P cfg home subdir s = (r, s') /\
    OS.kind (fs s') g = Some (OS.File stdout) /\
    OS.kind (fs s') h = Some (OS.File stderr) /\
    (forall p, p <> g -> p <> h -> OS.kind (fs s') p = OS.kind (fs s) p) /\
    processed_jobs s' = processed_jobs s + 1 /\
    match OS.chdir (fs s') d home with
    | Ok c => r = Ok tt /\ cwd s' = c
    | Raise e => r = Raise e /\ cwd s' = d
    end.
Proof.
  intros g h F C Kg Kh J.
  destruct (chdir_ok _ _ _ _ C) as [_ Kd].
  assert (Sg : simple (V3.label cfg ++ ".out") = true)
    by (apply simple_label; [exact F | reflexivity | cbn; lia]).
  assert (Sh : simple (V3.label cfg ++ ".err") = true)
    by (apply simple_label; [exact F | reflexivity | cbn; lia]).
  assert (Ng : g <> []) by apply snoc_not_nil.
  assert (Nh : h <> []) by apply snoc_not_nil.
  assert (Ngh : g <> h).
  { intros E. apply app_inv_head in E. injection E as E.
    apply append_inv_head in E. discriminate. }
  assert (Nhg : h <> g) by (intros E; apply Ngh; symmetry; exact E).
  assert (Ngd : g <> d) by apply snoc_not_self.
  pose proof (open_w_in_dir _ _ _ Sg Kd Kg) as Og.
  fold g in Og.
  set (f1 := OS.set (fs s) g (OS.File "")) in *.
  assert (Oh : OS.open_w f1 d (V3.label cfg ++ ".err")
               = Ok (h, OS.set f1 h (OS.File ""))).
  { apply open_w_in_dir; [exact Sh | |].
    - unfold f1. rewrite (kind_set_other _ _ _ _ Ngd). exact Kd.
    - fold h. unfold f1. rewrite (kind_set_other _ _ _ _ Ngh). exact Kh. }
  set (f2 := OS.set f1 h (OS.File "")) in *.
  assert (W1 : OS.write f2 g stdout = OS.set f2 g (OS.File stdout)).
  { apply (write_file f2 g "" stdout Ng). unfold f2.
    rewrite (kind_set_other _ _ _ _ Nhg). unfold f1.
    apply kind_set_same, Ng. }
  assert (W2 : OS.write (OS.set f2 g (OS.File stdout)) h stderr
               = OS.set (OS.set f2 g (OS.File stdout)) h (OS.File stderr)).
  { apply (write_file _ h "" stderr Nh).
    rewrite (kind_set_other _ _ _ _ Ngh). unfold f2.
    apply kind_set_same, Nh. }
  set (f4 := OS.set (OS.set f2 g (OS.File stdout)) h (OS.File stderr)) in *.
  assert (R : V3.run_claimed P cfg home subdir s =
              chdir home
                (with_processed_jobs (processed_jobs s + 1)
                   (with_fs f4
                      (with_cwd d
                         (with_out (out s ++ [LogInfo (MsgAcquired subdir)])
                                   s))))).
  { unfold V3.run_claimed, bind, info, emit, modify, chdir at 1, open_w,
      subprocess_call.
    cbn [fs cwd with_out with_cwd with_fs processed_jobs].
    rewrite C. cbn [fs cwd with_out with_cwd with_fs processed_jobs].
    rewrite Og. cbn [fs cwd with_out with_cwd with_fs processed_jobs].
    fold f1. rewrite Oh.
    cbn [fs cwd with_out with_cwd with_fs processed_jobs].
    fold f2. rewrite J.
    cbn [fs cwd with_out with_cwd with_fs processed_jobs].
    rewrite W1, W2. reflexivity. }
  assert (K4g : OS.kind f4 g = Some (OS.File stdout)).
  { unfold f4. rewrite (kind_set_other _ _ _ _ Nhg). apply kind_set_same, Ng. }
  assert (K4h : OS.kind f4 h = Some (OS.File stderr))
    by (unfold f4; apply kind_set_same, Nh).
  assert (K4 : forall p, p <> g -> p <> h -> OS.kind f4 p = OS.kind (fs s) p).
  { intros p N1 N2. unfold f4, f2, f1.
    rewrite !kind_set_other; auto. }
  rewrite R. unfold chdir.
  cbn [fs cwd with_out with_cwd with_fs with_processed_jobs processed_jobs].
  destruct (OS.chdir f4 d home) as [c|e] eqn:Ch.
  - eexists _, _. split; [reflexivity|].
    cbn [fs cwd with_out with_cwd with_fs with_processed_jobs processed_jobs].
    rewrite Ch. auto 10.
  - eexists _, _. split; [reflexivity|].
    cbn [fs cwd with_out with_cwd with_fs with_processed_jobs processed_jobs].
    rewrite Ch. auto 10.
Qed.

Lemma V3_job_output_witness :
  let s := boot stale_output ["w"] in
  exists r s',
    V3.run_claimed Ref.platform glob_echo "/w" "job1" s = (r, s') /\
    OS.kind (fs s') ["w"; "job1"; "worker.out"]
      = Some (OS.File ("hi" ++ newline)) /\
    OS.kind (fs s') ["w"; "job1"; "worker.err"] = Some (OS.File "") /\
    processed_jobs s' = 1.
Proof.
  intros s.
  assert (H1 : Py.free_of "/" (V3.label glob_echo) = true) by reflexivity.
  assert (H2 : OS.chdir (fs s) (cwd s) "job1" = Ok ["w"; "job1"])
    by (vm_compute; reflexivity).
  assert (H3 : OS.kind (fs s) (["w"; "job1"] ++ ["worker.out"])%list
               <> Some OS.Dir) by (vm_compute; discriminate).
  assert (H4 : OS.kind (fs s) (["w"; "job1"] ++ ["worker.err"])%list
               <> Some OS.Dir) by (vm_compute; discriminate).
  destruct (V3_job_output Ref.platform glob_echo "/w" "job1" s ["w"; "job1"]
              0 ("hi" ++ newline) "" H1 H2 H3 H4 eq_refl)
    as (r & s' & A & B & C & _ & D & _).
  exists r, s'. auto.
Defined.

(** ** What the scripts leave as it is *)

Lemma kept_refl outs s : kept outs s s.
Proof. intros p n K _. exact K. Qed.

Lemma kept_trans outs s t u : kept outs s t -> kept outs t u -> kept outs s u.
Proof. intros A B p n K C. apply B; [apply A|]; assumption. Qed.

Lemma kept_same_fs outs s t : fs t = fs s -> kept outs s t.
Proof. intros E p n K _. rewrite E. exact K. Qed.

(** The calls that do not write. *)
Ltac kept_prim :=
  intros s r s' H; apply kept_same_fs;
  cbv [emit modify chdir now get isdir isfile listdir glob] in H;
  repeat match type of H with
         | context [match ?x with _ => _ end] => destruct x
         end;
  injection H as <- <-; reflexivity.

Lemma kept_emit outs e : post (kept outs) (emit e).
Proof. kept_prim. Qed.

Lemma kept_chdir outs p : post (kept outs) (chdir p).
Proof. kept_prim. Qed.

Lemma kept_now outs P : post (kept outs) (now P).
Proof. kept_prim. Qed.

Lemma kept_get outs : post (kept outs) get.
Proof. kept_prim. Qed.

Lemma kept_isdir outs p : post (kept outs) (isdir p).
Proof. kept_prim. Qed.

Lemma kept_isfile outs p : post (kept outs) (isfile p).
Proof. kept_prim. Qed.

Lemma kept_listdir outs p : post (kept outs) (listdir p).
Proof. kept_prim. Qed.

Lemma kept_glob outs P p : post (kept outs) (glob P p).
Proof. kept_prim. Qed.

Lemma kept_elapsed outs h : post (kept outs) (modify (with_elapsed_hours h)).
Proof. kept_prim. Qed.

Lemma kept_keep outs b : post (kept outs) (modify (with_keep_looping b)).
Proof. kept_prim. Qed.

Lemma kept_processed outs g :
  post (kept outs) (modify (fun s => with_processed_jobs (g s) s)).
Proof. kept_prim. Qed.

(** A file that is created is none of those that were there. *)
Lemma kept_open_x outs path : post (kept outs) (open_x path).
Proof.
  intros s r s' H. unfold open_x in H.
  destruct (OS.open_x (fs s) (cwd s) path) as [[p f]|e] eqn:E;
    injection H as <- <-; [|apply kept_refl].
  destruct (open_x_ok _ _ _ _ _ E) as (K0 & -> & _).
  intros q n K _. cbn [fs with_fs].
  rewrite kind_set_other; [exact K|]. intros ->. congruence.
Qed.

Lemma open_w_target f c path p f' :
  OS.open_w f c path = Ok (p, f') ->
  p = OS.resolve c path /\ OS.kind f p <> Some OS.Dir /\
  f' = OS.set f p (OS.File "").
Proof.
  unfold OS.open_w. destruct (path =? "")%string; [discriminate|].
  destruct (OS.kind f (OS.resolve c path)) as [[|x]|] eqn:K.
  - discriminate.
  - intros H. injection H as <- <-. rewrite K. repeat split. discriminate.
  - destruct (OS.parent_error f (OS.resolve c path)); [discriminate|].
    intros H. injection H as <- <-. rewrite K. repeat split. discriminate.
Qed.

(** Writing to a file of one of the names [outs] changes no other entry. *)
Lemma kept_set_out outs f p x q n :
  In (last p "") outs -> OS.kind f p <> Some OS.Dir ->
  OS.kind f q = Some n -> n = OS.Dir \/ ~ In (last q "") outs ->
  OS.kind (OS.set f p x) q = Some n.
Proof.
  intros I Kp K C. rewrite kind_set_other; [exact K|].
  intros ->. destruct C as [-> | C]; [contradiction | contradiction].
Qed.

Lemma kept_open_w outs path :
  (forall c, In (last (OS.resolve c path) "") outs) ->
  post (kept outs) (open_w path).
Proof.
  intros I s r s' H. unfold open_w in H.
  destruct (OS.open_w (fs s) (cwd s) path) as [[p f]|e] eqn:E;
    injection H as <- <-; [|apply kept_refl].
  destruct (open_w_target _ _ _ _ _ E) as (-> & Kp & ->).
  intros q n K C. cbn [fs with_fs]. eapply kept_set_out; eauto.
Qed.

Lemma kept_os_write outs f p c q n :
  In (last p "") outs ->
  OS.kind f q = Some n -> n = OS.Dir \/ ~ In (last q "") outs ->
  OS.kind (OS.write f p c) q = Some n.
Proof.
  intros I K C. unfold OS.write.
  destruct (OS.lookup f p) as [[|old]|] eqn:L; try exact K.
  destruct p as [|a p].
  - rewrite kind_set. destruct q; exact K.
  - eapply kept_set_out; eauto. cbn [OS.kind]. rewrite L. discriminate.
Qed.

Lemma kind_write_other f p c q :
  p <> q -> OS.kind (OS.write f p c) q = OS.kind f q.
Proof.
  intros N. unfold OS.write.
  destruct (OS.lookup f p) as [[|old]|]; try reflexivity.
  apply kind_set_other, N.
Qed.

Lemma kept_call outs P cmd g h :
  In (last g "") outs -> In (last h "") outs ->
  post (kept outs) (subprocess_call P cmd g h).
Proof.
  intros Ig Ih s r s' H. unfold subprocess_call in H.
  destruct (run_job P cmd (cwd s) (fs s)) as [e|code o e];
    injection H as <- <-; [apply kept_refl|].
  intros q n K C. cbn [fs with_fs].
  apply (kept_os_write outs); [exact Ih | | exact C].
  apply (kept_os_write outs); assumption.
Qed.

(** What is known of the value of the first part may be used for the
    second. *)
Lemma post_bind_ok {A B} (R : State -> State -> Prop) (Q : A -> Prop)
      (c : M A) (k : A -> M B) :
  (forall s t u, R s t -> R t u -> R s u) ->
  post R c ->
  (forall s a s', c s = (Ok a, s') -> Q a) ->
  (forall a, Q a -> post R (k a)) ->
  post R (bind c k).
Proof.
  intros T Pc Qc Pk s r s' H.
  apply bind_inv in H. destruct H as [(a & s1 & H1 & H)|(e & H1 & _)].
  - eapply T; [eapply Pc, H1|]. eapply Pk; [eapply Qc, H1 | exact H].
  - eapply Pc, H1.
Qed.

Lemma open_w_value path s p s' :
  open_w path s = (Ok p, s') -> p = OS.resolve (cwd s) path.
Proof.
  unfold open_w.
  destruct (OS.open_w (fs s) (cwd s) path) as [[q f]|e] eqn:E; [|discriminate].
  intros H. injection H as <- _.
  exact (proj1 (open_w_target _ _ _ _ _ E)).
Qed.

Lemma last_snoc {A} (l : list A) x d : last (l ++ [x]) d = x.
Proof. apply last_last. Qed.

Lemma last_resolve_simple c n :
  simple n = true -> last (OS.resolve c n) "" = n.
Proof. intros H. rewrite (resolve_simple _ _ H). apply last_last. Qed.

Lemma last_resolve_join c a n :
  simple n = true -> last (OS.resolve c (OS.path_join a n)) "" = n.
Proof.
  intros H. destruct (resolve_join_simple c a n H) as [d ->]. apply last_last.
Qed.

Create HintDb kept.
#[local] Hint Resolve kept_refl kept_trans kept_emit kept_chdir kept_now
  kept_get kept_isdir kept_isfile kept_listdir kept_glob kept_elapsed
  kept_keep kept_processed kept_open_x : kept.

Ltac kept_tac :=
  repeat first
    [ solve [unfold info, warn, print, exit, sys_exit; auto with kept]
    | apply (post_ret _ (kept_refl _))
    | apply (post_raise _ (kept_refl _))
    | apply (post_when _ (kept_refl _))
    | apply (post_finally _ (kept_trans _))
    | apply (post_except _ (kept_trans _))
    | apply (post_for_each _ (kept_refl _) (kept_trans _)); intros
    | match goal with
      | |- post _ (match ?b with _ => _ end) => destruct b
      end
    | apply (post_bind _ (kept_trans _)); [|intros] ].

(** The claim of version 0.3.0 creates the lock file, and writes to the
    file it has created. *)
Lemma kept_V3_acquire outs P lf : post (kept outs) (V3.acquire P lf).
Proof.
  intros s r s' H. unfold V3.acquire, except_FileExistsError in H.
  unfold bind at 1, open_x in H.
  destruct (OS.open_x (fs s) (cwd s) lf) as [[p f]|e] eqn:E.
  - destruct (open_x_ok _ _ _ _ _ E) as (K0 & -> & _).
    unfold bind, write, modify, ret in H. cbn [fs with_fs] in H.
    injection H as <- <-.
    intros q n K _. cbn [fs with_fs].
    assert (N : p <> q) by (intros ->; congruence).
    rewrite (kind_write_other _ _ _ _ N), (kind_set_other _ _ _ _ N).
    exact K.
  - assert (W : post (kept outs) (warn (MsgCouldNotLock lf) ;; ret false))
      by kept_tac.
    destruct e; try (injection H as <- <-; apply kept_refl).
    eapply W, H.
Qed.

Lemma V3_outputs_simple cfg :
  Py.free_of "/" (V3.label cfg) = true ->
  simple (V3.label cfg ++ ".out") = true /\
  simple (V3.label cfg ++ ".err") = true.
Proof.
  intros F. split; apply simple_label; try exact F; try reflexivity; cbn; lia.
Qed.

Lemma kept_V3_run_claimed P cfg home subdir :
  Py.free_of "/" (V3.label cfg) = true ->
  post (kept (V3_outputs cfg)) (V3.run_claimed P cfg home subdir).
Proof.
  intros F. destruct (V3_outputs_simple cfg F) as [So Se].
  unfold V3.run_claimed.
  apply (post_bind _ (kept_trans _)); [kept_tac|intros _].
  apply (post_bind _ (kept_trans _)); [kept_tac|intros _].
  apply (post_bind_ok _ (fun g => In (last g "") (V3_outputs cfg)) _ _
                      (kept_trans _)).
  - apply kept_open_w. intros c. rewrite (last_resolve_simple _ _ So).
    left. reflexivity.
  - intros s g s' H. rewrite (open_w_value _ _ _ _ H),
      (last_resolve_simple _ _ So). left. reflexivity.
  - intros g Ig.
    apply (post_bind_ok _ (fun h => In (last h "") (V3_outputs cfg)) _ _
                        (kept_trans _)).
    + apply kept_open_w. intros c. rewrite (last_resolve_simple _ _ Se).
      right. left. reflexivity.
    + intros s h s' H. rewrite (open_w_value _ _ _ _ H),
        (last_resolve_simple _ _ Se). right. left. reflexivity.
    + intros h Ih.
      apply (post_bind _ (kept_trans _)); [apply kept_call; assumption|].
      intros _. kept_tac.
Qed.

Lemma kept_V3_candidate P cfg st home e :
  Py.free_of "/" (V3.label cfg) = true ->
  post (kept (V3_outputs cfg)) (V3.candidate P cfg st home e).
Proof.
  intros F. pose proof (kept_V3_run_claimed P cfg home e F) as R.
  pose proof (kept_V3_acquire (V3_outputs cfg) P) as A.
  unfold V3.candidate, V3.evaluate. kept_tac.
Qed.

Lemma kept_V3_pass P cfg st home :
  Py.free_of "/" (V3.label cfg) = true ->
  post (kept (V3_outputs cfg)) (V3.pass P cfg st home).
Proof.
  intros F. pose proof (fun e => kept_V3_candidate P cfg st home e F) as C.
  unfold V3.pass, V3.begin_pass, V3.search, V3.scan. kept_tac.
Qed.

(** What every pass does, the main loop does. *)
Lemma V3_main_loop_post (R : State -> State -> Prop) P cfg st home :
  (forall s, R s s) -> (forall s t u, R s t -> R t u -> R s u) ->
  post R (V3.pass P cfg st home) ->
  forall n s r s', V3.main_loop P cfg st home n s = Some (r, s') -> R s s'.
Proof.
  intros Rr Rt Pp. induction n as [|n IH]; intros s r s' H;
    cbn [V3.main_loop] in H.
  - destruct (keep_looping s); [discriminate|]. injection H as <- <-. apply Rr.
  - destruct (keep_looping s); [|injection H as <- <-; apply Rr].
    destruct (V3.pass P cfg st home s) as [[[]|e] s1] eqn:Hp.
    + eapply Rt; [eapply Pp, Hp | eapply IH, H].
    + injection H as <- <-. eapply Pp, Hp.
Qed.

Lemma V1_main_loop_post (R : State -> State -> Prop) P cfg st home :
  (forall s, R s s) -> (forall s t u, R s t -> R t u -> R s u) ->
  post R (V1.pass P cfg st home) ->
  forall n s r s', V1.main_loop P cfg st home n s = Some (r, s') -> R s s'.
Proof.
  intros Rr Rt Pp. induction n as [|n IH]; intros s r s' H;
    cbn [V1.main_loop] in H.
  - destruct (keep_looping s); [discriminate|]. injection H as <- <-. apply Rr.
  - destruct (keep_looping s); [|injection H as <- <-; apply Rr].
    destruct (V1.pass P cfg st home s) as [[[]|e] s1] eqn:Hp.
    + eapply Rt; [eapply Pp, Hp | eapply IH, H].
    + injection H as <- <-. eapply Pp, Hp.
Qed.

Lemma V1_outputs_simple :
  simple "worker.out" = true /\ simple "worker.err" = true.
Proof. split; reflexivity. Qed.

Lemma kept_V1_job P cfg bp subdir :
  post (kept V1_outputs) (V1.job P cfg bp subdir).
Proof.
  destruct V1_outputs_simple as [So Se].
  unfold V1.job.
  apply (post_bind _ (kept_trans _)); [kept_tac|intros _].
  apply (post_bind _ (kept_trans _)); [kept_tac|intros _].
  apply (post_bind_ok _ (fun g => In (last g "") V1_outputs) _ _
                      (kept_trans _)).
  - apply kept_open_w. intros c. rewrite (last_resolve_join _ _ _ So).
    left. reflexivity.
  - intros s g s' H. rewrite (open_w_value _ _ _ _ H),
      (last_resolve_join _ _ _ So). left. reflexivity.
  - intros g Ig.
    apply (post_bind_ok _ (fun h => In (last h "") V1_outputs) _ _
                        (kept_trans _)).
    + apply kept_open_w. intros c. rewrite (last_resolve_join _ _ _ Se).
      right. left. reflexivity.
    + intros s h s' H. rewrite (open_w_value _ _ _ _ H),
        (last_resolve_join _ _ _ Se). right. left. reflexivity.
    + intros h Ih.
      apply (post_bind _ (kept_trans _)); [apply kept_call; assumption|].
      intros _. kept_tac.
Qed.

(** The claim of version 0.1: the lock file is created, the job runs, and
    what is written when the lock file is closed goes to the file that was
    created. *)
Lemma kept_V1_claim_body P cfg bp subdir lf :
  post (kept V1_outputs)
       (except_FileExistsError
          (f <- open_x lf ;;
           finally (V1.job P cfg bp subdir)
                   (write f ("Reserved by worker: " ++ worker_id P)))
          (warn (MsgCouldNotLock lf))).
Proof.
  apply (post_except _ (kept_trans _)); [|kept_tac].
  intros s r s' H.
  apply bind_inv in H. destruct H as [(p & s1 & H1 & H)|(e & H1 & _)];
    [|eapply kept_open_x, H1].
  unfold open_x in H1.
  destruct (OS.open_x (fs s) (cwd s) lf) as [[p' f]|e] eqn:E; [|discriminate].
  injection H1 as <- <-.
  destruct (open_x_ok _ _ _ _ _ E) as (K0 & -> & _).
  unfold finally in H.
  destruct (V1.job P cfg bp subdir
              (with_fs (OS.set (fs s) p' (OS.File "")) s)) as [r1 s2] eqn:J.
  apply kept_V1_job in J.
  unfold write, modify in H. injection H as _ <-.
  intros q n K C. cbn [fs with_fs].
  assert (N : p' <> q) by (intros ->; congruence).
  rewrite (kind_write_other _ _ _ _ N).
  apply J; [|exact C]. cbn [fs with_fs].
  rewrite (kind_set_other _ _ _ _ N). exact K.
Qed.

Lemma kept_V1_claim P cfg home bp subdir lf :
  post (kept V1_outputs) (V1.claim_and_run P cfg home bp subdir lf).
Proof.
  unfold V1.claim_and_run.
  apply (post_finally _ (kept_trans _)); [apply kept_V1_claim_body|kept_tac].
Qed.

Lemma kept_V1_pass P cfg st home :
  post (kept V1_outputs) (V1.pass P cfg st home).
Proof.
  pose proof (kept_V1_claim P cfg home) as C.
  unfold V1.pass, V1.begin_pass, V1.search, V1.scan, V1.candidate,
    V1.evaluate.
  kept_tac.
Qed.

(** X9. Version 0.3.0, run with a label that holds no slash, removes
    nothing and overwrites nothing but its output files: when its main
    loop ends, however it ends, every directory is still a directory, and
    every file whose name is neither [<label>.out] nor [<label>.err] holds
    what it held: the lock files that were there and everything else.
    (This is about the script; the job commands are taken to write to
    their two streams only.) *)
Theorem V3_overwrites_only_its_output (P : Platform) (cfg : V3.Config)
        (st : Z) (home : string) (n : nat) (s : State) (r : result unit)
        (s' : State) :
  Py.free_of "/" (V3.label cfg) = true ->
  V3.main_loop P cfg st home n s = Some (r, s') ->
  kept (V3_outputs cfg) s s'.
Proof.
  intros F. apply V3_main_loop_post;
    [apply kept_refl | apply kept_trans | apply kept_V3_pass, F].
Qed.

Lemma V3_overwrites_only_its_output_witness :
  let s := with_keep_looping true (boot Example.five_jobs ["w"]) in
  exists r s',
    V3.main_loop Ref.platform Example.glob_jobs 0 "/w" 3 s = Some (r, s') /\
    OS.kind (fs s') ["w"; "notes"] = Some (OS.File "to do").
Proof.
  intros s.
  let x := eval vm_compute in
             (V3.main_loop Ref.platform Example.glob_jobs 0 "/w" 3 s) in
  match x with
  | Some (?r, ?s1) =>
      assert (E : V3.main_loop Ref.platform Example.glob_jobs 0 "/w" 3 s
                  = Some (r, s1)) by (vm_compute; reflexivity);
      exists r, s1
  end.
  split; [exact E|].
  refine (V3_overwrites_only_its_output
            Ref.platform Example.glob_jobs 0 "/w" 3 s _ _ eq_refl E
            ["w"; "notes"] (OS.File "to do") eq_refl _).
  right. intros [X|[X|[]]]; discriminate.
Defined.

(** X10. Version 0.1 removes nothing and overwrites nothing but files
    named [worker.out] and [worker.err]: when its main loop ends, however
    it ends, every directory is still a directory and every other file
    holds what it held.  (This is about the script; the job commands are
    taken to write to their two streams only.) *)
Theorem V1_overwrites_only_its_output (P : Platform) (cfg : V1.Config)
        (st : Z) (home : string) (n : nat) (s : State) (r : result unit)
        (s' : State) :
  V1.main_loop P cfg st home n s = Some (r, s') ->
  kept V1_outputs s s'.
Proof.
  apply V1_main_loop_post;
    [apply kept_refl | apply kept_trans | apply kept_V1_pass].
Qed.

Lemma V1_overwrites_only_its_output_witness :
  let s := with_keep_looping true (boot Example.five_jobs ["w"]) in
  exists r s',
    V1.main_loop Ref.platform Example.regex_jobs 0 "/w" 3 s = Some (r, s') /\
    OS.kind (fs s') ["w"; "notes"] = Some (OS.File "to do").
Proof.
  intros s.
  let x := eval vm_compute in
             (V1.main_loop Ref.platform Example.regex_jobs 0 "/w" 3 s) in
  match x with
  | Some (?r, ?s1) =>
      assert (E : V1.main_loop Ref.platform Example.regex_jobs 0 "/w" 3 s
                  = Some (r, s1)) by (vm_compute; reflexivity);
      exists r, s1
  end.
  split; [exact E|].
  refine (V1_overwrites_only_its_output
            Ref.platform Example.regex_jobs 0 "/w" 3 s _ _ E
            ["w"; "notes"] (OS.File "to do") eq_refl _).
  right. intros [X|[X|[]]]; discriminate.
Defined.

(** ** Where the scripts are when they end *)

Lemma split_join sep l :
  l <> [] -> Forall (fun n => Py.free_of sep n = true) l ->
  Py.split sep (Py.join (String sep "") l) = l.
Proof.
  induction l as [|x l IH]; [contradiction|]. intros _ F.
  inversion F as [|x' l' Fx Fl]; subst.
  destruct l as [|y l].
  - cbn [Py.join]. apply split_free_one, Fx.
  - change (Py.join (String sep "") (x :: y :: l))
      with (x ++ String sep (Py.join (String sep "") (y :: l))).
    rewrite split_app, (split_free_one _ _ Fx), IH; [reflexivity| |exact Fl].
    discriminate.
Qed.

Lemma fold_walk_simple l : forall acc,
  Forall (fun n => simple n = true) l ->
  fold_left OS.walk l acc = (acc ++ l)%list.
Proof.
  induction l as [|x l IH]; intros acc F.
  - cbn. rewrite app_nil_r. reflexivity.
  - inversion F as [|x' l' Fx Fl]; subst. cbn [fold_left].
    rewrite (walk_simple _ _ Fx), (IH _ Fl), <- app_assoc. reflexivity.
Qed.

(** What [os.getcwd()] returns leads back, from anywhere. *)
Lemma resolve_render c0 c :
  Forall (fun n => simple n = true) c -> OS.resolve c0 (OS.render c) = c.
Proof.
  intros F. unfold OS.render.
  change ("/" ++ Py.join "/" c) with ("" ++ String "/" (Py.join "/" c)).
  unfold OS.resolve.
  assert (E : Py.startswith ("" ++ String "/" (Py.join "/" c)) "/" = true)
    by (cbn [append]; destruct (Py.join "/" c); reflexivity).
  rewrite E, split_app, fold_left_app.
  cbn [Py.split fold_left]. change (OS.walk [] "") with (@nil string).
  destruct c as [|x c]; [reflexivity|].
  rewrite split_join; [apply (fold_walk_simple _ [] F) | discriminate |].
  eapply Forall_impl; [|exact F]. intros n. apply simple_free.
Qed.

Lemma render_absolute c : Py.startswith (OS.render c) "/" = true.
Proof.
  unfold OS.render. cbn [append]. destruct (Py.join "/" c); reflexivity.
Qed.

Lemma unmoved_refl s : unmoved s s.
Proof. reflexivity. Qed.

Lemma unmoved_trans s t u : unmoved s t -> unmoved t u -> unmoved s u.
Proof. unfold unmoved. intros A B. rewrite B. exact A. Qed.

Ltac unmoved_prim :=
  intros s r s' H;
  cbv [emit modify open_w open_x write subprocess_call now get isdir isfile
       listdir glob] in H;
  repeat match type of H with
         | context [match ?x with _ => _ end] => destruct x
         end;
  injection H as <- <-; reflexivity.

Lemma unmoved_emit e : post unmoved (emit e).
Proof. unmoved_prim. Qed.

Lemma unmoved_open_w p : post unmoved (open_w p).
Proof. unmoved_prim. Qed.

Lemma unmoved_open_x p : post unmoved (open_x p).
Proof. unmoved_prim. Qed.

Lemma unmoved_write f c : post unmoved (write f c).
Proof. unmoved_prim. Qed.

Lemma unmoved_call P cmd g h : post unmoved (subprocess_call P cmd g h).
Proof. unmoved_prim. Qed.

Lemma unmoved_now P : post unmoved (now P).
Proof. unmoved_prim. Qed.

Lemma unmoved_get : post unmoved get.
Proof. unmoved_prim. Qed.

Lemma unmoved_isdir p : post unmoved (isdir p).
Proof. unmoved_prim. Qed.

Lemma unmoved_isfile p : post unmoved (isfile p).
Proof. unmoved_prim. Qed.

Lemma unmoved_listdir p : post unmoved (listdir p).
Proof. unmoved_prim. Qed.

Lemma unmoved_glob P p : post unmoved (glob P p).
Proof. unmoved_prim. Qed.

Lemma unmoved_elapsed h : post unmoved (modify (with_elapsed_hours h)).
Proof. unmoved_prim. Qed.

Lemma unmoved_keep b : post unmoved (modify (with_keep_looping b)).
Proof. unmoved_prim. Qed.

Lemma unmoved_processed g :
  post unmoved (modify (fun s => with_processed_jobs (g s) s)).
Proof. unmoved_prim. Qed.

Create HintDb unmoved.
#[local] Hint Resolve unmoved_refl unmoved_trans unmoved_emit unmoved_open_w
  unmoved_open_x unmoved_write unmoved_call unmoved_now unmoved_get
  unmoved_isdir unmoved_isfile unmoved_listdir unmoved_glob unmoved_elapsed
  unmoved_keep unmoved_processed : unmoved.

Ltac unmoved_tac :=
  repeat first
    [ solve [unfold info, warn, print, exit, sys_exit; auto with unmoved]
    | apply (post_ret _ unmoved_refl)
    | apply (post_raise _ unmoved_refl)
    | apply (post_when _ unmoved_refl)
    | apply (post_finally _ unmoved_trans)
    | apply (post_except _ unmoved_trans)
    | match goal with
      | |- post _ (match ?b with _ => _ end) => destruct b
      end
    | apply (post_bind _ unmoved_trans); [|intros] ].

Lemma stays_home_refl H s : stays_home H s s.
Proof. intros A. exact A. Qed.

Lemma stays_home_trans H s t u :
  stays_home H s t -> stays_home H t u -> stays_home H s u.
Proof. intros A B C. apply B, A, C. Qed.

(** A directory that is kept, in a script that does not move. *)
Lemma stays_home_of {A} outs H (c : M A) :
  post (kept outs) c -> post unmoved c -> post (stays_home H) c.
Proof.
  intros K U s r s' E [C D]. split.
  - rewrite (U _ _ _ E). exact C.
  - apply (K _ _ _ E); [exact D | left; reflexivity].
Qed.

Lemma stays_emit H e : post (stays_home H) (emit e).
Proof. apply (stays_home_of []); [apply kept_emit | apply unmoved_emit]. Qed.

Lemma stays_now H P : post (stays_home H) (now P).
Proof. apply (stays_home_of []); [apply kept_now | apply unmoved_now]. Qed.

Lemma stays_get H : post (stays_home H) get.
Proof. apply (stays_home_of []); [apply kept_get | apply unmoved_get]. Qed.

Lemma stays_isdir H p : post (stays_home H) (isdir p).
Proof. apply (stays_home_of []); [apply kept_isdir | apply unmoved_isdir]. Qed.

Lemma stays_isfile H p : post (stays_home H) (isfile p).
Proof. apply (stays_home_of []); [apply kept_isfile | apply unmoved_isfile]. Qed.

Lemma stays_listdir H p : post (stays_home H) (listdir p).
Proof.
  apply (stays_home_of []); [apply kept_listdir | apply unmoved_listdir].
Qed.

Lemma stays_glob H P p : post (stays_home H) (glob P p).
Proof. apply (stays_home_of []); [apply kept_glob | apply unmoved_glob]. Qed.

Lemma stays_elapsed H h : post (stays_home H) (modify (with_elapsed_hours h)).
Proof.
  apply (stays_home_of []); [apply kept_elapsed | apply unmoved_elapsed].
Qed.

Lemma stays_keep H b : post (stays_home H) (modify (with_keep_looping b)).
Proof. apply (stays_home_of []); [apply kept_keep | apply unmoved_keep]. Qed.

Create HintDb stays.
#[local] Hint Resolve stays_home_refl stays_home_trans stays_emit stays_now
  stays_get stays_isdir stays_isfile stays_listdir stays_glob stays_elapsed
  stays_keep : stays.

Ltac stays_tac :=
  repeat first
    [ solve [unfold info, warn, print, exit, sys_exit; auto with stays]
    | apply (post_ret _ (stays_home_refl _))
    | apply (post_raise _ (stays_home_refl _))
    | apply (post_when _ (stays_home_refl _))
    | apply (post_for_each _ (stays_home_refl _) (stays_home_trans _)); intros
    | match goal with
      | |- post _ (match ?b with _ => _ end) => destruct b
      end
    | apply (post_bind _ (stays_home_trans _)); [|intros] ].

(** [os.chdir(homepath)] from anywhere, the home directory being there. *)
Lemma chdir_home home H s :
  Py.startswith home "/" = true -> OS.resolve [] home = H ->
  OS.kind (fs s) H = Some OS.Dir ->
  chdir home s = (Ok tt, with_cwd H s).
Proof.
  intros A R K. unfold chdir, OS.chdir, OS.stat.
  destruct (home =? "")%string eqn:E;
    [apply String.eqb_eq in E; subst; discriminate|].
  rewrite (resolve_absolute (cwd s) [] home A), R, K. reflexivity.
Qed.

Lemma finally_inv {A} (body : M A) (fin : M unit) s r s' :
  finally body fin s = (r, s') ->
  exists r1 s1, body s = (r1, s1) /\
    ((exists s2, fin s1 = (Ok tt, s2) /\ r = r1 /\ s' = s2) \/
     (exists e, fin s1 = (Raise e, s') /\ r = Raise e)).
Proof.
  unfold finally. destruct (body s) as [r1 s1].
  destruct (fin s1) as [[[]|e] s2] eqn:F; intros H; injection H as <- <-;
    exists r1, s1; (split; [reflexivity|]); eauto.
Qed.

(** The [finally] of version 0.1: whatever the claim and the job come to,
    the script is in its home directory afterwards. *)
Lemma V1_claim_home P cfg home H bp subdir lf :
  Py.startswith home "/" = true -> OS.resolve [] home = H ->
  post (stays_home H) (V1.claim_and_run P cfg home bp subdir lf).
Proof.
  intros A R s r s' E [C D]. unfold V1.claim_and_run in E.
  apply finally_inv in E. destruct E as (r1 & s2 & B & E).
  apply kept_V1_claim_body in B.
  assert (D2 : OS.kind (fs s2) H = Some OS.Dir)
    by (apply B; [exact D | left; reflexivity]).
  rewrite (chdir_home _ _ _ A R D2) in E.
  destruct E as [(s3 & E & _ & ->)|(e & E & _)]; [|discriminate].
  injection E as <-. split; [reflexivity | exact D2].
Qed.

Lemma V1_pass_home P cfg st home H :
  Py.startswith home "/" = true -> OS.resolve [] home = H ->
  post (stays_home H) (V1.pass P cfg st home).
Proof.
  intros A R. pose proof (V1_claim_home P cfg home H) as C.
  unfold V1.pass, V1.begin_pass, V1.search, V1.scan, V1.candidate,
    V1.evaluate.
  stays_tac.
Qed.

(** X11. Version 0.1 is in its home directory whenever its main loop ends,
    whatever became of the jobs: started in a directory with the path
    [os.getcwd()] gave, it ends there, with a result or with any
    exception, because the change back is in a [finally] clause and the
    script removes no directory (nor do the job commands, which are taken
    to write to their two streams only). *)
Theorem V1_ends_at_home (P : Platform) (cfg : V1.Config) (st : Z)
        (home : string) (n : nat) (s : State) (r : result unit)
        (s' : State) :
  Forall (fun name => simple name = true) (cwd s) ->
  OS.kind (fs s) (cwd s) = Some OS.Dir ->
  home = OS.render (cwd s) ->
  V1.main_loop P cfg st home n s = Some (r, s') ->
  cwd s' = cwd s /\ OS.kind (fs s') (cwd s) = Some OS.Dir.
Proof.
  intros F K -> E.
  apply (V1_main_loop_post (stays_home (cwd s)) P cfg st (OS.render (cwd s))
           (stays_home_refl _) (stays_home_trans _)
           (V1_pass_home P cfg st _ _ (render_absolute _)
                         (resolve_render [] _ F)) n s r s' E).
  split; [reflexivity | exact K].
Qed.

Lemma V1_ends_at_home_witness :
  let s := with_keep_looping true (boot Example.blocked ["w"]) in
  exists r s',
    V1.main_loop Ref.platform Example.regex_jobs 0 "/w" 3 s = Some (r, s') /\
    cwd s' = ["w"].
Proof.
  intros s.
  let x := eval vm_compute in
             (V1.main_loop Ref.platform Example.regex_jobs 0 "/w" 3 s) in
  match x with
  | Some (?r, ?s1) =>
      assert (E : V1.main_loop Ref.platform Example.regex_jobs 0 "/w" 3 s
                  = Some (r, s1)) by (vm_compute; reflexivity);
      exists r, s1
  end.
  split; [exact E|].
  assert (H1 : Forall (fun name => simple name = true) (cwd s))
    by (repeat constructor).
  assert (H2 : OS.kind (fs s) (cwd s) = Some OS.Dir)
    by (vm_compute; reflexivity).
  assert (H3 : "/w" = OS.render (cwd s)) by reflexivity.
  exact (proj1 (V1_ends_at_home Ref.platform Example.regex_jobs 0 "/w" 3 s
                  _ _ H1 H2 H3 E)).
Defined.

(** The same for results and exceptions of a kind. *)
Lemma post_postg {A} good R (c : M A) : post R c -> postg good R c.
Proof. intros H s r s' E _. eapply H, E. Qed.

Lemma postg_bind {A B} good (R : State -> State -> Prop)
      (c : M A) (k : A -> M B) :
  (forall s t u, R s t -> R t u -> R s u) ->
  postg good R c -> (forall a, postg good R (k a)) -> postg good R (bind c k).
Proof.
  intros T Pc Pk s r s' H G.
  apply bind_inv in H. destruct H as [(a & s1 & H1 & H)|(e & H1 & ->)].
  - eapply T; [eapply Pc; [exact H1 | exact I] | eapply Pk; eassumption].
  - eapply Pc; eassumption.
Qed.

Lemma postg_for_each {A} good (R : State -> State -> Prop)
      (l : list A) (body : A -> M flow) :
  (forall s, R s s) -> (forall s t u, R s t -> R t u -> R s u) ->
  (forall x, postg good R (body x)) -> postg good R (for_each l body).
Proof.
  intros Rr Rt Pb. induction l as [|x l IH]; cbn [for_each].
  - intros s r s' H _. injection H as _ <-. apply Rr.
  - apply (postg_bind _ _ _ _ Rt); [apply Pb|].
    intros [|]; [exact IH|]. intros s r s' H _. injection H as _ <-. apply Rr.
Qed.

Lemma os_error_not_limit e : os_error e -> ~ limit_exit e.
Proof.
  unfold os_error, limit_exit. intros [-> | [-> | [-> | ->]]]; discriminate.
Qed.

Lemma open_w_raises_os p : raises_os (open_w p).
Proof. exact (proj2 (still_open_w p)). Qed.

(** The job part of version 0.3.0 ends without an exception only after the
    change back to the home directory. *)
Lemma V3_run_claimed_home P cfg home H subdir :
  Py.startswith home "/" = true -> OS.resolve [] home = H ->
  launch_errors_are_os P (V3.cmd cfg) ->
  postg limit_exit (stays_home H) (V3.run_claimed P cfg home subdir).
Proof.
  intros A R L s r s' E G _. unfold V3.run_claimed in E.
  apply bind_inv in E. destruct E as [([] & s1 & E1 & E)|(e & E1 & ->)];
    [|apply emit_inv in E1; destruct E1; discriminate].
  apply bind_inv in E. destruct E as [([] & s2 & E2 & E)|(e & E2 & ->)];
    [|apply (proj2 (still_chdir subdir)) in E2;
      destruct (os_error_not_limit _ E2 G)].
  apply bind_inv in E. destruct E as [(g & s3 & E3 & E)|(e & E3 & ->)];
    [|apply open_w_raises_os in E3; destruct (os_error_not_limit _ E3 G)].
  apply bind_inv in E. destruct E as [(h & s4 & E4 & E)|(e & E4 & ->)];
    [|apply open_w_raises_os in E4; destruct (os_error_not_limit _ E4 G)].
  apply bind_inv in E. destruct E as [(code & s5 & E5 & E)|(e & E5 & ->)].
  2:{ unfold subprocess_call in E5.
      destruct (run_job P (V3.cmd cfg) (cwd s4) (fs s4)) as [e'|c o x] eqn:J;
        [|discriminate].
      injection E5 as <- _. destruct (os_error_not_limit _ (L _ _ _ J) G). }
  apply bind_inv in E. destruct E as [([] & s6 & E6 & E)|(e & E6 & ->)];
    [|discriminate].
  unfold chdir in E.
  destruct (OS.chdir (fs s6) (cwd s6) home) as [d|e] eqn:C.
  - injection E as _ <-. destruct (chdir_ok _ _ _ _ C) as [-> K].
    rewrite (resolve_absolute (cwd s6) [] home A), R in *.
    split; [reflexivity | exact K].
  - injection E as <- _.
    assert (O : os_error e).
    { apply (proj2 (still_chdir home) s6 e s6). unfold chdir. rewrite C.
      reflexivity. }
    destruct (os_error_not_limit _ O G).
Qed.

Lemma stays_V3_acquire H P lf : post (stays_home H) (V3.acquire P lf).
Proof.
  apply (stays_home_of []); [apply kept_V3_acquire|].
  unfold V3.acquire. unmoved_tac.
Qed.

Lemma stays_V3_evaluate H P cfg st : post (stays_home H) (V3.evaluate P cfg st).
Proof. unfold V3.evaluate. stays_tac. Qed.

Lemma V3_candidate_home P cfg st home H e :
  Py.startswith home "/" = true -> OS.resolve [] home = H ->
  launch_errors_are_os P (V3.cmd cfg) ->
  postg limit_exit (stays_home H) (V3.candidate P cfg st home e).
Proof.
  intros A R L. unfold V3.candidate.
  apply (postg_bind _ _ _ _ (stays_home_trans _));
    [apply post_postg; stays_tac|intros d].
  destruct (negb d); [apply post_postg; stays_tac|].
  apply (postg_bind _ _ _ _ (stays_home_trans _));
    [apply post_postg; stays_tac|intros l].
  destruct l; [apply post_postg; stays_tac|].
  apply (postg_bind _ _ _ _ (stays_home_trans _));
    [apply post_postg; stays_tac|intros _].
  apply (postg_bind _ _ _ _ (stays_home_trans _));
    [apply post_postg, stays_V3_acquire|intros b].
  apply (postg_bind _ _ _ _ (stays_home_trans _));
    [|intros _; apply post_postg, stays_V3_evaluate].
  destruct b; [apply V3_run_claimed_home; assumption|].
  apply post_postg. apply (post_ret _ (stays_home_refl _)).
Qed.

Lemma V3_pass_home P cfg st home H :
  Py.startswith home "/" = true -> OS.resolve [] home = H ->
  launch_errors_are_os P (V3.cmd cfg) ->
  postg limit_exit (stays_home H) (V3.pass P cfg st home).
Proof.
  intros A R L. unfold V3.pass.
  apply (postg_bind _ _ _ _ (stays_home_trans _));
    [apply post_postg; unfold V3.begin_pass; stays_tac|intros _].
  apply (postg_for_each _ _ _ _ (stays_home_refl _) (stays_home_trans _)).
  intros i. unfold V3.search.
  apply (postg_bind _ _ _ _ (stays_home_trans _));
    [apply post_postg; unfold V3.scan; stays_tac|intros entries].
  apply (postg_bind _ _ _ _ (stays_home_trans _));
    [|intros _; apply post_postg, (post_ret _ (stays_home_refl _))].
  apply (postg_for_each _ _ _ _ (stays_home_refl _) (stays_home_trans _)).
  intros e. apply V3_candidate_home; assumption.
Qed.

Lemma V3_main_loop_postg good (R : State -> State -> Prop) P cfg st home :
  (forall s, R s s) -> (forall s t u, R s t -> R t u -> R s u) ->
  postg good R (V3.pass P cfg st home) ->
  forall n s r s',
    V3.main_loop P cfg st home n s = Some (r, s') ->
    match r with Ok _ => True | Raise e => good e end ->
    R s s'.
Proof.
  intros Rr Rt Pp. induction n as [|n IH]; intros s r s' H G;
    cbn [V3.main_loop] in H.
  - destruct (keep_looping s); [discriminate|]. injection H as <- <-. apply Rr.
  - destruct (keep_looping s); [|injection H as <- <-; apply Rr].
    destruct (V3.pass P cfg st home s) as [[[]|e] s1] eqn:Hp.
    + eapply Rt; [eapply Pp; [exact Hp | exact I] | eapply IH; eassumption].
    + injection H as <- <-. eapply Pp; eassumption.
Qed.

(** X12. Version 0.3.0 is in its home directory when its main loop ends
    normally or with the [exit(0)] of a limit, provided the command fails
    to start only with an error of the system: started in a directory with
    the path [os.getcwd()] gave, it ends there.  (After any other
    exception of the job part it may be in the job directory.) *)
Theorem V3_ends_at_home (P : Platform) (cfg : V3.Config) (st : Z)
        (home : string) (n : nat) (s : State) (r : result unit)
        (s' : State) :
  Forall (fun name => simple name = true) (cwd s) ->
  OS.kind (fs s) (cwd s) = Some OS.Dir ->
  home = OS.render (cwd s) ->
  launch_errors_are_os P (V3.cmd cfg) ->
  V3.main_loop P cfg st home n s = Some (r, s') ->
  r = Ok tt \/ r = Raise (SystemExit (ExitCode 0)) ->
  cwd s' = cwd s /\ OS.kind (fs s') (cwd s) = Some OS.Dir.
Proof.
  intros F K -> L E G.
  apply (V3_main_loop_postg limit_exit (stays_home (cwd s)) P cfg st
           (OS.render (cwd s)) (stays_home_refl _) (stays_home_trans _)
           (V3_pass_home P cfg st _ _ (render_absolute _)
                         (resolve_render [] _ F) L) n s r s' E).
  - destruct G as [-> | ->]; [exact I | reflexivity].
  - split; [reflexivity | exact K].
Qed.

Lemma V3_ends_at_home_witness :
  let cfg := {| V3.patterns := ["job*"]; V3.cmd := ["true"];
                V3.max_jobs := 2; V3.max_hours := Py.PosInf;
                V3.label := "worker" |} in
  let s := with_keep_looping true (boot Example.five_jobs ["w"]) in
  exists s',
    V3.main_loop Ref.platform cfg 0 "/w" 3 s
      = Some (Raise (SystemExit (ExitCode 0)), s') /\
    cwd s' = ["w"].
Proof.
  intros cfg s.
  let x := eval vm_compute in (V3.main_loop Ref.platform cfg 0 "/w" 3 s) in
  match x with
  | Some (?r, ?s1) =>
      assert (E : V3.main_loop Ref.platform cfg 0 "/w" 3 s = Some (r, s1))
        by (vm_compute; reflexivity);
      exists s1
  end.
  split; [exact E|].
  assert (H1 : Forall (fun name => simple name = true) (cwd s))
    by (repeat constructor).
  assert (H2 : OS.kind (fs s) (cwd s) = Some OS.Dir)
    by (vm_compute; reflexivity).
  assert (H3 : "/w" = OS.render (cwd s)) by reflexivity.
  assert (H4 : launch_errors_are_os Ref.platform (V3.cmd cfg))
    by (intros c f e X; discriminate).
  exact (proj1 (V3_ends_at_home Ref.platform cfg 0 "/w" 3 s _ _
                  H1 H2 H3 H4 E (or_intror eq_refl))).
Defined.

(** ** A worker that finds nothing to do *)

(** An entry that is no directory, or is locked, is passed over with one
    line of the log. *)
Lemma V3_skipped P cfg st home e s o :
  V3.unlocked cfg s e = false ->
  exists o', V3.candidate P cfg st home e (with_out o s)
             = (Ok Next, with_out o' s).
Proof.
  intros U. rewrite V3_candidate_cases. unfold V3.unlocked in U.
  cbn [fs cwd with_out out].
  destruct (OS.isdir (fs s) (cwd s) e); [|eexists; reflexivity].
  destruct (OS.isfile (fs s) (cwd s) (V3.lock_of cfg e));
    [eexists; reflexivity | discriminate].
Qed.

Lemma V3_skipped_entries P cfg st home s entries : forall o,
  (forall e, In e entries -> V3.unlocked cfg s e = false) ->
  exists o', for_each entries (V3.candidate P cfg st home) (with_out o s)
             = (Ok tt, with_out o' s).
Proof.
  induction entries as [|e entries IH]; intros o A.
  - exists o. reflexivity.
  - destruct (V3_skipped P cfg st home e s o (A e (or_introl eq_refl)))
      as (o1 & E1).
    destruct (IH o1 (fun x I => A x (or_intror I))) as (o2 & E2).
    exists o2. cbn [for_each]. rewrite (bind_ok _ _ _ _ _ E1). exact E2.
Qed.

Lemma V3_skipped_searches P cfg st home s : forall k i o,
  (forall e, In e (V3_entries P cfg s) -> V3.unlocked cfg s e = false) ->
  (i + k = List.length (V3.patterns cfg))%nat ->
  exists o', for_each (seq i k) (V3.search P cfg st home) (with_out o s)
             = (Ok tt, with_out o' s).
Proof.
  induction k as [|k IH]; intros i o A Len.
  - exists o. reflexivity.
  - assert (Hi : (i < List.length (V3.patterns cfg))%nat) by lia.
    assert (A' : forall e,
               In e (Glob.glob P (fs s) (cwd s) (nth i (V3.patterns cfg) "")) ->
               V3.unlocked cfg s e = false).
    { intros e I. apply A. unfold V3_entries. apply in_flat_map.
      exists (nth i (V3.patterns cfg) ""). split; [|exact I].
      apply nth_In, Hi. }
    destruct (V3_skipped_entries P cfg st home s _
                (out (with_out o s) ++
                 [LogInfo (MsgPattern i "" (nth i (V3.patterns cfg) ""))])%list
                A') as (o1 & E1).
    destruct (IH (S i) o1 A ltac:(lia)) as (o2 & E2).
    exists o2. cbn [seq for_each].
    assert (Se : V3.search P cfg st home i (with_out o s)
                 = (Ok Next, with_out o1 s)).
    { assert (Sc : V3.scan P cfg i (with_out o s)
                   = (Ok (Glob.glob P (fs s) (cwd s)
                                    (nth i (V3.patterns cfg) "")),
                      with_out (out (with_out o s) ++
                                [LogInfo (MsgPattern i ""
                                            (nth i (V3.patterns cfg) ""))])
                               s)) by reflexivity.
      unfold V3.search. rewrite (bind_ok _ _ _ _ _ Sc).
      rewrite (bind_ok _ _ _ _ _ E1). reflexivity. }
    rewrite (bind_ok _ _ _ _ _ Se). exact E2.
Qed.

(** X13. A worker of version 0.3.0 that finds nothing to claim ends after
    one pass: when every entry of its patterns is locked or no directory,
    the main loop ends normally whatever the number of passes allowed, and
    leaves everything as it was but for the log and [keep_looping]; the
    clock is not read and no limit is checked. *)
Theorem V3_idle_worker_ends (P : Platform) (cfg : V3.Config) (st : Z)
        (home : string) (s : State) (n : nat) :
  keep_looping s = true ->
  (forall e, In e (V3_entries P cfg s) -> V3.unlocked cfg s e = false) ->
  exists o,
    V3.main_loop P cfg st home (S n) s
      = Some (Ok tt, with_out o (with_keep_looping false s)).
Proof.
  intros K A. cbn [V3.main_loop]. rewrite K.
  destruct (V3_skipped_searches P cfg st home (with_keep_looping false s)
              (List.length (V3.patterns cfg)) O
              (out s ++ [LogInfo (MsgSearching (List.length (V3.patterns cfg)))])%list
              A eq_refl) as (o & E).
  assert (Pa : V3.pass P cfg st home s
               = (Ok tt, with_out o (with_keep_looping false s))).
  { assert (Bp : V3.begin_pass cfg s
                 = (Ok tt,
                    with_out (out s ++ [LogInfo (MsgSearching
                                          (List.length (V3.patterns cfg)))])
                             (with_keep_looping false s))) by reflexivity.
    unfold V3.pass. rewrite (bind_ok _ _ _ _ _ Bp). exact E. }
  rewrite Pa. exists o. destruct n; reflexivity.
Qed.

Lemma V3_idle_worker_ends_witness :
  let s := with_keep_looping true (boot Example.claimed_jobs ["w"]) in
  exists o,
    V3.main_loop Ref.platform Example.glob_jobs 0 "/w" 1 s
      = Some (Ok tt, with_out o (with_keep_looping false s)).
Proof.
  intros s.
  assert (En : V3_entries Ref.platform Example.glob_jobs s = ["job1"; "job2"])
    by (vm_compute; reflexivity).
  apply V3_idle_worker_ends; [reflexivity|].
  intros e I. rewrite En in I.
  destruct I as [<-|[<-|[]]]; vm_compute; reflexivity.
Defined.

(** ** What a claim leaves *)

Lemma isdir_named f c path :
  OS.isdir f c path = true ->
  path <> "" /\ OS.kind f (OS.resolve c path) = Some OS.Dir.
Proof.
  unfold OS.isdir, OS.stat.
  destruct (path =? "")%string eqn:E; [discriminate|].
  apply String.eqb_neq in E.
  destruct (OS.kind f (OS.resolve c path)) as [[|x]|]; try discriminate. auto.
Qed.

Lemma lexists_none f c path :
  path <> "" -> OS.lexists f c path = false ->
  OS.kind f (OS.resolve c path) = None.
Proof.
  unfold OS.lexists, OS.stat. intros N.
  apply String.eqb_neq in N. rewrite N.
  destruct (OS.kind f (OS.resolve c path)); [discriminate | reflexivity].
Qed.

(** The lock file of an entry is in the directory of the entry. *)
Lemma V3_lock_path cfg c e :
  Py.free_of "/" (V3.label cfg) = true -> e <> "" ->
  OS.resolve c (V3.lock_of cfg e)
  = (OS.resolve c e ++ [(V3.label cfg ++ ".lock")%string])%list.
Proof.
  intros F N. unfold V3.lock_of.
  change (e ++ "/" ++ V3.label cfg ++ ".lock")
    with (e ++ String "/" (V3.label cfg ++ ".lock")).
  apply resolve_slash_simple; [exact N|].
  apply simple_label; [exact F | reflexivity | cbn; lia].
Qed.

Lemma kept_V3_evaluate outs P cfg st : post (kept outs) (V3.evaluate P cfg st).
Proof. unfold V3.evaluate. kept_tac. Qed.

(** X14. A directory that version 0.3.0 finds without anything at the
    place of its lock file is claimed, the label holding no slash: when the
    script is done with the entry, however the job went, the lock file is
    in the directory and holds the line with the identity of the worker,
    so that the entry is passed over from then on. *)
Theorem V3_claim_leaves_lock (P : Platform) (cfg : V3.Config) (st : Z)
        (home e : string) (s : State) (r : result flow) (s' : State) :
  Py.free_of "/" (V3.label cfg) = true ->
  V3.unlocked cfg s e = true ->
  OS.lexists (fs s) (cwd s) (V3.lock_of cfg e) = false ->
  V3.candidate P cfg st home e s = (r, s') ->
  OS.kind (fs s')
          (OS.resolve (cwd s) e ++ [(V3.label cfg ++ ".lock")%string])%list
  = Some (OS.File ("Reserved by worker: " ++ worker_id P ++ newline)).
Proof.
  intros F U X E.
  pose proof U as U'. unfold V3.unlocked in U'.
  apply andb_true_iff in U'. destruct U' as [D _].
  destruct (isdir_named _ _ _ D) as [Ne Kd].
  pose proof (V3_lock_path cfg (cwd s) e F Ne) as Lp.
  set (lock := (OS.resolve (cwd s) e ++ [(V3.label cfg ++ ".lock")%string])%list)
    in *.
  assert (Nl : lock <> []) by apply snoc_not_nil.
  pose proof (lexists_none _ _ _ (lock_of_not_empty cfg e) X) as K0.
  pose proof (open_x_fresh (fs s) (cwd s) _ (lock_of_not_empty cfg e) K0) as O.
  rewrite Lp in *. unfold OS.parent_error in O.
  unfold lock in O at 1. rewrite parent_snoc, Kd in O. fold lock in O.
  rewrite (V3_claimed _ _ _ _ _ _ _ _ U O) in E.
  assert (Kw : forall t u,
             write lock ("Reserved by worker: " ++ worker_id P ++ newline)
                   (with_fs (OS.set (fs s) lock (OS.File ""))
                            (with_keep_looping true s)) = (Ok tt, t) ->
             kept (V3_outputs cfg) t u ->
             OS.kind (fs u) lock
             = Some (OS.File ("Reserved by worker: " ++ worker_id P
                              ++ newline))).
  { intros t u W Ku. unfold write, modify in W. injection W as <-.
    apply Ku.
    - cbn [fs with_fs with_keep_looping].
      rewrite (write_file _ lock "" _ Nl (kind_set_same _ _ _ Nl)).
      apply kind_set_same, Nl.
    - right. unfold lock. rewrite last_last.
      intros [I|[I|[]]]; apply append_inv_head in I; discriminate. }
  apply bind_inv in E. destruct E as [([] & s3 & H & E)|(x & H & _)].
  - unfold V3.held in H.
    apply bind_inv in H. destruct H as [([] & s2 & W & H)|(x & W & X')];
      [|discriminate].
    apply (Kw s2 s' W).
    eapply kept_trans; [eapply kept_V3_run_claimed; eassumption|].
    eapply kept_V3_evaluate, E.
  - unfold V3.held in H.
    apply bind_inv in H. destruct H as [([] & s2 & W & H)|(y & W & X')];
      [|discriminate].
    apply (Kw s2 s' W). eapply kept_V3_run_claimed; eassumption.
Qed.

Lemma V3_claim_leaves_lock_witness :
  let s := boot Example.five_jobs ["w"] in
  exists r s',
    V3.candidate Ref.platform Example.glob_nosuch 0 "/w" "job1" s = (r, s') /\
    OS.kind (fs s') ["w"; "job1"; "worker.lock"]
    = Some (OS.File ("Reserved by worker: c0ffee" ++ newline)).
Proof.
  intros s.
  let x := eval vm_compute in
             (V3.candidate Ref.platform Example.glob_nosuch 0 "/w" "job1" s) in
  match x with
  | (?r, ?s1) =>
      assert (E : V3.candidate Ref.platform Example.glob_nosuch 0 "/w"
                              "job1" s = (r, s1))
        by (vm_compute; reflexivity);
      exists r, s1
  end.
  split; [exact E|].
  assert (H1 : Py.free_of "/" (V3.label Example.glob_nosuch) = true)
    by reflexivity.
  assert (H2 : V3.unlocked Example.glob_nosuch s "job1" = true)
    by (vm_compute; reflexivity).
  assert (H3 : OS.lexists (fs s) (cwd s)
                          (V3.lock_of Example.glob_nosuch "job1") = false)
    by (vm_compute; reflexivity).
  exact (V3_claim_leaves_lock Ref.platform Example.glob_nosuch 0 "/w" "job1"
           s _ _ H1 H2 H3 E).
Defined.

(** ** Version 0.1 and the path of the job directory *)

Lemma resolve_empty c : OS.resolve c "" = c.
Proof. reflexivity. Qed.

Lemma resolve_slash_end c a :
  a <> "" -> OS.resolve c (a ++ "/") = OS.resolve c a.
Proof.
  intros N. change (a ++ "/") with (a ++ String "/" "").
  rewrite (resolve_slash _ _ _ N). reflexivity.
Qed.

(** [os.path.join(a, name)] names the entry [name] of what [a] names. *)
Lemma resolve_join c a n :
  simple n = true ->
  OS.resolve c (OS.path_join a n) = (OS.resolve c a ++ [n])%list.
Proof.
  intros Hn. unfold OS.path_join.
  rewrite (free_not_absolute _ (simple_free _ Hn)).
  destruct (String.eqb a "") eqn:E.
  - apply String.eqb_eq in E. subst a. cbn [orb].
    apply resolve_simple, Hn.
  - apply String.eqb_neq in E. cbn [orb].
    destruct (Py.endswith_char a "/") eqn:S.
    + destruct (endswith_char_snoc _ _ S) as [a' ->].
      rewrite append_assoc. change (String "/" "" ++ n) with (String "/" n).
      destruct a' as [|x a'].
      * cbn [append]. rewrite resolve_root_simple by exact Hn. reflexivity.
      * rewrite resolve_slash_simple; [|discriminate|exact Hn].
        rewrite resolve_slash_end by discriminate. reflexivity.
    + apply resolve_slash_simple; assumption.
Qed.

Lemma path_join_not_empty a n : n <> "" -> OS.path_join a n <> "".
Proof.
  intros N. unfold OS.path_join.
  destruct (Py.startswith n "/"); [exact N|].
  destruct ((a =? "")%string || Py.endswith_char a "/");
    destruct a; cbn; try discriminate; exact N.
Qed.

Lemma finally_eq {A} (body : M A) (fin : M unit) s r s1 :
  body s = (r, s1) ->
  finally body fin s =
  match fin s1 with
  | (Ok _, s2) => (r, s2)
  | (Raise e, s2) => (Raise e, s2)
  end.
Proof. intros H. unfold finally. rewrite H. reflexivity. Qed.

(** X15. Version 0.1 opens the output files of a job under the path of the
    job directory read again from the job directory, into which it has
    changed: [os.path.join(path, "worker.out")] after [os.chdir(path)].
    When that names nothing, as it does for a base path like [.], the job
    that was claimed is not run: the loop body ends with an error of the
    system, the lock file stays, with the line of the worker in it, and no
    job is counted. *)
Theorem V1_output_path_is_read_again (P : Platform) (cfg : V1.Config)
        (st : Z) (home bp pat name : string) (s : State) (lock : OS.apath)
        (f1 : OS.FS) (d : OS.apath) :
  let path := OS.path_join bp name in
  let again := OS.resolve d path in
  V1.unlocked P s bp pat name = true ->
  OS.open_x (fs s) (cwd s) (V1.lock_of bp name) = Ok (lock, f1) ->
  OS.chdir f1 (cwd s) path = Ok d ->
  OS.kind f1 again = None ->
  OS.kind f1 (again ++ ["worker.out"])%list = None ->
  exists e s',
    V1.candidate P cfg st home bp pat name s = (Raise e, s') /\
    os_error e /\
    (e = FileNotFoundError \/ cwd s' = d) /\
    processed_jobs s' = processed_jobs s /\
    OS.kind (fs s') lock
    = Some (OS.File ("Reserved by worker: " ++ worker_id P)).
Proof.
  intros path again U O C Ka Ko. subst path again.
  rewrite (V1_claimed _ _ _ _ _ _ _ _ _ _ U O). unfold V1.held.
  destruct (open_x_ok _ _ _ _ _ O) as (K0 & _ & K1 & _).
  assert (Nl : lock <> []) by (intros ->; discriminate).
  set (s1 := with_fs f1 (with_keep_looping true s)).
  set (s1b := with_cwd d (with_out (out s1 ++ [LogInfo (MsgAcquired name)])
                                   s1)).
  assert (So : simple "worker.out" = true) by reflexivity.
  assert (Ow : OS.open_w f1 d (OS.path_join (OS.path_join bp name)
                                             "worker.out")
               = Raise FileNotFoundError).
  { unfold OS.open_w.
    destruct (OS.path_join (OS.path_join bp name) "worker.out" =? "")%string
      eqn:E.
    - apply String.eqb_eq in E. apply path_join_not_empty in E;
        [destruct E | discriminate].
    - rewrite (resolve_join _ _ _ So), Ko.
      unfold OS.parent_error. rewrite parent_snoc, Ka. reflexivity. }
  assert (J : V1.job P cfg bp name s1 = (Raise FileNotFoundError, s1b)).
  { unfold V1.job, bind, info, emit, modify, chdir, open_w. cbv zeta.
    cbn [fs cwd with_out with_cwd with_fs with_keep_looping s1].
    rewrite C.
    cbn [fs cwd with_out with_cwd with_fs with_keep_looping].
    change (fs s1) with f1. rewrite Ow. reflexivity. }
  set (msg := "Reserved by worker: " ++ worker_id P).
  set (s2 := with_fs (OS.write (fs s1b) lock msg) s1b).
  assert (X : except_FileExistsError
                (finally (V1.job P cfg bp name) (write lock msg))
                (warn (MsgCouldNotLock (V1.lock_of bp name))) s1
              = (Raise FileNotFoundError, s2)).
  { unfold except_FileExistsError.
    rewrite (finally_eq _ _ _ _ _ J). reflexivity. }
  assert (K2 : OS.kind (fs s2) lock = Some (OS.File msg)).
  { unfold s2. cbn [fs with_fs with_cwd with_out s1b s1 with_keep_looping].
    rewrite (write_file _ lock "" _ Nl K1). apply kind_set_same, Nl. }
  destruct (chdir home s2) as [[[]|e'] s3] eqn:Ch.
  - exists FileNotFoundError, s3. split.
    { apply bind_raise. rewrite (finally_eq _ _ _ _ _ X), Ch. reflexivity. }
    unfold chdir in Ch.
    destruct (OS.chdir (fs s2) (cwd s2) home); [|discriminate].
    injection Ch as <-. repeat split; auto. unfold os_error. auto.
  - exists e', s3. split.
    { apply bind_raise. rewrite (finally_eq _ _ _ _ _ X), Ch. reflexivity. }
    pose proof (proj2 (still_chdir home) _ _ _ Ch) as Oe.
    unfold chdir in Ch.
    destruct (OS.chdir (fs s2) (cwd s2) home); [discriminate|].
    injection Ch as _ <-. repeat split; auto.
Qed.

Lemma V1_output_path_is_read_again_witness :
  let s := boot jobs_here ["w"] in
  exists e s',
    V1.candidate Ref.platform regex_here 0 "/w" "." "job" "job1" s
      = (Raise e, s') /\
    os_error e /\
    processed_jobs s' = 0 /\
    OS.kind (fs s') ["w"; "job1"; "worker.lock"]
    = Some (OS.File "Reserved by worker: c0ffee").
Proof.
  intros s.
  assert (H1 : V1.unlocked Ref.platform s "." "job" "job1" = true)
    by (vm_compute; reflexivity).
  assert (H2 : OS.open_x (fs s) (cwd s) (V1.lock_of "." "job1")
               = Ok (["w"; "job1"; "worker.lock"],
                     OS.set (fs s) ["w"; "job1"; "worker.lock"] (OS.File "")))
    by (vm_compute; reflexivity).
  assert (H3 : OS.chdir (OS.set (fs s) ["w"; "job1"; "worker.lock"]
                                (OS.File ""))
                        (cwd s) (OS.path_join "." "job1")
               = Ok ["w"; "job1"]) by (vm_compute; reflexivity).
  destruct (V1_output_path_is_read_again Ref.platform regex_here 0 "/w" "."
              "job" "job1" s _ _ _ H1 H2 H3)
    as (e & s' & A & B & _ & C & D);
    [vm_compute; reflexivity | vm_compute; reflexivity |].
  exists e, s'. auto.
Defined.

(** ** A worker of version 0.1 that finds nothing to do *)

Lemma V1_skipped P cfg st home bp pat e s o :
  V1_skips P s bp pat e = true ->
  exists o', V1.candidate P cfg st home bp pat e (with_out o s)
             = (Ok Next, with_out o' s).
Proof.
  intros U. rewrite V1_candidate_cases. unfold V1_skips in U.
  cbn [fs cwd with_out out].
  destruct (OS.isdir (fs s) (cwd s) e); [|eexists; reflexivity].
  cbn [negb orb] in U.
  destruct (re_search P pat e) as [[|]|]; [| eexists; reflexivity
                                           | discriminate].
  rewrite U. eexists. reflexivity.
Qed.

Lemma V1_skipped_entries P cfg st home bp pat s entries : forall o,
  forallb (V1_skips P s bp pat) entries = true ->
  exists o', for_each entries (V1.candidate P cfg st home bp pat)
                      (with_out o s)
             = (Ok tt, with_out o' s).
Proof.
  induction entries as [|e entries IH]; intros o A.
  - exists o. reflexivity.
  - cbn [forallb] in A. apply andb_true_iff in A. destruct A as [A1 A2].
    destruct (V1_skipped P cfg st home bp pat e s o A1) as (o1 & E1).
    destruct (IH o1 A2) as (o2 & E2).
    exists o2. cbn [for_each]. rewrite (bind_ok _ _ _ _ _ E1). exact E2.
Qed.

Lemma V1_skipped_searches P cfg st home s : forall k i o,
  V1_nothing_to_do P cfg s ->
  (i + k = List.length (V1.basepaths cfg))%nat ->
  exists o', for_each (seq i k) (V1.search P cfg st home) (with_out o s)
             = (Ok tt, with_out o' s).
Proof.
  induction k as [|k IH]; intros i o A Len.
  - exists o. reflexivity.
  - assert (Hi : (i < List.length (V1.basepaths cfg))%nat) by lia.
    destruct (A i Hi) as (entries & Li & Sk).
    destruct (V1_skipped_entries P cfg st home _ _ s entries
                (out (with_out o s) ++
                 [LogInfo (MsgPattern i (nth i (V1.basepaths cfg) "")
                                      (nth i (V1.patterns cfg) ""))])%list
                Sk) as (o1 & E1).
    destruct (IH (S i) o1 A ltac:(lia)) as (o2 & E2).
    exists o2. cbn [seq for_each].
    assert (Se : V1.search P cfg st home i (with_out o s)
                 = (Ok Next, with_out o1 s)).
    { assert (Sc : V1.scan cfg i (with_out o s)
                   = (Ok (nth i (V1.basepaths cfg) "",
                          nth i (V1.patterns cfg) "", entries),
                      with_out (out (with_out o s) ++
                                [LogInfo (MsgPattern i
                                            (nth i (V1.basepaths cfg) "")
                                            (nth i (V1.patterns cfg) ""))])
                               s)).
      { unfold V1.scan, bind, info, emit, modify, listdir, ret.
        cbn [fs cwd with_out out]. rewrite Li. reflexivity. }
      unfold V1.search. rewrite (bind_ok _ _ _ _ _ Sc).
      rewrite (bind_ok _ _ _ _ _ E1). reflexivity. }
    rewrite (bind_ok _ _ _ _ _ Se). exact E2.
Qed.

(** X16. A worker of version 0.1 that finds nothing to claim ends after
    one pass: when every base path can be listed and every name in it is
    no directory where the script is, or does not match the pattern, or
    has its lock file, the main loop ends normally whatever the number of
    passes allowed, and leaves everything as it was but for the log and
    [keep_looping]; the clock is not read. *)
Theorem V1_idle_worker_ends (P : Platform) (cfg : V1.Config) (st : Z)
        (home : string) (s : State) (n : nat) :
  keep_looping s = true ->
  V1_nothing_to_do P cfg s ->
  exists o,
    V1.main_loop P cfg st home (S n) s
      = Some (Ok tt, with_out o (with_keep_looping false s)).
Proof.
  intros K A. cbn [V1.main_loop]. rewrite K.
  destruct (V1_skipped_searches P cfg st home (with_keep_looping false s)
              (List.length (V1.basepaths cfg)) O
              (out s ++ [LogInfo (MsgSearching
                                    (List.length (V1.basepaths cfg)))])%list
              A eq_refl) as (o & E).
  assert (Pa : V1.pass P cfg st home s
               = (Ok tt, with_out o (with_keep_looping false s))).
  { assert (Bp : V1.begin_pass cfg s
                 = (Ok tt,
                    with_out (out s ++ [LogInfo (MsgSearching
                                          (List.length (V1.basepaths cfg)))])
                             (with_keep_looping false s))) by reflexivity.
    unfold V1.pass. rewrite (bind_ok _ _ _ _ _ Bp). exact E. }
  rewrite Pa. exists o. destruct n; reflexivity.
Qed.

Lemma V1_idle_worker_ends_witness :
  let s := with_keep_looping true (boot Example.claimed_jobs ["w"]) in
  exists o,
    V1.main_loop Ref.platform Example.regex_jobs 0 "/w" 1 s
      = Some (Ok tt, with_out o (with_keep_looping false s)).
Proof.
  intros s. apply V1_idle_worker_ends; [reflexivity|].
  intros i Hi. destruct i as [|i]; [|cbn in Hi; lia].
  exists ["job1"; "job2"]. split; vm_compute; reflexivity.
Defined.

(** ** A lock that is not a file, for version 0.1 *)

Lemma calm_V1_skips P s t bp pat e :
  calm s t -> V1_skips P t bp pat e = V1_skips P s bp pat e.
Proof. intros (A & B & _). unfold V1_skips. rewrite A, B. reflexivity. Qed.

Lemma calm_V1_blocked P s t bp pat e :
  calm s t -> V1_blocked P t bp pat e = V1_blocked P s bp pat e.
Proof.
  intros (A & B & _). unfold V1_blocked, V1.unlocked. rewrite A, B.
  reflexivity.
Qed.

Lemma V1_skipped_calm P cfg st home bp pat e t :
  V1_skips P t bp pat e = true ->
  exists t', V1.candidate P cfg st home bp pat e t = (Ok Next, t') /\
             calm t t' /\ keep_looping t' = keep_looping t.
Proof.
  intros U. rewrite V1_candidate_cases. unfold V1_skips in U.
  destruct (OS.isdir (fs t) (cwd t) e);
    [|eexists; split; [reflexivity|]; split; [apply calm_refl|reflexivity]].
  cbn [negb orb] in U.
  destruct (re_search P pat e) as [[|]|];
    [| eexists; split; [reflexivity|]; split; [apply calm_refl|reflexivity]
     | discriminate].
  rewrite U. eexists. split; [reflexivity|]. repeat split.
Qed.

(** The check of version 0.1 changes neither the file system, nor the
    working directory, nor the count, and raises nothing. *)
Lemma V1_evaluate_calm P cfg st s :
  exists f s', V1.evaluate P cfg st s = (Ok f, s') /\ calm s s' /\
               keep_looping s' = keep_looping s.
Proof.
  unfold V1.evaluate, bind, now, modify, get, info, emit, modify, ret.
  cbn [processed_jobs elapsed_hours with_reads with_elapsed_hours with_out].
  destruct (processed_jobs s >=? V1.max_jobs cfg);
    [eexists _, _; split; [reflexivity|]; repeat split|].
  destruct (Qle_bool _ _); eexists _, _; (split; [reflexivity|]);
    repeat split.
Qed.

Lemma V1_lock_of_not_empty bp e : V1.lock_of bp e <> "".
Proof.
  unfold V1.lock_of. apply path_join_not_empty. destruct e; discriminate.
Qed.

(** A name whose lock cannot be created because something that is no file
    is in its place: the claim fails, the script goes home, and the name
    counts as work that is left. *)
Lemma V1_blocked_candidate P cfg st home bp pat e s :
  Py.startswith home "/" = true -> OS.resolve [] home = cwd s ->
  OS.kind (fs s) (cwd s) = Some OS.Dir ->
  V1_blocked P s bp pat e = true ->
  exists f s', V1.candidate P cfg st home bp pat e s = (Ok f, s') /\
               calm s s' /\ keep_looping s' = true.
Proof.
  intros A R K B. unfold V1_blocked in B.
  apply andb_true_iff in B. destruct B as [U X].
  assert (E : OS.open_x (fs s) (cwd s) (V1.lock_of bp e)
              = Raise FileExistsError).
  { apply open_x_exists; [apply V1_lock_of_not_empty|].
    unfold OS.lexists, OS.stat in X.
    destruct (V1.lock_of bp e =? "")%string; [discriminate|].
    destruct (OS.kind (fs s) (OS.resolve (cwd s) (V1.lock_of bp e)));
      [discriminate | discriminate]. }
  rewrite (V1_lost _ _ _ _ _ _ _ _ U E).
  set (s1 := with_out (out s ++ [LogWarn (MsgCouldNotLock (V1.lock_of bp e))])
                      (with_keep_looping true s)).
  assert (W : warn (MsgCouldNotLock (V1.lock_of bp e))
                   (with_keep_looping true s) = (Ok tt, s1)) by reflexivity.
  assert (F : finally (warn (MsgCouldNotLock (V1.lock_of bp e)))
                      (chdir home) (with_keep_looping true s)
              = (Ok tt, with_cwd (cwd s) s1)).
  { rewrite (finally_eq _ _ _ _ _ W).
    rewrite (chdir_home home (cwd s) s1 A R K). reflexivity. }
  rewrite (bind_ok _ _ _ _ _ F).
  destruct (V1_evaluate_calm P cfg st (with_cwd (cwd s) s1))
    as (f & s' & Ev & C & Kl).
  exists f, s'. split; [exact Ev|]. split; [|exact Kl].
  eapply calm_trans; [|exact C]. repeat split.
Qed.

Lemma V1_blocked_entries P cfg st home bp pat s0 entries : forall s,
  Py.startswith home "/" = true -> OS.resolve [] home = cwd s0 ->
  OS.kind (fs s0) (cwd s0) = Some OS.Dir ->
  calm s0 s ->
  forallb (fun name => V1_skips P s0 bp pat name ||
                       V1_blocked P s0 bp pat name) entries = true ->
  exists s', for_each entries (V1.candidate P cfg st home bp pat) s
             = (Ok tt, s') /\
             calm s0 s' /\
             keep_looping s' =
               keep_looping s || existsb (V1_blocked P s0 bp pat) entries.
Proof.
  induction entries as [|e entries IH]; intros s A R K C F.
  - exists s. split; [reflexivity|]. split; [exact C|].
    cbn. rewrite orb_false_r. reflexivity.
  - cbn [forallb] in F. apply andb_true_iff in F. destruct F as [F1 F2].
    cbn [for_each existsb].
    destruct (V1_blocked P s0 bp pat e) eqn:B.
    + pose proof B as B'. rewrite <- (calm_V1_blocked _ _ _ _ _ _ C) in B'.
      destruct C as (Cf & Cc & Cp).
      assert (R' : OS.resolve [] home = cwd s) by (rewrite Cc; exact R).
      assert (Kd : OS.kind (fs s) (cwd s) = Some OS.Dir)
        by (rewrite Cf, Cc; exact K).
      destruct (V1_blocked_candidate P cfg st home bp pat e s A R' Kd B')
        as (f & s1 & E1 & C1 & K1).
      assert (C01 : calm s0 s1).
      { eapply calm_trans; [|exact C1]. repeat split; assumption. }
      rewrite (bind_ok _ _ _ _ _ E1). destruct f.
      * destruct (IH s1 A R K C01 F2) as (s' & E' & C' & K').
        exists s'. split; [exact E'|]. split; [exact C'|].
        rewrite K', K1. cbn. rewrite orb_true_r. reflexivity.
      * exists s1. split; [reflexivity|]. split; [exact C01|].
        rewrite K1. cbn. rewrite orb_true_r. reflexivity.
    + rewrite orb_false_r in F1.
      rewrite <- (calm_V1_skips _ _ _ _ _ _ C) in F1.
      destruct (V1_skipped_calm P cfg st home bp pat e s F1)
        as (s1 & E1 & C1 & K1).
      destruct (IH s1 A R K (calm_trans _ _ _ C C1) F2)
        as (s' & E' & C' & K').
      exists s'. rewrite (bind_ok _ _ _ _ _ E1). split; [exact E'|].
      split; [exact C'|]. rewrite K', K1. reflexivity.
Qed.

Lemma V1_blocked_searches P cfg st home s0 : forall k i s,
  Py.startswith home "/" = true -> OS.resolve [] home = cwd s0 ->
  OS.kind (fs s0) (cwd s0) = Some OS.Dir ->
  calm s0 s ->
  V1_nothing_to_claim P cfg s0 ->
  (i + k = List.length (V1.basepaths cfg))%nat ->
  exists s', for_each (seq i k) (V1.search P cfg st home) s = (Ok tt, s') /\
             calm s0 s' /\
             keep_looping s' =
               keep_looping s || existsb (V1_blocked_at P cfg s0) (seq i k).
Proof.
  induction k as [|k IH]; intros i s A R K C N Len.
  - exists s. split; [reflexivity|]. split; [exact C|].
    cbn. rewrite orb_false_r. reflexivity.
  - assert (Hi : (i < List.length (V1.basepaths cfg))%nat) by lia.
    destruct (N i Hi) as (entries & Li & Sk).
    set (t := with_out (out s ++
                        [LogInfo (MsgPattern i (nth i (V1.basepaths cfg) "")
                                             (nth i (V1.patterns cfg) ""))])
                       s).
    assert (Ct : calm s0 t).
    { eapply calm_trans; [exact C|]. repeat split. }
    assert (Sc : V1.scan cfg i s
                 = (Ok (nth i (V1.basepaths cfg) "",
                        nth i (V1.patterns cfg) "", entries), t)).
    { unfold V1.scan, bind, info, emit, modify, listdir, ret.
      cbn [fs cwd with_out out].
      destruct C as (Cf & Cc & _). rewrite Cf, Cc, Li. reflexivity. }
    destruct (V1_blocked_entries P cfg st home _ _ s0 entries t A R K Ct Sk)
      as (t1 & E1 & C1 & K1).
    destruct (IH (S i) t1 A R K C1 N ltac:(lia)) as (s' & E' & C' & K').
    assert (Se : V1.search P cfg st home i s = (Ok Next, t1)).
    { unfold V1.search. rewrite (bind_ok _ _ _ _ _ Sc).
      rewrite (bind_ok _ _ _ _ _ E1). reflexivity. }
    exists s'. cbn [seq for_each existsb].
    rewrite (bind_ok _ _ _ _ _ Se). split; [exact E'|].
    split; [exact C'|]. rewrite K', K1.
    unfold V1_blocked_at at 2. rewrite Li.
    change (keep_looping t) with (keep_looping s).
    rewrite orb_assoc. reflexivity.
Qed.

(** X17. Version 0.1 never leaves its main loop when, started in its home
    directory, every base path can be listed and every name in it is
    passed over or is a job directory with something that is no regular
    file at the place of its lock file, and there is one of these: every
    pass fails to claim it, goes home and sets [keep_looping] again, and
    no limit ends the loop, since a limit only breaks the inner loop. *)
Theorem V1_never_ends_on_blocked_lock (P : Platform) (cfg : V1.Config)
        (st : Z) (home : string) (s : State) :
  keep_looping s = true ->
  Py.startswith home "/" = true -> OS.resolve [] home = cwd s ->
  OS.kind (fs s) (cwd s) = Some OS.Dir ->
  V1_nothing_to_claim P cfg s ->
  existsb (V1_blocked_at P cfg s) (seq 0 (List.length (V1.basepaths cfg)))
    = true ->
  forall n, V1.main_loop P cfg st home n s = None.
Proof.
  intros Kl A R K N X n.
  assert (G : forall t, calm s t -> keep_looping t = true ->
                        V1.main_loop P cfg st home n t = None).
  { induction n as [|n IH]; intros t C Kt; cbn [V1.main_loop]; rewrite Kt;
      [reflexivity|].
    assert (Bp : V1.begin_pass cfg t
                 = (Ok tt,
                    with_out (out t ++ [LogInfo (MsgSearching
                                          (List.length (V1.basepaths cfg)))])
                             (with_keep_looping false t))) by reflexivity.
    assert (C1 : calm s (with_out (out t ++ [LogInfo (MsgSearching
                                          (List.length (V1.basepaths cfg)))])
                             (with_keep_looping false t))).
    { eapply calm_trans; [exact C|]. repeat split. }
    destruct (V1_blocked_searches P cfg st home s
                (List.length (V1.basepaths cfg)) O _ A R K C1 N eq_refl)
      as (t' & E & C' & K').
    unfold V1.pass. rewrite (bind_ok _ _ _ _ _ Bp), E.
    apply IH; [exact C'|]. rewrite K', X. reflexivity. }
  apply G; [apply calm_refl | exact Kl].
Qed.

Lemma V1_never_ends_on_blocked_lock_witness :
  V1.main_loop Ref.platform Example.regex_jobs 0 "/w" 7
               (with_keep_looping true (boot lock_in_the_way_1 ["w"])) = None.
Proof.
  apply V1_never_ends_on_blocked_lock.
  - reflexivity.
  - reflexivity.
  - vm_compute. reflexivity.
  - vm_compute. reflexivity.
  - intros i Hi. destruct i as [|i]; [|cbn in Hi; lia].
    exists ["job1"]. split; vm_compute; reflexivity.
  - vm_compute. reflexivity.
Defined.
